(** * Alphatic Portfolio Analyzer: the analytics core, embedded and verified

    A shallow embedding of the quantitative functions of
    [alphatic_portfolio_app.py] (return computation, performance metrics,
    regime detection, risk metrics, signal scoring, grading) together with
    the properties its specification states about them.

    Numbers.  The program computes on IEEE-754 doubles through numpy and
    pandas.  The embedding keeps the special values the program's control
    flow depends on (NaN and the two infinities, with the IEEE rules for
    arithmetic and comparison on them) and takes finite values as exact
    rationals: rounding error, overflow and the sign of zero are not
    modelled.  The two irrational library functions the program calls,
    [np.sqrt] and [**], are an interface ([Libm]) with the properties IEEE
    guarantees for them, and one executable instance of it. *)

From Stdlib Require Import QArith Qabs Qround ZArith List String Bool Lia Lqa Permutation Sorted.
Import ListNotations.
Local Open Scope Q_scope.

(* ================================================================== *)
(** * Part I. Definitions                                              *)
(* ================================================================== *)

(** ** Doubles with exact finite part *)

Inductive float64 : Type :=
| Fin (q : Q)
| PInf
| NInf
| NaN.

Definition Qlt_bool (x y : Q) : bool := negb (Qle_bool y x).

Definition isnan (a : float64) : bool :=
  match a with NaN => true | _ => false end.

Definition fopp (a : float64) : float64 :=
  match a with
  | Fin x => Fin (- x)
  | PInf => NInf
  | NInf => PInf
  | NaN => NaN
  end.

Definition fadd (a b : float64) : float64 :=
  match a, b with
  | NaN, _ | _, NaN => NaN
  | Fin x, Fin y => Fin (x + y)
  | PInf, NInf | NInf, PInf => NaN
  | PInf, _ | _, PInf => PInf
  | NInf, _ | _, NInf => NInf
  end.

Definition fsub (a b : float64) : float64 := fadd a (fopp b).

(** Sign of a finite value: zero counts as positive zero. *)
Definition signed_inf (positive : bool) : float64 :=
  if positive then PInf else NInf.

Definition fmul (a b : float64) : float64 :=
  match a, b with
  | NaN, _ | _, NaN => NaN
  | Fin x, Fin y => Fin (x * y)
  | Fin x, PInf | PInf, Fin x =>
      if Qeq_bool x 0 then NaN else signed_inf (Qlt_bool 0 x)
  | Fin x, NInf | NInf, Fin x =>
      if Qeq_bool x 0 then NaN else signed_inf (Qlt_bool x 0)
  | PInf, PInf | NInf, NInf => PInf
  | PInf, NInf | NInf, PInf => NInf
  end.

(** numpy division: a finite value over zero is an infinity, 0/0 is NaN,
    nothing raises. *)
Definition fdiv (a b : float64) : float64 :=
  match a, b with
  | NaN, _ | _, NaN => NaN
  | Fin x, Fin y =>
      if Qeq_bool y 0
      then (if Qeq_bool x 0 then NaN else signed_inf (Qlt_bool 0 x))
      else Fin (x / y)
  | Fin _, (PInf | NInf) => Fin 0
  | (PInf | NInf), (PInf | NInf) => NaN
  | PInf, Fin y => signed_inf (Qle_bool 0 y)
  | NInf, Fin y => signed_inf (Qlt_bool y 0)
  end.

(** Comparisons: every comparison with NaN is false, except [!=]. *)
Definition fle (a b : float64) : bool :=
  match a, b with
  | NaN, _ | _, NaN => false
  | Fin x, Fin y => Qle_bool x y
  | NInf, _ | _, PInf => true
  | _, _ => false
  end.

Definition flt (a b : float64) : bool :=
  match a, b with
  | NaN, _ | _, NaN => false
  | Fin x, Fin y => Qlt_bool x y
  | PInf, _ | _, NInf => false
  | _, _ => true
  end.

Definition fgt (a b : float64) : bool := flt b a.
Definition fge (a b : float64) : bool := fle b a.

Definition feqb (a b : float64) : bool :=
  match a, b with
  | Fin x, Fin y => Qeq_bool x y
  | PInf, PInf | NInf, NInf => true
  | _, _ => false
  end.

Definition fneb (a b : float64) : bool := negb (feqb a b).

Definition fabs (a : float64) : float64 :=
  match a with
  | Fin x => Fin (Qabs x)
  | PInf | NInf => PInf
  | NaN => NaN
  end.

(** Equality of doubles up to the representation of the rational. *)
Definition feq (a b : float64) : Prop :=
  match a, b with
  | Fin x, Fin y => x == y
  | PInf, PInf | NInf, NInf | NaN, NaN => True
  | _, _ => False
  end.

Declare Scope float_scope.
Delimit Scope float_scope with fl.
Bind Scope float_scope with float64.
Infix "+" := fadd : float_scope.
Infix "-" := fsub : float_scope.
Infix "*" := fmul : float_scope.
Infix "/" := fdiv : float_scope.
Infix "<?" := flt : float_scope.
Infix "<=?" := fle : float_scope.
Infix ">?" := fgt : float_scope.
Infix "=~" := feq (at level 70, no associativity) : float_scope.

Coercion Fin : Q >-> float64.

(** ** numpy's [sqrt] and [**] as an interface

    [np_sqrt] is the root of a finite non-negative value, [np_power] the
    power of two finite values (NaN for a negative base with a fractional
    exponent, an infinity for a negative power of zero).  The laws are the
    ones IEEE 754 gives whatever the rounding: a root is not negative, the
    root of zero is zero, and [pow(1, y) = 1]. *)

Class Libm : Type := {
  np_sqrt : Q -> Q;
  np_power : Q -> Q -> float64;
  np_sqrt_nonneg : forall x, 0 <= np_sqrt x;
  np_sqrt_zero : forall x, x == 0 -> np_sqrt x == 0;
  np_power_one : forall b e, b == 1 -> feq (np_power b e) (Fin 1)
}.

(** ** Grading: [grade_metric] *)

Local Open Scope string_scope.

(** A grade's entry in [grading_criteria]: one [(low, high)] tuple, or,
    for Beta, a list of them. *)
Inductive band : Type :=
| Tuple (low high : float64)
| Ranges (l : list (float64 * float64)).

Record criteria : Type := {
  ranges : string;
  grade_A : band;
  grade_B : band;
  grade_C : band;
  grade_D : band;
  grade_F : band
}.

Definition fq (n : Z) (d : positive) : float64 := Fin (n # d).

Definition grading_criteria : list (string * criteria) :=
  [ ("Annual Return",
     {| ranges := "A: >12%, B: 8-12%, C: 4-8%, D: 0-4%, F: <0%";
        grade_A := Tuple (fq 12 100) PInf;
        grade_B := Tuple (fq 8 100) (fq 12 100);
        grade_C := Tuple (fq 4 100) (fq 8 100);
        grade_D := Tuple (fq 0 100) (fq 4 100);
        grade_F := Tuple NInf (fq 0 100) |});
    ("Sharpe Ratio",
     {| ranges := "A: >1.0, B: 0.5-1.0, C: 0.2-0.5, D: 0-0.2, F: <0";
        grade_A := Tuple (fq 1 1) PInf;
        grade_B := Tuple (fq 5 10) (fq 1 1);
        grade_C := Tuple (fq 2 10) (fq 5 10);
        grade_D := Tuple (fq 0 1) (fq 2 10);
        grade_F := Tuple NInf (fq 0 1) |});
    ("Sortino Ratio",
     {| ranges := "A: >1.5, B: 0.9-1.5, C: 0.5-0.9, D: 0.2-0.5, F: <0.2";
        grade_A := Tuple (fq 15 10) PInf;
        grade_B := Tuple (fq 9 10) (fq 15 10);
        grade_C := Tuple (fq 5 10) (fq 9 10);
        grade_D := Tuple (fq 2 10) (fq 5 10);
        grade_F := Tuple NInf (fq 2 10) |});
    ("Max Drawdown",
     {| ranges := "A: >-15%, B: -15% to -25%, C: -25% to -35%, D: -35% to -50%, F: <-50%";
        grade_A := Tuple (fq (-15) 100) (fq 0 1);
        grade_B := Tuple (fq (-25) 100) (fq (-15) 100);
        grade_C := Tuple (fq (-35) 100) (fq (-25) 100);
        grade_D := Tuple (fq (-50) 100) (fq (-35) 100);
        grade_F := Tuple NInf (fq (-50) 100) |});
    ("Volatility",
     {| ranges := "A: <12%, B: 12-16%, C: 16-20%, D: 20-25%, F: >25%";
        grade_A := Tuple (fq 0 1) (fq 12 100);
        grade_B := Tuple (fq 12 100) (fq 16 100);
        grade_C := Tuple (fq 16 100) (fq 20 100);
        grade_D := Tuple (fq 20 100) (fq 25 100);
        grade_F := Tuple (fq 25 100) PInf |});
    ("Calmar Ratio",
     {| ranges := "A: >1.0, B: 0.5-1.0, C: 0.25-0.5, D: 0.1-0.25, F: <0.1";
        grade_A := Tuple (fq 1 1) PInf;
        grade_B := Tuple (fq 5 10) (fq 1 1);
        grade_C := Tuple (fq 25 100) (fq 5 10);
        grade_D := Tuple (fq 1 10) (fq 25 100);
        grade_F := Tuple NInf (fq 1 10) |});
    ("Win Rate",
     {| ranges := "A: >60%, B: 55-60%, C: 50-55%, D: 45-50%, F: <45%";
        grade_A := Tuple (fq 60 100) (fq 1 1);
        grade_B := Tuple (fq 55 100) (fq 60 100);
        grade_C := Tuple (fq 50 100) (fq 55 100);
        grade_D := Tuple (fq 45 100) (fq 50 100);
        grade_F := Tuple (fq 0 1) (fq 45 100) |});
    ("Best Month",
     {| ranges := "A: >12%, B: 8-12%, C: 4-8%, D: 1-4%, F: <1%";
        grade_A := Tuple (fq 12 100) PInf;
        grade_B := Tuple (fq 8 100) (fq 12 100);
        grade_C := Tuple (fq 4 100) (fq 8 100);
        grade_D := Tuple (fq 1 100) (fq 4 100);
        grade_F := Tuple NInf (fq 1 100) |});
    ("Worst Month",
     {| ranges := "A: >-8%, B: -8% to -12%, C: -12% to -16%, D: -16% to -20%, F: <-20%";
        grade_A := Tuple (fq (-8) 100) (fq 0 1);
        grade_B := Tuple (fq (-12) 100) (fq (-8) 100);
        grade_C := Tuple (fq (-16) 100) (fq (-12) 100);
        grade_D := Tuple (fq (-20) 100) (fq (-16) 100);
        grade_F := Tuple NInf (fq (-20) 100) |});
    ("Alpha",
     {| ranges := "A: >2%, B: 0.5-2%, C: -0.5% to 0.5%, D: -2% to -0.5%, F: <-2%";
        grade_A := Tuple (fq 2 100) PInf;
        grade_B := Tuple (fq 5 1000) (fq 2 100);
        grade_C := Tuple (fq (-5) 1000) (fq 5 1000);
        grade_D := Tuple (fq (-2) 100) (fq (-5) 1000);
        grade_F := Tuple NInf (fq (-2) 100) |});
    ("Beta",
     {| ranges := "A: 0.85-1.15, B: 0.7-0.85 or 1.15-1.3, C: 0.5-0.7 or 1.3-1.5, D: 0.3-0.5 or 1.5-1.7, F: <0.3 or >1.7";
        grade_A := Ranges [(fq 85 100, fq 115 100)];
        grade_B := Ranges [(fq 7 10, fq 85 100); (fq 115 100, fq 13 10)];
        grade_C := Ranges [(fq 5 10, fq 7 10); (fq 13 10, fq 15 10)];
        grade_D := Ranges [(fq 3 10, fq 5 10); (fq 15 10, fq 17 10)];
        grade_F := Ranges [(fq 0 1, fq 3 10); (fq 17 10, PInf)] |});
    ("Avg Recovery Days",
     {| ranges := "A: <120 days, B: 120-240 days, C: 240-365 days, D: 365-540 days, F: >540 days";
        grade_A := Tuple (fq 0 1) (fq 120 1);
        grade_B := Tuple (fq 120 1) (fq 240 1);
        grade_C := Tuple (fq 240 1) (fq 365 1);
        grade_D := Tuple (fq 365 1) (fq 540 1);
        grade_F := Tuple (fq 540 1) PInf |}) ].

(** Dictionary access by key. *)
Fixpoint dict_get {V : Type} (key : string) (d : list (string * V)) : option V :=
  match d with
  | [] => None
  | (k, v) :: rest => if String.eqb key k then Some v else dict_get key rest
  end.

(** [d.get(key, default)] *)
Definition get_default {V : Type} (d : list (string * V)) (key : string) (default : V) : V :=
  match dict_get key d with
  | Some v => v
  | None => default
  end.

(** [x in l] on strings. *)
Definition str_in (x : string) (l : list string) : bool := existsb (String.eqb x) l.

(** [criteria[grade]] for the five grades, in the order of the loop. *)
Definition grade_letters : list string := ["A"; "B"; "C"; "D"; "F"].

Definition criteria_get (c : criteria) (grade : string) : band :=
  if String.eqb grade "A" then grade_A c
  else if String.eqb grade "B" then grade_B c
  else if String.eqb grade "C" then grade_C c
  else if String.eqb grade "D" then grade_D c
  else grade_F c.

(** [low <= value < high] *)
Definition in_range (value low high : float64) : bool :=
  fle low value && flt value high.

(** The inner loop of the Beta branch: does some range of the grade hold
    the value. *)
Fixpoint any_range (value : float64) (l : list (float64 * float64)) : bool :=
  match l with
  | [] => false
  | (low, high) :: rest => in_range value low high || any_range value rest
  end.

(** The loop [for grade in ['A','B','C','D','F']] of the Beta branch. *)
Fixpoint grade_loop_beta (c : criteria) (value : float64) (grades : list string)
  : option string :=
  match grades with
  | [] => None
  | g :: rest =>
      match criteria_get c g with
      | Ranges l =>
          if any_range value l then Some g else grade_loop_beta c value rest
      | Tuple low high =>
          (* not reached: the Beta entry holds lists *)
          grade_loop_beta c value rest
      end
  end.

(** The loop of the standard branch: [low, high = criteria[grade]]. *)
Fixpoint grade_loop (c : criteria) (value : float64) (grades : list string)
  : option string :=
  match grades with
  | [] => None
  | g :: rest =>
      match criteria_get c g with
      | Tuple low high =>
          if in_range value low high then Some g else grade_loop c value rest
      | Ranges _ =>
          (* not reached: only the Beta entry holds lists *)
          grade_loop c value rest
      end
  end.

Definition grade_metric (metric_name : string) (value : float64) : string * string :=
  match dict_get metric_name grading_criteria with
  | None => ("N/A", "N/A")
  | Some c =>
      let ranges_explanation := ranges c in
      if String.eqb metric_name "Beta" then
        match grade_loop_beta c value grade_letters with
        | Some g => (g, ranges_explanation)
        | None => ("F", ranges_explanation)
        end
      else
        match grade_loop c value grade_letters with
        | Some g => (g, ranges_explanation)
        | None => ("F", ranges_explanation)
        end
  end.

(** ** Percentile ranking of the benchmark comparison *)

(** [sum(1 for s in all_sharpes if portfolio_sharpe > s)] *)
Fixpoint better_than_count (portfolio_sharpe : float64) (all_sharpes : list float64) : Z :=
  match all_sharpes with
  | [] => 0%Z
  | s :: rest =>
      ((if fgt portfolio_sharpe s then 1 else 0) + better_than_count portfolio_sharpe rest)%Z
  end.

(** [all_sharpes] starts with the portfolio's own Sharpe ratio and is
    extended by each benchmark's; the percentile is the count over the
    length of that list, times 100.  The list is never empty. *)
Definition percentile_ranking (portfolio_sharpe : float64) (benchmark_sharpes : list float64) : Q :=
  let all_sharpes := portfolio_sharpe :: benchmark_sharpes in
  (inject_Z (better_than_count portfolio_sharpe all_sharpes)
   / inject_Z (Z.of_nat (List.length all_sharpes))) * 100.

(** [better_count]: the benchmarks whose Sharpe ratio the portfolio's
    exceeds, as the "Benchmarks Beaten" tile counts them. *)
Definition better_count (portfolio_sharpe : float64) (benchmark_sharpes : list float64) : Z :=
  Z.of_nat (List.length (filter (fun s => fgt portfolio_sharpe s) benchmark_sharpes)).

(** The intervals of a grade's entry, whichever its shape. *)
Definition band_intervals (b : band) : list (float64 * float64) :=
  match b with
  | Tuple low high => [(low, high)]
  | Ranges l => l
  end.

(** ** pandas Series of doubles

    A Series is the list of its values in index order.  The reductions
    skip NaN, as pandas does by default; [len] counts every entry. *)

Definition series : Type := list float64.

Definition of_values (l : list Q) : series := map Fin l.

Definition of_nat (n : nat) : float64 := Fin (inject_Z (Z.of_nat n)).

Definition dropna (s : series) : series := filter (fun a => negb (isnan a)) s.

Definition series_count (s : series) : nat := List.length (dropna s).

Definition series_sum (s : series) : float64 := fold_right fadd (Fin 0) (dropna s).

Definition series_prod (s : series) : float64 := fold_right fmul (Fin 1) (dropna s).

(** [mean]: NaN for no observation (0/0). *)
Definition series_mean (s : series) : float64 :=
  fdiv (series_sum s) (of_nat (series_count s)).

Definition fmin2 (a b : float64) : float64 := if flt b a then b else a.
Definition fmax2 (a b : float64) : float64 := if flt a b then b else a.

Definition series_min (s : series) : float64 :=
  match dropna s with
  | [] => NaN
  | x :: rest => fold_left fmin2 rest x
  end.

Definition series_max (s : series) : float64 :=
  match dropna s with
  | [] => NaN
  | x :: rest => fold_left fmax2 rest x
  end.

(** Element-wise binary operation on two aligned Series. *)
Fixpoint map2 {A B C : Type} (f : A -> B -> C) (l1 : list A) (l2 : list B) : list C :=
  match l1, l2 with
  | a :: r1, b :: r2 => f a b :: map2 f r1 r2
  | _, _ => []
  end.

(** [s.shift(1)] and [s.diff()] *)
Definition shift1 (s : series) : series :=
  match s with
  | [] => []
  | _ => NaN :: removelast s
  end.

Definition diff (s : series) : series := map2 fsub s (shift1 s).

(** [s.where(cond, other)]: keep the entries where the condition holds. *)
Definition series_where (cond : float64 -> bool) (other : float64) (s : series) : series :=
  map (fun a => if cond a then a else other) s.

(** [s.cumprod()]: a NaN entry stays NaN and leaves the product as it is. *)
Fixpoint cumprod_from (acc : float64) (s : series) : series :=
  match s with
  | [] => []
  | x :: rest =>
      if isnan x then NaN :: cumprod_from acc rest
      else let acc' := fmul acc x in acc' :: cumprod_from acc' rest
  end.

Definition cumprod (s : series) : series := cumprod_from (Fin 1) s.

(** [s.expanding().max()]: the greatest value seen so far, NaN before the
    first observation. *)
Fixpoint expanding_max_from (cur : float64) (s : series) : series :=
  match s with
  | [] => []
  | x :: rest =>
      let cur' := if isnan x then cur
                  else if isnan cur then x
                  else fmax2 cur x in
      cur' :: expanding_max_from cur' rest
  end.

Definition expanding_max (s : series) : series := expanding_max_from NaN s.

(** [s.tail(n)] and [s.iloc[-k]] (an IndexError is [None]). *)
Definition tail (n : nat) (s : series) : series := skipn (List.length s - n) s.

Definition iloc_neg (k : nat) (s : series) : option float64 :=
  if ((k =? 0)%nat || (List.length s <? k)%nat)%bool then None
  else nth_error s (List.length s - k).

(** The trailing window of [s.rolling(w)] at position [i], and the rolling
    statistic: NaN until the window holds [w] observations
    ([min_periods = w]). *)
Definition window (w i : nat) (s : series) : series :=
  skipn (i + 1 - w) (firstn (i + 1) s).

Definition rolling (stat : series -> float64) (w : nat) (s : series) : series :=
  map (fun i => let win := window w i s in
                if (series_count win <? w)%nat then NaN else stat win)
      (seq 0 (List.length s)).

(** [s.ewm(span, adjust=False).mean()] on a Series without NaN:
    [y0 = x0], [y_t = (1 - alpha) y_(t-1) + alpha x_t], [alpha = 2/(span+1)]. *)
Fixpoint ewm_from (alpha prev : float64) (s : series) : series :=
  match s with
  | [] => []
  | x :: rest =>
      let y := fadd (fmul (fsub (Fin 1) alpha) prev) (fmul alpha x) in
      y :: ewm_from alpha y rest
  end.

Definition ewm_mean (span : nat) (s : series) : series :=
  let alpha := fdiv (Fin 2) (fadd (of_nat span) (Fin 1)) in
  match s with
  | [] => []
  | x :: rest => x :: ewm_from alpha x rest
  end.

(** Sorting, for [median] and [quantile]. *)
Fixpoint insert_by {A : Type} (le : A -> A -> bool) (x : A) (l : list A) : list A :=
  match l with
  | [] => [x]
  | y :: rest => if le x y then x :: l else y :: insert_by le x rest
  end.

Fixpoint sort_by {A : Type} (le : A -> A -> bool) (l : list A) : list A :=
  match l with
  | [] => []
  | x :: rest => insert_by le x (sort_by le rest)
  end.

Definition sort_values (l : list Q) : list Q := sort_by Qle_bool l.

(** Linear interpolation between the two order statistics around the
    (fractional) rank [pos] of a sorted list. *)
Definition interpolate (sorted : list Q) (x0 : Q) (pos : Q) : Q :=
  let lo := Z.to_nat (Qfloor pos) in
  let frac := pos - inject_Z (Qfloor pos) in
  let a := nth lo sorted x0 in
  let b := nth (lo + 1) sorted a in
  a + (b - a) * frac.

(** [s.quantile(q)]: the interpolated order statistic at rank
    [q * (n - 1)]; NaN for no observation. *)
Definition quantile (qq : Q) (l : list Q) : float64 :=
  match sort_values l with
  | [] => NaN
  | (x0 :: _) as sorted =>
      Fin (interpolate sorted x0 (qq * inject_Z (Z.of_nat (List.length sorted - 1))))
  end.

(** ** Returns: [calculate_portfolio_returns]

    A DataFrame is the list of its rows, one row per date and one entry per
    column; the price matrix holds finite closes. *)

Definition frame : Type := list (list float64).

Definition of_rows (rows : list (list Q)) : frame := map (map Fin) rows.

(** [df.pct_change()]: each row over the row before, minus 1; the first
    row has nothing before it and is NaN. *)
Definition pct_change (prices : frame) : frame :=
  match prices with
  | [] => []
  | first :: rest =>
      map (fun _ => NaN) first
      :: map2 (map2 (fun p prev => fsub (fdiv p prev) (Fin 1))) rest prices
  end.

(** [df.dropna()]: the rows without a NaN. *)
Definition dropna_rows (df : frame) : frame :=
  filter (fun row => negb (existsb isnan row)) df.

(** [(returns * weights).sum(axis=1)]: the weights go along the columns,
    one per column ([None] is the ValueError of pandas when their number
    is not the number of columns). *)
Definition calculate_portfolio_returns (prices : list (list Q)) (weights : list Q)
  : option series :=
  let prices := of_rows prices in
  let returns := dropna_rows (pct_change prices) in
  if forallb (fun row => (List.length row =? List.length weights)%nat) prices
  then Some (map (fun row => series_sum (map2 fmul row (of_values weights))) returns)
  else None.

(** The simple daily return of one asset, and the weighted sum over the
    assets, as the specification words them. *)
Definition simple_return (prev cur : Q) : Q := (cur - prev) / prev.

Definition weighted_return (weights prev_row cur_row : list Q) : Q :=
  fold_right Qplus 0 (map2 Qmult weights (map2 simple_return prev_row cur_row)).

(** Two assets over five dates whose daily returns are 1%, -1%, 2%, -2%
    and 0%, 0%, 0%, 0%. *)
Definition scenario_prices : list (list Q) :=
  [ [100; 50];
    [101; 50];
    [9999 # 100; 50];
    [1019898 # 10000; 50];
    [99950004 # 1000000; 50] ].


(** ** Statistics that take a square root or a power *)

Section Model.

Context {L : Libm}.

Definition fsqrt (a : float64) : float64 :=
  match a with
  | Fin x => if Qlt_bool x 0 then NaN else Fin (np_sqrt x)
  | PInf => PInf
  | NInf | NaN => NaN
  end.

(** [base ** exponent] for a finite positive exponent, as the metrics use it. *)
Definition fpow (base : float64) (exponent : Q) : float64 :=
  match base with
  | Fin b => np_power b exponent
  | PInf => PInf
  | NInf | NaN => NaN
  end.

(** Sample variance and standard deviation ([ddof = 1]): NaN unless there
    are two observations. *)
Definition series_var (s : series) : float64 :=
  let v := dropna s in
  let n := List.length v in
  if (n <=? 1)%nat then NaN
  else
    let avg := series_mean s in
    fdiv (fold_right fadd (Fin 0) (map (fun x => fmul (fsub x avg) (fsub x avg)) v))
         (of_nat (n - 1)).

Definition series_std (s : series) : float64 := fsqrt (series_var s).

Definition sqrt_252 : float64 := Fin (np_sqrt 252).

(** ** Technical indicators *)

(** [calculate_rsi] *)
Definition calculate_rsi (prices : series) (period : nat) : series :=
  let delta := diff prices in
  let gain := rolling series_mean period
                (series_where (fun d => fgt d (Fin 0)) (Fin 0) delta) in
  let loss := rolling series_mean period
                (map fopp (series_where (fun d => flt d (Fin 0)) (Fin 0) delta)) in
  let rs := map2 fdiv gain loss in
  map (fun r => fsub (Fin 100) (fdiv (Fin 100) (fadd (Fin 1) r))) rs.

(** [calculate_macd]: the MACD line, its signal line and the histogram. *)
Definition calculate_macd (prices : series) (fast slow signal : nat)
  : series * series * series :=
  let exp1 := ewm_mean fast prices in
  let exp2 := ewm_mean slow prices in
  let macd := map2 fsub exp1 exp2 in
  let signal_line := ewm_mean signal macd in
  let histogram := map2 fsub macd signal_line in
  (macd, signal_line, histogram).

(** [calculate_bollinger_bands]: upper band, middle band, lower band. *)
Definition calculate_bollinger_bands (prices : series) (period : nat) (std_dev : Q)
  : series * series * series :=
  let sma := rolling series_mean period prices in
  let std := rolling series_std period prices in
  let upper_band := map2 fadd sma (map (fun x => fmul x (Fin std_dev)) std) in
  let lower_band := map2 fsub sma (map (fun x => fmul x (Fin std_dev)) std) in
  (upper_band, sma, lower_band).

(** [calculate_sma] *)
Definition calculate_sma (prices : series) (period : nat) : series :=
  rolling series_mean period prices.

(** ** Signal scoring: [generate_trading_signal] *)

Record trading_signal : Type := {
  signal : string;
  action : string;
  score : Z;
  confidence : Z;
  signals : list string;
  rsi : float64;
  macd : float64;
  macd_signal : float64;
  price_vs_sma50 : option float64;
  price_vs_sma200 : option float64
}.

(** One rule of the scorer: what it adds to the score and the label it
    appends, or nothing. *)
Definition rule : Type := option (Z * string).

Definition rsi_rule (current_rsi : float64) : rule :=
  if flt current_rsi (Fin 30) then Some (2%Z, "RSI Oversold (Bullish)")
  else if fgt current_rsi (Fin 70) then Some ((-2)%Z, "RSI Overbought (Bearish)")
  else if flt current_rsi (Fin 40) then Some (1%Z, "RSI Bullish Lean")
  else if fgt current_rsi (Fin 60) then Some ((-1)%Z, "RSI Bearish Lean")
  else None.

Definition macd_rule (current_macd current_macd_signal prev_macd_hist current_macd_hist : float64)
  : rule :=
  if fgt current_macd current_macd_signal
     && (flt prev_macd_hist (Fin 0) && flt (Fin 0) current_macd_hist)
  then Some (2%Z, "MACD Bullish Crossover")
  else if flt current_macd current_macd_signal
          && (fgt prev_macd_hist (Fin 0) && fgt (Fin 0) current_macd_hist)
  then Some ((-2)%Z, "MACD Bearish Crossover")
  else if fgt current_macd current_macd_signal then Some (1%Z, "MACD Bullish")
  else Some ((-1)%Z, "MACD Bearish").

Definition trend_rule (current_price sma_50_last sma_200_last : float64) : rule :=
  if negb (isnan sma_50_last) && negb (isnan sma_200_last) then
    if fgt current_price sma_50_last && fgt sma_50_last sma_200_last
    then Some (2%Z, "Strong Uptrend")
    else if flt current_price sma_50_last && flt sma_50_last sma_200_last
    then Some ((-2)%Z, "Strong Downtrend")
    else if fgt current_price sma_200_last then Some (1%Z, "Above 200 SMA")
    else Some ((-1)%Z, "Below 200 SMA")
  else None.

Definition bollinger_rule (current_price bb_lower_last bb_upper_last : float64) : rule :=
  if flt current_price bb_lower_last then Some (1%Z, "Below Lower BB")
  else if fgt current_price bb_upper_last then Some ((-1)%Z, "Above Upper BB")
  else None.

(** [score += n; signals.append(label)] for a rule that fires. *)
Definition apply_rule (r : rule) (st : Z * list string) : Z * list string :=
  match r with
  | Some (n, label) => ((fst st + n)%Z, (snd st ++ [label])%list)
  | None => st
  end.

(** The final classification of the score. *)
Definition classify_score (score : Z) : string * string :=
  if (score >=? 4)%Z then ("STRONG BUY", "Accumulate")
  else if (score >=? 2)%Z then ("BUY", "Accumulate")
  else if (score <=? -4)%Z then ("STRONG SELL", "Distribute")
  else if (score <=? -2)%Z then ("SELL", "Distribute")
  else ("HOLD", "Hold").

(** [generate_trading_signal]; [None] is the IndexError of [prices.iloc[-1]]
    on an empty series. *)
Definition generate_trading_signal (prices : list Q) : option trading_signal :=
  let prices := of_values prices in
  let rsi := calculate_rsi prices 14 in
  let '(macd, macd_signal, macd_hist) := calculate_macd prices 12 26 9 in
  let '(bb_upper, bb_middle, bb_lower) := calculate_bollinger_bands prices 20 2 in
  let sma_50 := calculate_sma prices 50 in
  let sma_200 := calculate_sma prices 200 in
  match iloc_neg 1 prices, iloc_neg 1 rsi, iloc_neg 1 macd, iloc_neg 1 macd_signal,
        iloc_neg 1 macd_hist, iloc_neg 1 sma_50, iloc_neg 1 sma_200,
        iloc_neg 1 bb_lower, iloc_neg 1 bb_upper with
  | Some current_price, Some current_rsi, Some current_macd, Some current_macd_signal,
    Some current_macd_hist, Some sma_50_last, Some sma_200_last,
    Some bb_lower_last, Some bb_upper_last =>
      let prev_macd_hist :=
        if (1 <? List.length macd_hist)%nat
        then match iloc_neg 2 macd_hist with Some h => h | None => Fin 0 end
        else Fin 0 in
      let st := (0%Z, @nil string) in
      let st := apply_rule (rsi_rule current_rsi) st in
      let st := apply_rule (macd_rule current_macd current_macd_signal
                                      prev_macd_hist current_macd_hist) st in
      let st := apply_rule (trend_rule current_price sma_50_last sma_200_last) st in
      let st := apply_rule (bollinger_rule current_price bb_lower_last bb_upper_last) st in
      let score := fst st in
      let '(signal, action) := classify_score score in
      let confidence := Z.min (Z.abs score * 15) 100 in
      let vs (sma_last : float64) :=
        if negb (isnan sma_last)
        then Some (fmul (fsub (fdiv current_price sma_last) (Fin 1)) (Fin 100))
        else None in
      Some {| signal := signal;
              action := action;
              score := score;
              confidence := confidence;
              signals := snd st;
              rsi := current_rsi;
              macd := current_macd;
              macd_signal := current_macd_signal;
              price_vs_sma50 := vs sma_50_last;
              price_vs_sma200 := vs sma_200_last |}
  | _, _, _, _, _, _, _, _, _ => None
  end.


(** ** Current regime: [detect_market_regime_enhanced] *)

Inductive enhanced_regime : Type :=
| HighVolatilityCrisis   (* "High Volatility / Crisis" *)
| BearMarket             (* "Bear Market" *)
| BullMarket             (* "Bull Market" *)
| Recovery               (* "Recovery" *)
| NeutralConsolidation.  (* "Neutral / Consolidation" *)

Inductive trend_label : Type :=
| Bullish | Bearish | NeutralTrend | InsufficientData.

(** The entries of [signals]; the numbers are the values the source
    formats into the text. *)
Inductive regime_signal : Type :=
| VolatilityExtremelyHigh (volatility_pct : float64)
| NegativeMomentum (momentum_pct : float64)
| DeathCross
| StrongPositiveMomentum (momentum_pct : float64)
| GoldenCross
| RecoveryInProgress (momentum_pct : float64)
| LackingDirection.

Record allocation : Type := {
  stocks : Z;
  bonds : Z;
  cash : Z
}.

Record regime_metrics : Type := {
  volatility : float64;
  momentum_60d : float64;
  recent_return_20d : float64;
  recent_return_60d : float64;
  trend : trend_label;
  price_vs_sma200_pct : option float64
}.

Record regime_report : Type := {
  regime : enhanced_regime;
  regime_confidence : string;
  regime_action : string;
  regime_allocation : allocation;
  color : string;
  regime_signals : list regime_signal;
  metrics : regime_metrics
}.

(** [(prices.iloc[-1] / prices.iloc[-k] - 1) * 100 if len(prices) >= k else 0] *)
Definition recent_return (k : nat) (prices : series) : float64 :=
  if (k <=? List.length prices)%nat then
    match iloc_neg 1 prices, iloc_neg k prices with
    | Some last, Some before =>
        fmul (fsub (fdiv last before) (Fin 1)) (Fin 100)
    | _, _ => Fin 0
    end
  else Fin 0.

Definition detect_market_regime_enhanced (returns prices : list Q) : regime_report :=
  let returns := of_values returns in
  let prices := of_values prices in
  let vol_window := Nat.min 60 (List.length returns) in
  let volatility := fmul (series_std (tail vol_window returns)) sqrt_252 in
  let recent_return_20d := recent_return 20 prices in
  let recent_return_60d := recent_return 60 prices in
  let momentum_60d := fdiv recent_return_60d (Fin 100) in
  let sma_50 := rolling series_mean 50 prices in
  let sma_200 := rolling series_mean 200 prices in
  let price_vs_sma200 :=
    match iloc_neg 1 sma_200, iloc_neg 1 prices with
    | Some s200, Some last =>
        if negb (isnan s200)
        then Some (fmul (fsub (fdiv last s200) (Fin 1)) (Fin 100))
        else None
    | _, _ => None
    end in
  let trend :=
    if ((50 <=? List.length sma_50)%nat && (200 <=? List.length sma_200)%nat)%bool then
      match iloc_neg 1 sma_50, iloc_neg 1 sma_200 with
      | Some s50, Some s200 =>
          if fgt s50 s200 then Bullish
          else if flt s50 s200 then Bearish
          else NeutralTrend
      | _, _ => InsufficientData
      end
    else InsufficientData in
  let mk regime confidence action allocation color signals :=
    {| regime := regime;
       regime_confidence := confidence;
       regime_action := action;
       regime_allocation := allocation;
       color := color;
       regime_signals := signals;
       metrics := {| volatility := volatility;
                     momentum_60d := momentum_60d;
                     recent_return_20d := recent_return_20d;
                     recent_return_60d := recent_return_60d;
                     trend := trend;
                     price_vs_sma200_pct := price_vs_sma200 |} |} in
  let pct (x : float64) := fmul x (Fin 100) in
  if fgt volatility (fq 35 100) then
    mk HighVolatilityCrisis "High"
       "Reduce equity exposure to 40-50%. Increase cash and defensive positions. Avoid new positions until volatility subsides."
       {| stocks := 45; bonds := 45; cash := 10 |} "error"
       [VolatilityExtremelyHigh (pct volatility)]
  else if (flt momentum_60d (fq (-10) 100) && fgt volatility (fq 25 100))%bool then
    mk BearMarket
       (if fgt (fabs momentum_60d) (fq 15 100) then "High" else "Medium")
       "Reduce equity to 50-60%. Focus on quality, dividend-paying stocks. Consider defensive sectors."
       {| stocks := 55; bonds := 40; cash := 5 |} "error"
       (NegativeMomentum (pct momentum_60d)
        :: match trend with Bearish => [DeathCross] | _ => [] end)
  else if (fgt momentum_60d (fq 15 100) && flt volatility (fq 20 100))%bool then
    mk BullMarket "High"
       "Maintain 70-80% equity allocation. This is accumulation phase. Focus on growth and momentum."
       {| stocks := 75; bonds := 22; cash := 3 |} "success"
       (StrongPositiveMomentum (pct momentum_60d)
        :: match trend with Bullish => [GoldenCross] | _ => [] end)
  else if (fgt momentum_60d (Fin 0) && fgt recent_return_20d (Fin 0))%bool then
    mk Recovery "Medium"
       "Gradually increase equity to 60-70%. Good time to add positions. Monitor for continued strength."
       {| stocks := 65; bonds := 30; cash := 5 |} "warning"
       [RecoveryInProgress (pct momentum_60d)]
  else
    mk NeutralConsolidation "Medium"
       "Maintain balanced 60/40 portfolio. Wait for clearer directional signals before making changes."
       {| stocks := 60; bonds := 35; cash := 5 |} "info"
       [LackingDirection].


(** The classification as the specification words it: the first rule that
    matches, over volatility, 60-day momentum and 20-day return. *)
Definition regime_by_priority (volatility momentum_60d recent_return_20d : float64)
  : enhanced_regime :=
  if fgt volatility (fq 35 100) then HighVolatilityCrisis
  else if (flt momentum_60d (fq (-10) 100) && fgt volatility (fq 25 100))%bool then BearMarket
  else if (fgt momentum_60d (fq 15 100) && flt volatility (fq 20 100))%bool then BullMarket
  else if (fgt momentum_60d (Fin 0) && fgt recent_return_20d (Fin 0))%bool then Recovery
  else NeutralConsolidation.

(** The target allocation of each regime: stocks, bonds, cash. *)
Definition target_allocation (r : enhanced_regime) : allocation :=
  match r with
  | HighVolatilityCrisis => {| stocks := 45; bonds := 45; cash := 10 |}
  | BearMarket => {| stocks := 55; bonds := 40; cash := 5 |}
  | BullMarket => {| stocks := 75; bonds := 22; cash := 3 |}
  | Recovery => {| stocks := 65; bonds := 30; cash := 5 |}
  | NeutralConsolidation => {| stocks := 60; bonds := 35; cash := 5 |}
  end.


(** ** Historical regimes: [detect_market_regimes] *)

(** [s.median()]: the middle order statistic of the observations, the mean
    of the two middle ones for an even count, NaN for none. *)
Definition series_median (s : series) : float64 :=
  let sorted := sort_by fle (dropna s) in
  let n := List.length sorted in
  if (n =? 0)%nat then NaN
  else if Nat.odd n then nth (n / 2) sorted NaN
  else fdiv (fadd (nth (n / 2 - 1) sorted NaN) (nth (n / 2) sorted NaN)) (Fin 2).

(** [regimes[mask] = label] *)
Definition assign_where {A : Type} (mask : list bool) (label : A) (target : list A) : list A :=
  map2 (fun (m : bool) r => if m then label else r) mask target.

Definition detect_market_regimes (returns : list Q) (lookback : nat) : list string :=
  let returns := of_values returns in
  let rolling_returns :=
    map (fun x => fmul x (Fin 252)) (rolling series_mean lookback returns) in
  let rolling_vol :=
    map (fun x => fmul x sqrt_252) (rolling series_std lookback returns) in
  let vol_median := series_median rolling_vol in
  let return_positive := map (fun x => fgt x (fq 2 100)) rolling_returns in
  let return_negative := map (fun x => flt x (fq (-2) 100)) rolling_returns in
  let vol_high := map (fun x => fgt x vol_median) rolling_vol in
  let regimes := map (fun _ => "Sideways/Choppy") returns in
  let regimes :=
    assign_where (map2 andb return_positive (map negb vol_high))
                 "Bull Market (Low Vol)" regimes in
  let regimes :=
    assign_where (map2 andb return_positive vol_high)
                 "Bull Market (High Vol)" regimes in
  let regimes :=
    assign_where (map2 andb return_negative (map negb vol_high))
                 "Bear Market (Low Vol)" regimes in
  let regimes :=
    assign_where (map2 andb return_negative vol_high)
                 "Bear Market (High Vol)" regimes in
  regimes.

(** The five labels, and the label of one date as the specification words
    it: Bull above +2%, Bear below -2%, split by the volatility against the
    median; otherwise Sideways/Choppy. *)
Definition regime_labels : list string :=
  ["Bull Market (Low Vol)"; "Bull Market (High Vol)";
   "Bear Market (Low Vol)"; "Bear Market (High Vol)"; "Sideways/Choppy"].

Definition regime_label (vol_median rolling_return rolling_vol : float64) : string :=
  if fgt rolling_return (fq 2 100) then
    if fgt rolling_vol vol_median then "Bull Market (High Vol)"
    else "Bull Market (Low Vol)"
  else if flt rolling_return (fq (-2) 100) then
    if fgt rolling_vol vol_median then "Bear Market (High Vol)"
    else "Bear Market (Low Vol)"
  else "Sideways/Choppy".

(** The rolling statistics of one date. *)
Definition rolling_return_at (returns : list Q) (lookback i : nat) : float64 :=
  nth i (map (fun x => fmul x (Fin 252))
             (rolling series_mean lookback (of_values returns))) NaN.

Definition rolling_vol_at (returns : list Q) (lookback i : nat) : float64 :=
  nth i (map (fun x => fmul x sqrt_252)
             (rolling series_std lookback (of_values returns))) NaN.

Definition vol_median_of (returns : list Q) (lookback : nat) : float64 :=
  series_median (map (fun x => fmul x sqrt_252)
                     (rolling series_std lookback (of_values returns))).


(** ** Performance metrics: [calculate_portfolio_metrics] *)

(** The eight entries of the metrics dictionary.  (With a benchmark the
    source adds Alpha and Beta and leaves these eight as they are.) *)
Record portfolio_metrics : Type := {
  total_return : float64;
  annual_return : float64;
  annual_volatility : float64;
  sharpe_ratio : float64;
  sortino_ratio : float64;
  max_drawdown : float64;
  calmar_ratio : float64;
  win_rate : float64
}.

(** [(cum_returns - running_max) / running_max] over [cumprod(1 + returns)] *)
Definition drawdown_series (returns : series) : series :=
  let cum_returns := cumprod (map (fun r => fadd (Fin 1) r) returns) in
  let running_max := expanding_max cum_returns in
  map2 fdiv (map2 fsub cum_returns running_max) running_max.

(** [(cond).sum()] as a double *)
Definition count_where (cond : float64 -> bool) (s : series) : float64 :=
  of_nat (List.length (filter cond s)).

(** [None] is the ZeroDivisionError of [252 / len(returns)] on an empty
    series. *)
Definition calculate_portfolio_metrics (returns : list Q) (risk_free_rate : Q)
  : option portfolio_metrics :=
  let returns := of_values returns in
  let total_return := fsub (series_prod (map (fun r => fadd (Fin 1) r) returns)) (Fin 1) in
  if (List.length returns =? 0)%nat then None
  else
    let exponent := 252 / inject_Z (Z.of_nat (List.length returns)) in
    let ann_return := fsub (fpow (fadd (Fin 1) total_return) exponent) (Fin 1) in
    let ann_vol := fmul (series_std returns) sqrt_252 in
    let sharpe :=
      if fneb ann_vol (Fin 0)
      then fdiv (fsub ann_return (Fin risk_free_rate)) ann_vol
      else Fin 0 in
    let downside_returns := filter (fun r => flt r (Fin 0)) returns in
    let downside_std := fmul (series_std downside_returns) sqrt_252 in
    let sortino :=
      if fneb downside_std (Fin 0)
      then fdiv (fsub ann_return (Fin risk_free_rate)) downside_std
      else Fin 0 in
    let max_drawdown := series_min (drawdown_series returns) in
    let calmar :=
      if fneb max_drawdown (Fin 0)
      then fdiv ann_return (fabs max_drawdown)
      else Fin 0 in
    let win_rate :=
      fdiv (count_where (fun r => fgt r (Fin 0)) returns) (of_nat (List.length returns)) in
    Some {| total_return := total_return;
            annual_return := ann_return;
            annual_volatility := ann_vol;
            sharpe_ratio := sharpe;
            sortino_ratio := sortino;
            max_drawdown := max_drawdown;
            calmar_ratio := calmar;
            win_rate := win_rate |}.


(** ** Forward risk: [calculate_forward_risk_metrics] *)

Record forward_risk_metrics : Type := {
  expected_annual_return : float64;
  expected_volatility : float64;
  var_95 : float64;
  var_99 : float64;
  cvar_95 : float64;
  cvar_99 : float64;
  probability_of_daily_loss : float64;
  estimated_max_drawdown : float64
}.

(** [confidence_level] is a parameter of the source function that its body
    does not read: the two levels are the literals 0.95 and 0.99. *)
Definition calculate_forward_risk_metrics (returns : list Q) (confidence_level : Q)
  : forward_risk_metrics :=
  let values := returns in
  let returns := of_values returns in
  let expected_return := fmul (series_mean returns) (Fin 252) in
  let expected_vol := fmul (series_std returns) sqrt_252 in
  let var_95 := quantile (1 - (95 # 100)) values in
  let var_99 := quantile (1 - (99 # 100)) values in
  let cvar_95 := series_mean (filter (fun r => fle r var_95) returns) in
  let cvar_99 := series_mean (filter (fun r => fle r var_99) returns) in
  let prob_loss :=
    fdiv (count_where (fun r => flt r (Fin 0)) returns) (of_nat (List.length returns)) in
  let estimated_max_dd := series_min (drawdown_series returns) in
  {| expected_annual_return := expected_return;
     expected_volatility := expected_vol;
     var_95 := var_95;
     var_99 := var_99;
     cvar_95 := cvar_95;
     cvar_99 := cvar_99;
     probability_of_daily_loss := prob_loss;
     estimated_max_drawdown := estimated_max_dd |}.


(** ** Optimization: [optimize_portfolio]

    The solver is scipy's [minimize]; the embedding takes it as a
    parameter, a function of the objective, the starting point, the bounds
    and the equality constraint to a result with its [x] and [success]. *)

Record OptimizeResult : Type := {
  result_x : list float64;
  result_success : bool
}.

Definition solver : Type :=
  (list float64 -> float64)        (* fun *)
  -> list float64                  (* x0 *)
  -> list (float64 * float64)      (* bounds *)
  -> (list float64 -> float64)     (* constraint, type eq *)
  -> OptimizeResult.

(** [np.sum] and [np.dot] on arrays: NaN is not skipped. *)
Definition np_sum (a : list float64) : float64 := fold_right fadd (Fin 0) a.

Definition np_dot (a b : list float64) : float64 := np_sum (map2 fmul a b).

Definition np_matvec (m : list (list float64)) (v : list float64) : list float64 :=
  map (fun row => np_dot row v) m.

(** Column [j] of a DataFrame. *)
Definition column (j : nat) (df : frame) : series := map (fun row => nth j row NaN) df.

(** [len(prices.columns)], read off the first row of the price matrix. *)
Definition num_columns {A : Type} (rows : list (list A)) : nat :=
  match rows with
  | [] => 0%nat
  | row :: _ => List.length row
  end.

(** Sample covariance of two columns without NaN ([ddof = 1]). *)
Definition series_cov (a b : series) : float64 :=
  let n := List.length a in
  if (n <=? 1)%nat then NaN
  else
    let ma := series_mean a in
    let mb := series_mean b in
    fdiv (np_sum (map2 (fun x y => fmul (fsub x ma) (fsub y mb)) a b)) (of_nat (n - 1)).

Definition mean_returns_of (returns : frame) (n : nat) : list float64 :=
  map (fun j => fmul (series_mean (column j returns)) (Fin 252)) (seq 0 n).

Definition cov_matrix_of (returns : frame) (n : nat) : list (list float64) :=
  map (fun i => map (fun j => fmul (series_cov (column i returns) (column j returns)) (Fin 252))
                    (seq 0 n))
      (seq 0 n).

(** [portfolio_stats]: return, standard deviation, Sharpe ratio. *)
Definition portfolio_stats (mean_returns : list float64) (cov_matrix : list (list float64))
           (weights : list float64) : float64 * float64 * float64 :=
  let portfolio_return := series_sum (map2 fmul mean_returns weights) in
  let portfolio_std := fsqrt (np_dot weights (np_matvec cov_matrix weights)) in
  let sharpe_ratio := fdiv portfolio_return portfolio_std in
  (portfolio_return, portfolio_std, sharpe_ratio).

Definition neg_sharpe (mean_returns : list float64) (cov_matrix : list (list float64))
           (weights : list float64) : float64 :=
  fopp (snd (portfolio_stats mean_returns cov_matrix weights)).

(** [lambda x: np.sum(x) - 1] *)
Definition sum_to_one (x : list float64) : float64 := fsub (np_sum x) (Fin 1).

(** [num_assets * [1. / num_assets]] *)
Definition equal_weights (num_assets : nat) : list float64 :=
  repeat (fdiv (Fin 1) (of_nat num_assets)) num_assets.

(** The call of the solver from the equal weights. *)
Definition solve_max_sharpe (minimize : solver) (prices : list (list Q)) : OptimizeResult :=
  let returns := dropna_rows (pct_change (of_rows prices)) in
  let num_assets := num_columns prices in
  minimize (neg_sharpe (mean_returns_of returns num_assets)
                       (cov_matrix_of returns num_assets))
           (equal_weights num_assets)
           (repeat (Fin 0, Fin 1) num_assets)
           sum_to_one.

(** [optimize_portfolio].  [None] is an exception: the ZeroDivisionError of
    [1. / num_assets] without a column, or the unbound [result] when the
    method is not 'max_sharpe'. *)
Definition optimize_portfolio (minimize : solver) (prices : list (list Q)) (method : string)
  : option (list float64) :=
  let num_assets := num_columns prices in
  if (num_assets =? 0)%nat then None
  else
    let initial_guess := equal_weights num_assets in
    if String.eqb method "max_sharpe" then
      let result := solve_max_sharpe minimize prices in
      Some (if result_success result then result_x result else initial_guess)
    else None.

(** What the solver promises when it reports success: every component
    within its bounds, and the equality constraint within the tolerance. *)
Definition within_bounds (x : list float64) (bounds : list (float64 * float64)) : Prop :=
  Forall2 (fun xi b => fle (fst b) xi = true /\ fle xi (snd b) = true) x bounds.

Definition within_tolerance (tol : Q) (residual : float64) : Prop :=
  exists e, residual = Fin e /\ Qabs e <= tol.

Definition solver_contract (minimize : solver) (tol : Q) : Prop :=
  forall f x0 bounds g,
    let r := minimize f x0 bounds g in
    result_success r = true ->
    within_bounds (result_x r) bounds /\ within_tolerance tol (g (result_x r)).

(** A solver of zero iterations: it reports success exactly when the
    starting point is feasible. *)
Definition feasible_b (tol : Q) (x : list float64) (bounds : list (float64 * float64))
           (g : list float64 -> float64) : bool :=
  ((List.length x =? List.length bounds)%nat
   && forallb (fun xb => fle (fst (snd xb)) (fst xb) && fle (fst xb) (snd (snd xb)))
              (combine x bounds)
   && match g x with
      | Fin e => Qle_bool (Qabs e) tol
      | _ => false
      end)%bool.

Definition start_only_solver (tol : Q) : solver :=
  fun f x0 bounds g =>
    {| result_x := x0; result_success := feasible_b tol x0 bounds g |}.


(** ** Performance by regime: [analyze_regime_performance]

    The two Series share their index (the regimes are computed from the
    returns), so the frame is the list of their pairs. *)

Record regime_stats : Type := {
  Regime : string;
  Occurrences : nat;
  avg_daily_return : float64;
  regime_volatility : float64;
  best_day : float64;
  worst_day : float64;
  regime_win_rate : float64
}.

(** [s.unique()]: the values in the order of their first appearance. *)
Fixpoint unique_from (seen : list string) (l : list string) : list string :=
  match l with
  | [] => []
  | x :: rest =>
      if str_in x seen then unique_from seen rest
      else x :: unique_from (x :: seen) rest
  end.

Definition unique (l : list string) : list string := unique_from [] l.

(** [df[df['regime'] == regime]['returns']] *)
Definition regime_returns_of (df : list (float64 * string)) (regime : string) : series :=
  map fst (filter (fun row => String.eqb (snd row) regime) df).

Definition analyze_regime_performance (returns : series) (regimes : list string)
  : list regime_stats :=
  let df := combine returns regimes in
  flat_map
    (fun regime =>
       let regime_returns := regime_returns_of df regime in
       if (0 <? List.length regime_returns)%nat then
         [ {| Regime := regime;
              Occurrences := List.length regime_returns;
              avg_daily_return := series_mean regime_returns;
              regime_volatility := fmul (series_std regime_returns) sqrt_252;
              best_day := series_max regime_returns;
              worst_day := series_min regime_returns;
              regime_win_rate :=
                fdiv (count_where (fun r => fgt r (Fin 0)) regime_returns)
                     (of_nat (List.length regime_returns)) |} ]
       else [])
    (unique (map snd df)).

(** ** Random portfolios: [calculate_efficient_frontier]

    [random i] is the array that the [i]-th call of
    [np.random.random(num_assets)] returns.  The three rows of [results]
    are the returns, the standard deviations and the Sharpe ratios. *)

(** [weights /= np.sum(weights)] *)
Definition normalize (weights : list float64) : list float64 :=
  map (fun w => fdiv w (np_sum weights)) weights.

Definition calculate_efficient_frontier (random : nat -> list float64)
           (prices : list (list Q)) (num_portfolios : nat)
  : (list float64 * list float64 * list float64) * list (list float64) :=
  let returns := dropna_rows (pct_change (of_rows prices)) in
  let num_assets := num_columns prices in
  let mean_returns := mean_returns_of returns num_assets in
  let cov_matrix := cov_matrix_of returns num_assets in
  let weights_array := map (fun i => normalize (random i)) (seq 0 num_portfolios) in
  let portfolio_return weights := series_sum (map2 fmul mean_returns weights) in
  let portfolio_std weights := fsqrt (np_dot weights (np_matvec cov_matrix weights)) in
  ((map portfolio_return weights_array,
    map portfolio_std weights_array,
    map (fun weights => fdiv (portfolio_return weights) (portfolio_std weights))
        weights_array),
   weights_array).


End Model.

(** ** An executable [Libm]

    Roots by integer square root and bisection at a fixed decimal scale,
    powers with a rational exponent [p/k] as the [p]-th power of the [k]-th
    root.  [pow(1, y) = 1] and [pow(x, 0) = 1] are the IEEE special cases. *)

Definition sqrt_scale : Z := 1000000000.

Definition approx_sqrt (x : Q) : Q :=
  Z.sqrt (Qnum x * Zpos (Qden x) * sqrt_scale * sqrt_scale)
  # (Qden x * Z.to_pos sqrt_scale).

Fixpoint bisect_root (fuel : nat) (k : positive) (n lo hi : Z) : Z :=
  match fuel with
  | O => lo
  | S fuel' =>
      let mid := ((lo + hi) / 2)%Z in
      if (mid =? lo)%Z then lo
      else if (mid ^ Zpos k <=? n)%Z then bisect_root fuel' k n mid hi
      else bisect_root fuel' k n lo mid
  end.

(** The integer part of the [k]-th root of [n]. *)
Definition Zroot (k : positive) (n : Z) : Z :=
  if (n <=? 0)%Z then 0%Z
  else
    let bits := (Z.log2_up n / Zpos k + 1)%Z in
    bisect_root (S (Z.to_nat bits)) k n 0 (2 ^ bits).

Definition root_scale : Z := 1000000.

Definition approx_root (k : positive) (x : Q) : Q :=
  Zroot k (Qnum x * root_scale ^ Zpos k / Zpos (Qden x)) # Z.to_pos root_scale.

Definition approx_power (b e : Q) : float64 :=
  if Qeq_bool b 1 then Fin 1
  else if Qeq_bool e 0 then Fin 1
  else
    let e' := Qred e in
    if Qlt_bool b 0 then
      (if Pos.eqb (Qden e') 1 then Fin (Qpower b (Qnum e')) else NaN)
    else if Qeq_bool b 0 then
      (if Qlt_bool 0 e then Fin 0 else PInf)
    else Fin (Qpower (approx_root (Qden e') b) (Qnum e')).


(** The rank of the lower order statistic of the 5% quantile of [n]
    observations: the integer part of [0.05 * (n - 1)]. *)
Definition lower_rank (n : nat) : nat :=
  Z.to_nat (Qfloor ((1 - (95 # 100)) * inject_Z (Z.of_nat (n - 1)))).


(** ** Economic regime: [interpret_economic_regime]

    [econ_data] is [None] or a dictionary of indicators; a missing
    indicator reads as 0 ([econ_data.get(key, 0)]). *)

Definition interpret_economic_regime (econ_data : option (list (string * float64)))
  : string * string :=
  match econ_data with
  | None => ("Unknown", "Economic data unavailable")
  | Some econ_data =>
      let gdp := get_default econ_data "gdp_growth" (Fin 0) in
      let inflation := get_default econ_data "inflation_cpi" (Fin 0) in
      let unemployment := get_default econ_data "unemployment" (Fin 0) in
      if fgt gdp (fq 20 10) && flt inflation (fq 35 10) && flt unemployment (fq 45 10) then
        ("Goldilocks", "Strong growth + Low inflation + Low unemployment = Best for stocks")
      else if flt gdp (fq 15 10) && fgt inflation (fq 40 10) then
        ("Stagflation", "Weak growth + High inflation = Bad for stocks and bonds")
      else if flt gdp (fq 5 10) || fgt unemployment (fq 55 10) then
        ("Recession", "Weak/negative growth = Defensive positioning needed")
      else if fgt gdp (fq 30 10) && fgt inflation (fq 35 10) then
        ("Overheating", "Strong growth + High inflation = Fed likely to raise rates")
      else
        ("Moderate Growth", "Balanced economic conditions = Stable environment")
  end.

(** ** Cheaper funds: [get_cheaper_etf_alternatives] and
       [calculate_expense_ratio_savings] *)




Record expense_savings : Type := {
  annual_savings : float64;
  savings_20y : float64;
  percent_cheaper : float64
}.

(** [(1 + annual_return) ** (years - i)] on the literals 0.08 and 20. *)
Definition growth_factor (i : nat) : float64 :=
  Fin (Qpower (1 + (8 # 100)) (20 - Z.of_nat i)).

(** [sum(...)] adds the terms from the left, starting from 0. *)
Definition calculate_expense_ratio_savings (current_ratio new_ratio portfolio_value : float64)
  : expense_savings :=
  let current_cost := fmul portfolio_value current_ratio in
  let new_cost := fmul portfolio_value new_ratio in
  let annual_savings := fsub current_cost new_cost in
  let fv_savings :=
    fold_left (fun acc i => fadd acc (fmul annual_savings (growth_factor i)))
              (seq 0 20) (Fin 0) in
  {| annual_savings := annual_savings;
     savings_20y := fv_savings;
     percent_cheaper :=
       if fgt current_ratio (Fin 0)
       then fmul (fdiv (fsub current_ratio new_ratio) current_ratio) (Fin 100)
       else Fin 0 |}.

(** ** Benchmark selection: [get_smart_benchmarks] *)

(** [if any(ticker in etfs for ticker in tickers): if symbol not in benchmarks: append] *)
Definition add_benchmark (etfs tickers : list string) (symbol reason : string)
           (st : list string * list string) : list string * list string :=
  if existsb (fun ticker => str_in ticker etfs) tickers then
    if negb (str_in symbol (fst st))
    then ((fst st ++ [symbol])%list, (snd st ++ [reason])%list)
    else st
  else st.

Definition tech_etfs : list string := ["QQQ"; "XLK"; "VGT"; "SOXX"].
Definition small_cap_etfs : list string := ["IWM"; "VB"; "IJR"].
Definition intl_etfs : list string := ["VT"; "VXUS"; "EFA"; "VEA"; "IEFA"].
Definition bond_etfs : list string := ["AGG"; "BND"; "TLT"; "IEF"; "SHY"].

(** The body does not read [weights]. *)
Definition get_smart_benchmarks (tickers : list string) (weights : list float64)
  : list (string * string) :=
  let st := (["SPY"], ["Core US large cap benchmark"]) in
  let st := add_benchmark tech_etfs tickers "QQQ" "Tech exposure warrants Nasdaq comparison" st in
  let st := add_benchmark small_cap_etfs tickers "IWM" "Small cap exposure present" st in
  let st := add_benchmark intl_etfs tickers "VT" "International holdings present" st in
  let st := add_benchmark bond_etfs tickers "AGG" "Fixed income component" st in
  combine (fst st) (snd st).


(** ** Metric cards: [METRIC_EXPLANATIONS] and [get_metric_color_class]

    Of each entry of [METRIC_EXPLANATIONS] the embedding keeps the
    ['thresholds'] dictionary, the part [get_metric_color_class] reads (the
    texts under ['simple'] and ['detailed'] are only displayed). *)

Record metric_explanation : Type := {
  thresholds : option (list (string * (float64 * string)))
}.

Definition METRIC_EXPLANATIONS : list (string * metric_explanation) :=
  [ ("annual_return",
     {| thresholds := Some
          [ ("excellent", (fq 15 1, "Above 15% - Outstanding performance"));
            ("good", (fq 10 1, "10-15% - Very good performance"));
            ("fair", (fq 5 1, "5-10% - Moderate performance"));
            ("poor", (fq 0 1, "Below 5% - Consider alternatives")) ] |});
    ("sharpe_ratio",
     {| thresholds := Some
          [ ("excellent", (fq 20 10, "Above 2.0 - Outstanding risk-adjusted returns"));
            ("good", (fq 10 10, "1.0-2.0 - Good risk-adjusted returns"));
            ("fair", (fq 5 10, "0.5-1.0 - Acceptable but could be better"));
            ("poor", (fq 0 1, "Below 0.5 - Poor risk-adjusted returns")) ] |});
    ("max_drawdown",
     {| thresholds := Some
          [ ("excellent", (fq (-10) 1, "Above -10% - Very low drawdown"));
            ("good", (fq (-20) 1, "-10% to -20% - Moderate drawdown"));
            ("fair", (fq (-30) 1, "-20% to -30% - Significant drawdown"));
            ("poor", (fq (-40) 1, "Below -30% - Severe drawdown")) ] |});
    ("volatility",
     {| thresholds := Some
          [ ("excellent", (fq 10 1, "Below 10% - Very low volatility"));
            ("good", (fq 15 1, "10-15% - Moderate volatility"));
            ("fair", (fq 20 1, "15-20% - Elevated volatility"));
            ("poor", (fq 25 1, "Above 20% - High volatility")) ] |});
    ("sortino_ratio",
     {| thresholds := Some
          [ ("excellent", (fq 20 10, "Above 2.0 - Excellent downside protection"));
            ("good", (fq 10 10, "1.0-2.0 - Good downside protection"));
            ("fair", (fq 5 10, "0.5-1.0 - Moderate downside risk"));
            ("poor", (fq 0 1, "Below 0.5 - High downside risk")) ] |});
    ("calmar_ratio",
     {| thresholds := Some
          [ ("excellent", (fq 15 10, "Above 1.5 - Outstanding return vs drawdown"));
            ("good", (fq 75 100, "0.75-1.5 - Good return vs drawdown"));
            ("fair", (fq 5 10, "0.5-0.75 - Acceptable"));
            ("poor", (fq 0 1, "Below 0.5 - High risk for the return")) ] |});
    ("alpha",
     {| thresholds := Some
          [ ("excellent", (fq 3 1, "Above 3% - Outstanding value added"));
            ("good", (fq 1 1, "1-3% - Good value added"));
            ("fair", (fq (-1) 1, "-1% to 1% - Matching benchmark"));
            ("poor", (fq (-3) 1, "Below -1% - Underperforming")) ] |});
    ("beta",
     {| thresholds := Some
          [ ("excellent", (fq 8 10, "0.8-1.2 - Well-balanced market exposure"));
            ("good", (fq 6 10, "0.6-0.8 or 1.2-1.4 - Moderate deviation"));
            ("fair", (fq 5 10, "0.5-0.6 or 1.4-1.6 - Significant deviation"));
            ("poor", (fq 0 1, "Below 0.5 or above 1.6 - Extreme deviation")) ] |});
    ("win_rate",
     {| thresholds := Some
          [ ("excellent", (fq 65 1, "Above 65% - Highly consistent"));
            ("good", (fq 55 1, "55-65% - Good consistency"));
            ("fair", (fq 50 1, "50-55% - Acceptable"));
            ("poor", (fq 45 1, "Below 50% - More losing than winning periods")) ] |}) ].

(** [thresholds.get(level, (default, ''))[0]] *)
Definition threshold (thresholds : list (string * (float64 * string))) (level : string)
           (default : float64) : float64 :=
  fst (get_default thresholds level (default, "")).

Definition get_metric_color_class (metric_key : string) (value : float64) : string :=
  match dict_get metric_key METRIC_EXPLANATIONS with
  | None => "metric-card"
  | Some info =>
      let thresholds := match thresholds info with Some t => t | None => [] end in
      if str_in metric_key ["annual_return"; "sharpe_ratio"; "sortino_ratio";
                            "calmar_ratio"; "alpha"; "win_rate"] then
        if fge value (threshold thresholds "excellent" PInf) then "metric-excellent"
        else if fge value (threshold thresholds "good" PInf) then "metric-good"
        else if fge value (threshold thresholds "fair" PInf) then "metric-fair"
        else "metric-poor"
      else if String.eqb metric_key "max_drawdown" then
        if fge value (threshold thresholds "excellent" NInf) then "metric-excellent"
        else if fge value (threshold thresholds "good" NInf) then "metric-good"
        else if fge value (threshold thresholds "fair" NInf) then "metric-fair"
        else "metric-poor"
      else if String.eqb metric_key "volatility" then
        if fle value (threshold thresholds "excellent" PInf) then "metric-excellent"
        else if fle value (threshold thresholds "good" PInf) then "metric-good"
        else if fle value (threshold thresholds "fair" PInf) then "metric-fair"
        else "metric-poor"
      else if String.eqb metric_key "beta" then
        let abs_deviation := fabs (fsub value (Fin 1)) in
        if fle abs_deviation (fq 2 10) then "metric-excellent"
        else if fle abs_deviation (fq 4 10) then "metric-good"
        else if fle abs_deviation (fq 6 10) then "metric-fair"
        else "metric-poor"
      else "metric-card"
  end.

(** ** Overall grade: [calculate_overall_grade]

    [grades] is the dictionary from metric to letter, in insertion order. *)

Definition calculate_overall_grade (grades : list (string * string)) : string * Q :=
  let grade_points : list (string * Q) :=
    [("A", 4); ("B", 3); ("C", 2); ("D", 1); ("F", 0); ("N/A", 2)] in
  let weights : list (string * Q) :=
    [ ("Sharpe Ratio", 25 # 100);
      ("Alpha", 20 # 100);
      ("Max Drawdown", 15 # 100);
      ("Annual Return", 15 # 100);
      ("Sortino Ratio", 10 # 100);
      ("Calmar Ratio", 5 # 100);
      ("Volatility", 5 # 100);
      ("Win Rate", 3 # 100);
      ("Beta", 2 # 100) ] in
  let sums :=
    fold_left (fun (acc : Q * Q) (item : string * string) =>
                 let weight := get_default weights (fst item) (5 # 1000) in
                 (fst acc + get_default grade_points (snd item) 2 * weight,
                  snd acc + weight))
              grades (0, 0) in
  let weighted_sum := fst sums in
  let total_weight := snd sums in
  let gpa := if Qlt_bool 0 total_weight then weighted_sum / total_weight else 2 in
  if Qle_bool (35 # 10) gpa then ("A", gpa)
  else if Qle_bool (25 # 10) gpa then ("B", gpa)
  else if Qle_bool (15 # 10) gpa then ("C", gpa)
  else if Qle_bool (5 # 10) gpa then ("D", gpa)
  else ("F", gpa).

(** ** Support and resistance: [calculate_support_resistance]

    [None] is the IndexError of [.iloc[-1]] on an empty series. *)

Record support_resistance : Type := {
  resistance_1 : float64;
  resistance_2 : float64;
  support_1 : float64;
  support_2 : float64;
  pivot : float64;
  recent_high : float64;
  recent_low : float64
}.

Definition calculate_support_resistance (prices : series) (window : nat)
  : option support_resistance :=
  let rolling_high := rolling series_max window prices in
  let rolling_low := rolling series_min window prices in
  let high := rolling series_max 3 prices in
  let low := rolling series_min 3 prices in
  let close := prices in
  let pivot := map (fun x => fdiv x (Fin 3)) (map2 fadd (map2 fadd high low) close) in
  let resistance1 := map2 fsub (map (fmul (Fin 2)) pivot) low in
  let support1 := map2 fsub (map (fmul (Fin 2)) pivot) high in
  let resistance2 := map2 fadd pivot (map2 fsub high low) in
  let support2 := map2 fsub pivot (map2 fsub high low) in
  match iloc_neg 1 resistance1, iloc_neg 1 resistance2, iloc_neg 1 support1,
        iloc_neg 1 support2, iloc_neg 1 pivot, iloc_neg 1 rolling_high,
        iloc_neg 1 rolling_low with
  | Some r1, Some r2, Some s1, Some s2, Some p, Some rh, Some rl =>
      Some {| resistance_1 := r1;
              resistance_2 := r2;
              support_1 := s1;
              support_2 := s2;
              pivot := p;
              recent_high := rh;
              recent_low := rl |}
  | _, _, _, _, _, _, _ => None
  end.


(** ** Economic calendar: [get_upcoming_economic_events]

    A [datetime] at midnight is a date; its position in time is its
    proleptic Gregorian ordinal, as [datetime.toordinal] computes it.
    [datetime.now()] is a point on the same axis, in days, and is passed
    to the embedding as [today]. *)

Record datetime : Type := {
  dt_year : Z;
  dt_month : Z;
  dt_day : Z
}.

Definition is_leap (y : Z) : bool :=
  ((y mod 4 =? 0) && (negb (y mod 100 =? 0) || (y mod 400 =? 0)))%Z.

Definition days_before_year (y : Z) : Z :=
  let y' := (y - 1)%Z in
  (y' * 365 + y' / 4 - y' / 100 + y' / 400)%Z.

Definition days_in_month (y m : Z) : Z :=
  if (m =? 2)%Z then (if is_leap y then 29 else 28)%Z
  else if ((m =? 4) || (m =? 6) || (m =? 9) || (m =? 11))%Z then 30%Z
  else 31%Z.

Definition days_before_month (y m : Z) : Z :=
  fold_right Z.add 0%Z
             (map (fun k => days_in_month y (Z.of_nat k)) (seq 1 (Z.to_nat m - 1))).

Definition toordinal (d : datetime) : Z :=
  (days_before_year (dt_year d) + days_before_month (dt_year d) (dt_month d) + dt_day d)%Z.

(** The position of a date in time, in days. *)
Definition timestamp (d : datetime) : Q := inject_Z (toordinal d).

Record economic_event : Type := {
  event_date : datetime;
  event_name : string;
  event_impact : string;
  event_description : string
}.

Definition fed_meetings : list datetime :=
  [ {| dt_year := 2026; dt_month := 1; dt_day := 29 |};
    {| dt_year := 2026; dt_month := 3; dt_day := 19 |};
    {| dt_year := 2026; dt_month := 5; dt_day := 7 |};
    {| dt_year := 2026; dt_month := 6; dt_day := 18 |};
    {| dt_year := 2026; dt_month := 7; dt_day := 30 |};
    {| dt_year := 2026; dt_month := 9; dt_day := 17 |};
    {| dt_year := 2026; dt_month := 11; dt_day := 5 |};
    {| dt_year := 2026; dt_month := 12; dt_day := 17 |} ].

(** [sorted(events, key=lambda x: x['date'])[:5]] *)
Definition get_upcoming_economic_events (today : Q) : list economic_event :=
  let events :=
    flat_map
      (fun meeting =>
         if Qlt_bool today (timestamp meeting) && Qlt_bool (timestamp meeting) (today + 90)
         then [ {| event_date := meeting;
                   event_name := "Fed Meeting";
                   event_impact := "HIGH";
                   event_description := "FOMC rate decision and policy statement" |} ]
         else [])
      fed_meetings in
  firstn 5 (sort_by (fun a b => Qle_bool (timestamp (event_date a)) (timestamp (event_date b)))
                    events).


(** ** Notions the properties are stated with *)

(** A series whose every entry is the finite value [v]. *)
Definition all_feq (v : Q) (s : series) : Prop := Forall (fun a => feq a (Fin v)) s.

(** Sum and number of finite values, and the values at or below a bound. *)
Definition sumQ (l : list Q) : Q := fold_right Qplus 0 l.

Definition countQ (l : list Q) : Q := inject_Z (Z.of_nat (List.length l)).

Definition at_most (v : Q) (l : list Q) : list Q := filter (fun x => Qle_bool x v) l.

(** The exact mean of the values at or below a bound: the mean that CVaR
    computes in floating point. *)
Definition tail_mean (v : Q) (l : list Q) : Q :=
  sumQ (at_most v l) / countQ (at_most v l).

(** A row of closes none of which is zero. *)
Definition nonzero_row (row : list Q) : Prop := Forall (fun p => ~ p == 0) row.

(** A rule of the scorer that adds at most [bound] in absolute value. *)
Definition rule_within (bound : Z) (r : rule) : Prop :=
  match r with
  | Some (n, _) => (- bound <= n <= bound)%Z
  | None => True
  end.





(** Some held ticker belongs to the group. *)
Definition holds_any (etfs tickers : list string) : bool :=
  existsb (fun ticker => str_in ticker etfs) tickers.

(** The four card classes from worst to best. *)
Definition class_rank (css_class : string) : nat :=
  if String.eqb css_class "metric-excellent" then 3
  else if String.eqb css_class "metric-good" then 2
  else if String.eqb css_class "metric-fair" then 1
  else 0.


(** The future value of one unit invested at the start of each of 20 years
    at 8%: [1.08 * (1.08^20 - 1) / 0.08]. *)
Definition annuity_factor : Q :=
  (108 # 100) * (Qpower (108 # 100) 20 - 1) / (8 # 100).


(* ================================================================== *)
(** * Part II. Properties                                              *)
(* ================================================================== *)

(** ** Comparisons of doubles *)

Lemma Qlt_bool_iff (x y : Q) : Qlt_bool x y = true <-> x < y.
Proof.
  unfold Qlt_bool. rewrite negb_true_iff.
  split; intro H.
  - apply Qnot_le_lt. intro Hle. apply Qle_bool_iff in Hle. congruence.
  - destruct (Qle_bool y x) eqn:E; [|reflexivity].
    apply Qle_bool_iff in E. exfalso. apply (Qlt_not_le _ _ H E).
Qed.

Lemma Qlt_bool_false_iff (x y : Q) : Qlt_bool x y = false <-> y <= x.
Proof.
  unfold Qlt_bool. rewrite negb_false_iff. apply Qle_bool_iff.
Qed.

Lemma Qle_bool_false_iff (x y : Q) : Qle_bool x y = false <-> y < x.
Proof.
  rewrite <- Qlt_bool_iff. unfold Qlt_bool.
  destruct (Qle_bool x y); simpl; intuition congruence.
Qed.

Lemma flt_irrefl (a : float64) : flt a a = false.
Proof.
  destruct a; simpl; try reflexivity.
  apply Qlt_bool_false_iff. apply Qle_refl.
Qed.

(** ** Grading *)

Section Grading.

Local Open Scope string_scope.

Lemma grade_loop_spec (c : criteria) (value : float64) (gs : list string) :
  (forall g, In g gs -> exists low high, criteria_get c g = Tuple low high) ->
  match grade_loop c value gs with
  | Some g =>
      In g gs /\
      exists low high, In (low, high) (band_intervals (criteria_get c g)) /\
                       fle low value = true /\ flt value high = true
  | None =>
      forall g low high, In g gs -> In (low, high) (band_intervals (criteria_get c g)) ->
                         in_range value low high = false
  end.
Proof.
  induction gs as [|g gs IH]; intros Hshape; simpl.
  - intros g low high [].
  - destruct (Hshape g (or_introl eq_refl)) as (low & high & Hg).
    rewrite Hg.
    destruct (in_range value low high) eqn:Hin.
    + split; [now left|]. exists low, high. rewrite Hg. simpl.
      unfold in_range in Hin. apply andb_true_iff in Hin. tauto.
    + specialize (IH (fun g' H' => Hshape g' (or_intror H'))).
      destruct (grade_loop c value gs) as [g0|].
      * destruct IH as [Hin0 Hex]. split; [now right|exact Hex].
      * intros g' low' high' [<-|Hin'] Hband.
        -- rewrite Hg in Hband. simpl in Hband.
           destruct Hband as [Heq|[]]. now inversion Heq; subst.
        -- eapply IH; eauto.
Qed.

Lemma any_range_true (value : float64) (l : list (float64 * float64)) :
  any_range value l = true ->
  exists low high, In (low, high) l /\ fle low value = true /\ flt value high = true.
Proof.
  induction l as [|[low high] l IH]; simpl; [discriminate|].
  intros H. apply orb_true_iff in H. destruct H as [H|H].
  - exists low, high. unfold in_range in H. apply andb_true_iff in H.
    intuition.
  - destruct (IH H) as (lo & hi & Hin & Hb). exists lo, hi. intuition.
Qed.

Lemma any_range_false (value : float64) (l : list (float64 * float64)) :
  any_range value l = false ->
  forall low high, In (low, high) l -> in_range value low high = false.
Proof.
  induction l as [|[lo hi] l IH]; simpl; intros H low high; [intros []|].
  apply orb_false_iff in H. destruct H as [H1 H2].
  intros [Heq|Hin]; [now inversion Heq; subst|now apply IH].
Qed.

Lemma grade_loop_beta_spec (c : criteria) (value : float64) (gs : list string) :
  (forall g, In g gs -> exists l, criteria_get c g = Ranges l) ->
  match grade_loop_beta c value gs with
  | Some g =>
      In g gs /\
      exists low high, In (low, high) (band_intervals (criteria_get c g)) /\
                       fle low value = true /\ flt value high = true
  | None =>
      forall g low high, In g gs -> In (low, high) (band_intervals (criteria_get c g)) ->
                         in_range value low high = false
  end.
Proof.
  induction gs as [|g gs IH]; intros Hshape; simpl.
  - intros g low high [].
  - destruct (Hshape g (or_introl eq_refl)) as (l & Hg).
    rewrite Hg.
    destruct (any_range value l) eqn:Hany.
    + split; [now left|]. rewrite Hg. simpl. now apply any_range_true.
    + specialize (IH (fun g' H' => Hshape g' (or_intror H'))).
      destruct (grade_loop_beta c value gs) as [g0|].
      * destruct IH as [Hin0 Hex]. split; [now right|exact Hex].
      * intros g' low' high' [<-|Hin'] Hband.
        -- rewrite Hg in Hband. simpl in Hband.
           eapply any_range_false; eauto.
        -- eapply IH; eauto.
Qed.

(** The shape of the table: the Beta entry holds lists of ranges, every
    other entry one tuple per grade. *)
Lemma grading_criteria_shape (name : string) (c : criteria) :
  dict_get name grading_criteria = Some c ->
  if String.eqb name "Beta"
  then forall g, In g grade_letters -> exists l, criteria_get c g = Ranges l
  else forall g, In g grade_letters -> exists low high, criteria_get c g = Tuple low high.
Proof.
  unfold grading_criteria. simpl dict_get.
  repeat match goal with
  | |- context [if String.eqb name ?k then Some _ else _] =>
      let E := fresh "E" in
      destruct (String.eqb name k) eqn:E;
      [ apply String.eqb_eq in E; subst name; intros H; inversion H; subst c; clear H;
        simpl; intros g Hg;
        repeat (destruct Hg as [<-|Hg];
                [first [do 2 eexists; reflexivity | eexists; reflexivity]|]);
        try contradiction
      | ]
  end.
  intros H. discriminate H.
Qed.

(** C10.  [grade_metric] tests each band of the metric as the half-open
    interval [low <= value < high], in the order A, B, C, D, F: the grade
    it returns is a grade with a band holding the value, and when no band
    of the metric holds the value it returns F.  A metric that is not in
    the table is graded N/A.  Hence a value equal to the upper endpoint of
    the best band, which no band holds, is graded F: Max Drawdown 0 and
    Win Rate 1.0. *)
Theorem grade_metric_half_open_bands :
  (forall (name : string) (value : float64),
      match dict_get name grading_criteria with
      | None => grade_metric name value = ("N/A", "N/A")
      | Some c =>
          let g := fst (grade_metric name value) in
          (In g grade_letters /\
           exists low high, In (low, high) (band_intervals (criteria_get c g)) /\
                            fle low value = true /\ flt value high = true)
          \/
          (g = "F" /\
           forall g' low high, In g' grade_letters ->
                               In (low, high) (band_intervals (criteria_get c g')) ->
                               fle low value && flt value high = false)
      end)
  /\ grade_metric "Max Drawdown" (Fin 0)
     = ("F", "A: >-15%, B: -15% to -25%, C: -25% to -35%, D: -35% to -50%, F: <-50%")
  /\ grade_metric "Win Rate" (Fin 1)
     = ("F", "A: >60%, B: 55-60%, C: 50-55%, D: 45-50%, F: <45%").
Proof.
  split; [|split; reflexivity].
  intros name value.
  destruct (dict_get name grading_criteria) as [c|] eqn:Hc.
  - pose proof (grading_criteria_shape name c Hc) as Hshape.
    unfold grade_metric. rewrite Hc. cbv zeta.
    destruct (String.eqb name "Beta").
    + pose proof (grade_loop_beta_spec c value grade_letters Hshape) as Hloop.
      destruct (grade_loop_beta c value grade_letters) as [g|]; simpl.
      * left. exact Hloop.
      * right. split; [reflexivity|exact Hloop].
    + pose proof (grade_loop_spec c value grade_letters Hshape) as Hloop.
      destruct (grade_loop c value grade_letters) as [g|]; simpl.
      * left. exact Hloop.
      * right. split; [reflexivity|exact Hloop].
  - unfold grade_metric. now rewrite Hc.
Qed.

End Grading.

(** ** Percentile ranking *)

Section Percentile.

Lemma better_than_count_filter (p : float64) (l : list float64) :
  better_than_count p l = Z.of_nat (List.length (filter (fun s => fgt p s) l)).
Proof.
  induction l as [|s l IH]; simpl; [reflexivity|].
  rewrite IH. destruct (fgt p s); simpl List.length; lia.
Qed.

(** The portfolio never beats itself, so the count over [all_sharpes] is
    the count over the benchmarks. *)
Lemma better_than_count_self (p : float64) (bs : list float64) :
  better_than_count p (p :: bs) = better_count p bs.
Proof.
  unfold better_count. rewrite <- better_than_count_filter. simpl.
  unfold fgt at 1. now rewrite flt_irrefl.
Qed.



End Percentile.

(** ** The executable [Libm] satisfies the interface *)

Lemma approx_sqrt_nonneg (x : Q) : 0 <= approx_sqrt x.
Proof.
  unfold approx_sqrt, Qle. simpl. rewrite Z.mul_1_r. apply Z.sqrt_nonneg.
Qed.

Lemma approx_sqrt_zero (x : Q) : x == 0 -> approx_sqrt x == 0.
Proof.
  unfold approx_sqrt, Qeq. simpl. rewrite !Z.mul_1_r. intros ->. reflexivity.
Qed.

Lemma approx_power_one (b e : Q) : b == 1 -> feq (approx_power b e) (Fin 1).
Proof.
  intros Hb. unfold approx_power.
  apply Qeq_bool_iff in Hb. rewrite Hb. simpl. reflexivity.
Qed.

#[export] Instance rational_libm : Libm := {|
  np_sqrt := approx_sqrt;
  np_power := approx_power;
  np_sqrt_nonneg := approx_sqrt_nonneg;
  np_sqrt_zero := approx_sqrt_zero;
  np_power_one := approx_power_one
|}.

Example approx_sqrt_252 : approx_sqrt 252 == 15874507866 # 1000000000.
Proof. vm_compute. reflexivity. Qed.

Example approx_power_annualize :
  feq (approx_power (121 # 100) (252 # 504)) (Fin (11 # 10)).
Proof. vm_compute. reflexivity. Qed.

(** ** The pandas operations on small series *)

Example rolling_mean_example :
  rolling series_mean 3 (of_values [1; 2; 3; 4]) = [NaN; NaN; Fin (6 / 3); Fin (9 / 3)].
Proof. vm_compute. reflexivity. Qed.

Example ewm_mean_example :
  Forall2 feq (ewm_mean 3 (of_values [1; 2; 3])) [Fin 1; Fin (3 # 2); Fin (9 # 4)].
Proof. repeat constructor; vm_compute; reflexivity. Qed.

Example calculate_rsi_example :
  Forall2 feq (calculate_rsi (of_values [1; 2; 1; 2; 3]) 2)
          [NaN; Fin 100; Fin 50; Fin 50; Fin 100].
Proof. repeat constructor; vm_compute; reflexivity. Qed.

Example drawdown_series_example :
  Forall2 feq (drawdown_series (of_values [1 # 10; -1 # 10; -2 # 10; 1 # 2]))
          [Fin 0; Fin (-1 # 10); Fin (-28 # 100); Fin 0].
Proof. repeat constructor; vm_compute; reflexivity. Qed.

Example series_median_example :
  feq (series_median [Fin 4; NaN; Fin 1; Fin 3; Fin 2]) (Fin (5 # 2)).
Proof. vm_compute. reflexivity. Qed.

Example quantile_example :
  feq (quantile (1 - (95 # 100)) [3 # 100; -1 # 100; 2 # 100; -4 # 100; 1 # 100])
      (Fin (-34 # 1000)).
Proof. vm_compute. reflexivity. Qed.

(** ** Series: lengths and the last entry *)

Lemma map2_length {A B C : Type} (f : A -> B -> C) (l1 : list A) (l2 : list B) :
  List.length (map2 f l1 l2) = Nat.min (List.length l1) (List.length l2).
Proof.
  revert l2. induction l1 as [|a l1 IH]; intros [|b l2]; simpl; auto.
Qed.

Lemma shift1_length (s : series) : List.length (shift1 s) = List.length s.
Proof.
  destruct s as [|x s]; [reflexivity|].
  unfold shift1. rewrite removelast_firstn_len, length_cons, length_firstn.
  cbn [List.length]. lia.
Qed.

Lemma diff_length (s : series) : List.length (diff s) = List.length s.
Proof.
  unfold diff. rewrite map2_length, shift1_length. apply Nat.min_id.
Qed.

Lemma rolling_length (stat : series -> float64) (w : nat) (s : series) :
  List.length (rolling stat w s) = List.length s.
Proof.
  unfold rolling. now rewrite length_map, length_seq.
Qed.

Lemma ewm_from_length (alpha prev : float64) (s : series) :
  List.length (ewm_from alpha prev s) = List.length s.
Proof.
  revert prev. induction s as [|x s IH]; intros prev; simpl; auto.
Qed.

Lemma ewm_mean_length (span : nat) (s : series) :
  List.length (ewm_mean span s) = List.length s.
Proof.
  destruct s as [|x s]; [reflexivity|].
  unfold ewm_mean. cbn [List.length]. now rewrite ewm_from_length.
Qed.

Lemma iloc_neg_last_some (s : series) :
  s <> [] -> exists a, iloc_neg 1 s = Some a.
Proof.
  intros Hs. unfold iloc_neg.
  destruct s as [|x s]; [contradiction|].
  cbn [List.length Nat.eqb orb]. 
  replace (S (List.length s) <? 1)%nat with false
    by (symmetry; apply Nat.ltb_ge; lia).
  destruct (nth_error (x :: s) (S (List.length s) - 1)) as [a|] eqn:E; [eauto|].
  apply nth_error_None in E. cbn [List.length] in E. lia.
Qed.

Lemma iloc_neg_last_length (s : series) :
  (0 < List.length s)%nat -> exists a, iloc_neg 1 s = Some a.
Proof.
  intros H. apply iloc_neg_last_some. intros ->. simpl in H. lia.
Qed.

(** ** Signal scoring *)

Section Signals.

Context {L : Libm}.

Local Open Scope string_scope.
Local Open Scope Z_scope.

Lemma classify_score_spec (s : Z) :
  (4 <= s -> classify_score s = ("STRONG BUY", "Accumulate")) /\
  (2 <= s < 4 -> classify_score s = ("BUY", "Accumulate")) /\
  (s <= -4 -> classify_score s = ("STRONG SELL", "Distribute")) /\
  (-4 < s <= -2 -> classify_score s = ("SELL", "Distribute")) /\
  (-2 < s < 2 -> classify_score s = ("HOLD", "Hold")).
Proof.
  unfold classify_score.
  destruct (s >=? 4) eqn:E4; destruct (s >=? 2) eqn:E2;
    destruct (s <=? -4) eqn:E4'; destruct (s <=? -2) eqn:E2';
    repeat split; intros; try reflexivity; lia.
Qed.

(** Every indicator series is as long as the price series. *)
Lemma calculate_rsi_length (prices : series) (period : nat) :
  List.length (calculate_rsi prices period) = List.length prices.
Proof.
  unfold calculate_rsi.
  rewrite length_map, map2_length, !rolling_length.
  unfold series_where. rewrite !length_map, diff_length. apply Nat.min_id.
Qed.

Lemma calculate_macd_length (prices : series) (fast slow sig : nat) :
  let '(m, s, h) := calculate_macd prices fast slow sig in
  List.length m = List.length prices /\
  List.length s = List.length prices /\
  List.length h = List.length prices.
Proof.
  unfold calculate_macd.
  rewrite !map2_length, !ewm_mean_length, !map2_length, !ewm_mean_length.
  rewrite !Nat.min_id. auto.
Qed.

Lemma calculate_bollinger_bands_length (prices : series) (period : nat) (k : Q) :
  let '(u, m, l) := calculate_bollinger_bands prices period k in
  List.length u = List.length prices /\
  List.length l = List.length prices.
Proof.
  unfold calculate_bollinger_bands.
  rewrite !map2_length, !length_map, !rolling_length, !Nat.min_id. auto.
Qed.

(** C8.  On a non-empty price series [generate_trading_signal] returns a
    record (on an empty one [prices.iloc[-1]] raises), and the record's
    signal and action are the classification of its score: 4 and above is
    STRONG BUY / Accumulate, 2 or 3 is BUY / Accumulate, -4 and below is
    STRONG SELL / Distribute, -3 or -2 is SELL / Distribute, anything else
    HOLD / Hold; its confidence is [min(|score| * 15, 100)]. *)
Theorem generate_trading_signal_classifies_score (prices : list Q) :
  match generate_trading_signal prices with
  | None => prices = []
  | Some r =>
      prices <> [] /\
      (4 <= score r -> signal r = "STRONG BUY" /\ action r = "Accumulate") /\
      (2 <= score r < 4 -> signal r = "BUY" /\ action r = "Accumulate") /\
      (score r <= -4 -> signal r = "STRONG SELL" /\ action r = "Distribute") /\
      (-4 < score r <= -2 -> signal r = "SELL" /\ action r = "Distribute") /\
      (-2 < score r < 2 -> signal r = "HOLD" /\ action r = "Hold") /\
      confidence r = Z.min (Z.abs (score r) * 15) 100
  end.
Proof.
  unfold generate_trading_signal.
  pose proof (calculate_macd_length (of_values prices) 12 26 9) as Hm.
  pose proof (calculate_bollinger_bands_length (of_values prices) 20 2) as Hb.
  pose proof (calculate_rsi_length (of_values prices) 14) as Hr.
  destruct (calculate_macd (of_values prices) 12 26 9) as [[m s] h].
  destruct (calculate_bollinger_bands (of_values prices) 20 2) as [[u mid] l].
  destruct Hm as (Hm1 & Hm2 & Hm3). destruct Hb as (Hb1 & Hb2).
  destruct prices as [|p prices].
  - reflexivity.
  - assert (Hpos : (0 < List.length (of_values (p :: prices)))%nat)
      by (unfold of_values; rewrite length_map; simpl; lia).
    set (ps := of_values (p :: prices)) in *.
    destruct (iloc_neg_last_length ps Hpos) as (x1 & ->).
    destruct (iloc_neg_last_length (calculate_rsi ps 14) ltac:(lia)) as (x2 & ->).
    destruct (iloc_neg_last_length m ltac:(lia)) as (x3 & ->).
    destruct (iloc_neg_last_length s ltac:(lia)) as (x4 & ->).
    destruct (iloc_neg_last_length h ltac:(lia)) as (x5 & ->).
    destruct (iloc_neg_last_length (calculate_sma ps 50)
                ltac:(unfold calculate_sma; rewrite rolling_length; lia)) as (x6 & ->).
    destruct (iloc_neg_last_length (calculate_sma ps 200)
                ltac:(unfold calculate_sma; rewrite rolling_length; lia)) as (x7 & ->).
    destruct (iloc_neg_last_length l ltac:(lia)) as (x8 & ->).
    destruct (iloc_neg_last_length u ltac:(lia)) as (x9 & ->).
    cbv zeta.
    match goal with
    | |- context [classify_score ?sc] =>
        pose proof (classify_score_spec sc) as Hc;
        destruct (classify_score sc) as [sg ac] eqn:Ecs
    end.
    cbn [score signal action confidence].
    destruct Hc as (H1 & H2 & H3 & H4 & H5).
    split; [discriminate|].
    repeat (split;
            [ intros Hs;
              first [ specialize (H1 Hs) | specialize (H2 Hs) | specialize (H3 Hs)
                    | specialize (H4 Hs) | specialize (H5 Hs) ];
              split; congruence | ]).
    reflexivity.
Qed.

End Signals.

(** Twenty flat closes and then a drop: RSI 0 (oversold, +2), MACD under
    its signal line (-1), close under the lower band (+1). *)
Example generate_trading_signal_drop :
  option_map (fun r => (signal r, action r, score r, confidence r))
             (generate_trading_signal (repeat 100 20 ++ [90]))
  = Some ("BUY"%string, "Accumulate"%string, 2%Z, 30%Z).
Proof. vm_compute. reflexivity. Qed.

Example generate_trading_signal_flat :
  option_map (fun r => (signal r, action r, score r, confidence r, signals r))
             (generate_trading_signal (repeat 100 20))
  = Some ("HOLD"%string, "Hold"%string, (-1)%Z, 15%Z, ["MACD Bearish"%string]).
Proof. vm_compute. reflexivity. Qed.

(** ** Current regime *)

Section EnhancedRegime.

Context {L : Libm}.

(** C7.  The regime [detect_market_regime_enhanced] reports is the first
    match, in priority order, over the trailing statistics it computes and
    reports: volatility above 35% is Crisis; else momentum under -10% with
    volatility above 25% is Bear; else momentum above 15% with volatility
    under 20% is Bull; else positive momentum with a positive 20-day return
    is Recovery; else Neutral.  The statistics are the annualized standard
    deviation of the last 60 returns (all of them when fewer), and the
    60-day and 20-day price changes (0 when the history is shorter).  Each
    regime carries its fixed stocks/bonds/cash allocation, which sums
    to 100. *)
Theorem detect_market_regime_enhanced_first_match (returns prices : list Q) :
  let r := detect_market_regime_enhanced returns prices in
  let m := metrics r in
  volatility m
    = fmul (series_std (tail (Nat.min 60 (List.length returns)) (of_values returns)))
           sqrt_252
  /\ recent_return_20d m = recent_return 20 (of_values prices)
  /\ momentum_60d m = fdiv (recent_return 60 (of_values prices)) (Fin 100)
  /\ regime r = regime_by_priority (volatility m) (momentum_60d m) (recent_return_20d m)
  /\ regime_allocation r = target_allocation (regime r)
  /\ (stocks (regime_allocation r) + bonds (regime_allocation r)
      + cash (regime_allocation r) = 100)%Z.
Proof.
  cbv zeta. unfold detect_market_regime_enhanced, regime_by_priority.
  unfold of_values. rewrite length_map.
  set (vol := fmul _ sqrt_252).
  set (mom := fdiv _ (Fin 100)).
  set (r20 := recent_return 20 _).
  destruct (fgt vol (fq 35 100)) eqn:E1;
    [| destruct (flt mom (fq (-10) 100) && fgt vol (fq 25 100))%bool eqn:E2;
       [| destruct (fgt mom (fq 15 100) && flt vol (fq 20 100))%bool eqn:E3;
          [| destruct (fgt mom (Fin 0) && fgt r20 (Fin 0))%bool eqn:E4 ]]];
    cbn [regime metrics volatility momentum_60d recent_return_20d
         regime_allocation stocks bonds cash target_allocation];
    rewrite ?E1, ?E2, ?E3, ?E4; repeat split; reflexivity.
Qed.

End EnhancedRegime.

(** ** Historical regimes *)

Section HistoricalRegimes.

Context {L : Libm}.

Local Open Scope string_scope.

Lemma nth_map2 {A B C : Type} (f : A -> B -> C) (l1 : list A) (l2 : list B)
      (i : nat) (da : A) (db : B) (dc : C) :
  (i < List.length l1)%nat -> (i < List.length l2)%nat ->
  nth i (map2 f l1 l2) dc = f (nth i l1 da) (nth i l2 db).
Proof.
  revert l2 i. induction l1 as [|a l1 IH]; intros [|b l2] [|i] H1 H2;
    simpl in *; try lia; auto.
  apply IH; lia.
Qed.

Lemma nth_map_lt {A B : Type} (f : A -> B) (l : list A) (i : nat) (d : B) (d' : A) :
  (i < List.length l)%nat -> nth i (map f l) d = f (nth i l d').
Proof.
  revert i. induction l as [|a l IH]; intros [|i] H; simpl in *; try lia; auto.
  apply IH. lia.
Qed.

(** A rolling mean cannot be above +2% and below -2% at once, so the four
    masks of [detect_market_regimes] are disjoint. *)
Lemma bull_excludes_bear (a : float64) :
  fgt a (fq 2 100) = true -> flt a (fq (-2) 100) = false.
Proof.
  destruct a as [x| | |]; simpl; try reflexivity; try discriminate.
  unfold fgt, fq, flt. rewrite Qlt_bool_iff, Qlt_bool_false_iff.
  intros H. apply Qlt_le_weak. eapply Qlt_trans; [|exact H]. reflexivity.
Qed.

(** The four masked assignments over the default, one date after the
    other, give each date the label of its own statistics. *)
Lemma masked_assignments_pointwise (med : float64) (rr rv : series) (xs : series) :
  List.length rv = List.length rr -> List.length xs = List.length rr ->
  let return_positive := map (fun x => fgt x (fq 2 100)) rr in
  let return_negative := map (fun x => flt x (fq (-2) 100)) rr in
  let vol_high := map (fun x => fgt x med) rv in
  assign_where (map2 andb return_negative vol_high) "Bear Market (High Vol)"
    (assign_where (map2 andb return_negative (map negb vol_high)) "Bear Market (Low Vol)"
       (assign_where (map2 andb return_positive vol_high) "Bull Market (High Vol)"
          (assign_where (map2 andb return_positive (map negb vol_high))
                        "Bull Market (Low Vol)"
                        (map (fun _ => "Sideways/Choppy") xs))))
  = map2 (regime_label med) rr rv.
Proof.
  cbv zeta. revert rv xs.
  induction rr as [|a rr IH]; intros [|b rv] [|x xs] Hv Hx;
    simpl in Hv, Hx; try discriminate; [reflexivity|].
  injection Hv as Hv. injection Hx as Hx.
  specialize (IH rv xs Hv Hx).
  cbn [map map2 assign_where] in *. unfold assign_where in *.
  cbn [map2]. f_equal; [|exact IH].
  unfold regime_label.
  destruct (fgt a (fq 2 100)) eqn:Ep.
  - rewrite (bull_excludes_bear a Ep). destruct (fgt b med); reflexivity.
  - destruct (flt a (fq (-2) 100)); destruct (fgt b med); reflexivity.
Qed.

Lemma series_count_le_length (s : series) : (series_count s <= List.length s)%nat.
Proof. unfold series_count, dropna. apply filter_length_le. Qed.

Lemma window_length_le (w i : nat) (s : series) : (List.length (window w i s) <= i + 1)%nat.
Proof.
  unfold window. rewrite length_skipn, length_firstn. lia.
Qed.

(** Before [lookback] observations are there, a rolling statistic is NaN. *)
Lemma rolling_insufficient_history (stat : series -> float64) (w i : nat) (s : series) :
  (i < List.length s)%nat -> (i + 1 < w)%nat -> nth i (rolling stat w s) NaN = NaN.
Proof.
  intros Hi Hw. unfold rolling.
  rewrite (nth_map_lt _ _ i NaN 0%nat) by (now rewrite length_seq).
  rewrite seq_nth by exact Hi. cbv zeta. simpl Nat.add.
  replace (series_count (window w i s) <? w)%nat with true; [reflexivity|].
  symmetry. apply Nat.ltb_lt.
  pose proof (series_count_le_length (window w i s)).
  pose proof (window_length_le w i s). lia.
Qed.

(** C6.  [detect_market_regimes] labels every date of the series, with
    exactly one of the five labels: the label of a date is decided by its
    annualized rolling mean return (Bull above +2%, Bear below -2%) and by
    whether its annualized rolling volatility exceeds the median of the
    whole history's rolling volatility; a date in neither case, and every
    date with fewer than [lookback] trailing observations (whose rolling
    statistics are NaN), is Sideways/Choppy. *)
Theorem detect_market_regimes_partitions (returns : list Q) (lookback : nat) :
  let regimes := detect_market_regimes returns lookback in
  List.length regimes = List.length returns
  /\ NoDup regime_labels
  /\ forall i, (i < List.length returns)%nat ->
       nth i regimes ""
       = regime_label (vol_median_of returns lookback)
                      (rolling_return_at returns lookback i)
                      (rolling_vol_at returns lookback i)
       /\ In (nth i regimes "") regime_labels
       /\ ((i + 1 < lookback)%nat ->
           rolling_return_at returns lookback i = NaN
           /\ rolling_vol_at returns lookback i = NaN
           /\ nth i regimes "" = "Sideways/Choppy").
Proof.
  cbv zeta. unfold detect_market_regimes. cbv zeta.
  set (rs := of_values returns).
  assert (Hlen : List.length rs = List.length returns)
    by (unfold rs, of_values; apply length_map).
  set (rr := map (fun x => fmul x (Fin 252)) (rolling series_mean lookback rs)).
  set (rv := map (fun x => fmul x sqrt_252) (rolling series_std lookback rs)).
  assert (Hrr : List.length rr = List.length returns)
    by (unfold rr; now rewrite length_map, rolling_length).
  assert (Hrv : List.length rv = List.length returns)
    by (unfold rv; now rewrite length_map, rolling_length).
  rewrite (masked_assignments_pointwise (series_median rv) rr rv rs)
    by congruence.
  split; [rewrite map2_length; lia|].
  split.
  { unfold regime_labels.
    repeat (constructor; [simpl; intuition discriminate|]). constructor. }
  intros i Hi.
  assert (Hnth : nth i (map2 (regime_label (series_median rv)) rr rv) ""
                 = regime_label (vol_median_of returns lookback)
                     (rolling_return_at returns lookback i)
                     (rolling_vol_at returns lookback i)).
  { rewrite (nth_map2 _ rr rv i NaN NaN) by lia. reflexivity. }
  rewrite Hnth. split; [reflexivity|]. split.
  - unfold regime_label, regime_labels.
    repeat match goal with |- context [if ?c then _ else _] => destruct c end;
      simpl; tauto.
  - intros Hw.
    assert (Hr : rolling_return_at returns lookback i = NaN).
    { unfold rolling_return_at. fold rs.
      rewrite (nth_map_lt _ _ i NaN NaN) by (rewrite rolling_length; lia).
      rewrite rolling_insufficient_history by lia. reflexivity. }
    assert (Hv : rolling_vol_at returns lookback i = NaN).
    { unfold rolling_vol_at. fold rs.
      rewrite (nth_map_lt _ _ i NaN NaN) by (rewrite rolling_length; lia).
      rewrite rolling_insufficient_history by lia. reflexivity. }
    rewrite Hr, Hv. repeat split; reflexivity.
Qed.

End HistoricalRegimes.

Example detect_market_regimes_example :
  detect_market_regimes [1#100; 2#100; 3#100; -5#100; -4#100; 0; 0; 0] 3
  = ["Sideways/Choppy"; "Sideways/Choppy"; "Bull Market (Low Vol)";
     "Sideways/Choppy"; "Bear Market (High Vol)"; "Bear Market (High Vol)";
     "Bear Market (Low Vol)"; "Sideways/Choppy"]%string.
Proof. vm_compute. reflexivity. Qed.

Example detect_market_regime_enhanced_example :
  let r := detect_market_regime_enhanced [1#100; -2#100; 3#100] [100; 101; 99; 102] in
  regime r = HighVolatilityCrisis
  /\ regime_allocation r = {| stocks := 45; bonds := 45; cash := 10 |}.
Proof. vm_compute. split; reflexivity. Qed.

(** ** Doubles: finite values up to the representation *)

Lemma feq_Fin_inv (a : float64) (v : Q) :
  feq a (Fin v) -> exists x, a = Fin x /\ x == v.
Proof.
  destruct a as [x| | |]; simpl; try contradiction. eauto.
Qed.

Lemma feq_Fin (x v : Q) : x == v -> feq (Fin x) (Fin v).
Proof. exact (fun H => H). Qed.

Lemma fdiv_nan_r (a : float64) : fdiv a NaN = NaN.
Proof. destruct a; reflexivity. Qed.

Lemma fmul_nan_l (a : float64) : fmul NaN a = NaN.
Proof. destruct a; reflexivity. Qed.

Lemma of_nat_nonzero (n : nat) : ~ inject_Z (Z.of_nat (S n)) == 0.
Proof.
  unfold Qeq. simpl. lia.
Qed.

Lemma fdiv_Fin (x y : Q) : ~ y == 0 -> fdiv (Fin x) (Fin y) = Fin (x / y).
Proof.
  intros Hy. simpl. destruct (Qeq_bool y 0) eqn:E; [|reflexivity].
  apply Qeq_bool_iff in E. contradiction.
Qed.

Lemma fneb_zero (x : Q) : x == 0 -> fneb (Fin x) (Fin 0) = false.
Proof.
  intros H. unfold fneb, feqb. apply Qeq_bool_iff in H. now rewrite H.
Qed.

(** ** Series of finite values *)

Lemma dropna_of_values (l : list Q) : dropna (of_values l) = of_values l.
Proof.
  unfold dropna, of_values. induction l as [|x l IH]; simpl; [reflexivity|].
  now rewrite IH.
Qed.

Lemma all_feq_dropna (v : Q) (s : series) : all_feq v s -> dropna s = s.
Proof.
  unfold all_feq, dropna. induction 1 as [|a s Ha _ IH]; simpl; [reflexivity|].
  apply feq_Fin_inv in Ha. destruct Ha as (x & -> & _). simpl. now rewrite IH.
Qed.

Lemma all_feq_repeat (x v : Q) (n : nat) : x == v -> all_feq v (repeat (Fin x) n).
Proof.
  intros H. unfold all_feq. induction n; simpl; constructor; auto.
Qed.

Lemma all_feq_map (f : float64 -> float64) (v w : Q) (s : series) :
  (forall a, feq a (Fin v) -> feq (f a) (Fin w)) ->
  all_feq v s -> all_feq w (map f s).
Proof.
  intros Hf. unfold all_feq. induction 1; simpl; constructor; auto.
Qed.

Lemma all_feq_map2 (f : float64 -> float64 -> float64) (u v w : Q) (s t : series) :
  (forall a b, feq a (Fin u) -> feq b (Fin v) -> feq (f a b) (Fin w)) ->
  all_feq u s -> all_feq v t -> all_feq w (map2 f s t).
Proof.
  intros Hf Hs. revert t. unfold all_feq in *.
  induction Hs as [|a s Ha _ IH]; intros t Ht; simpl; [constructor|].
  destruct Ht as [|b t Hb Ht]; constructor; auto.
Qed.

Lemma fold_fadd_zero (acc : Q) (s : series) :
  acc == 0 -> all_feq 0 s ->
  exists x, fold_right fadd (Fin acc) s = Fin x /\ x == 0.
Proof.
  intros Hacc. unfold all_feq. induction 1 as [|a s Ha _ IH]; simpl; [eauto|].
  destruct IH as (x & -> & Hx). apply feq_Fin_inv in Ha.
  destruct Ha as (y & -> & Hy). simpl. eexists; split; [reflexivity|].
  rewrite Hx, Hy. reflexivity.
Qed.

Lemma fold_fmul_one (s : series) :
  all_feq 1 s -> exists x, fold_right fmul (Fin 1) s = Fin x /\ x == 1.
Proof.
  unfold all_feq. induction 1 as [|a s Ha _ IH]; simpl.
  - exists 1. split; reflexivity.
  - destruct IH as (x & -> & Hx). apply feq_Fin_inv in Ha.
    destruct Ha as (y & -> & Hy). simpl. eexists; split; [reflexivity|].
    rewrite Hx, Hy. reflexivity.
Qed.

Lemma cumprod_from_ones (acc : Q) (s : series) :
  acc == 1 -> all_feq 1 s -> all_feq 1 (cumprod_from (Fin acc) s).
Proof.
  intros Hacc Hs. revert acc Hacc. unfold all_feq in *.
  induction Hs as [|a s Ha _ IH]; intros acc Hacc; simpl; [constructor|].
  apply feq_Fin_inv in Ha. destruct Ha as (y & -> & Hy). simpl.
  assert (H1 : acc * y == 1) by (rewrite Hacc, Hy; reflexivity).
  constructor; [exact H1|]. apply IH. exact H1.
Qed.

Lemma expanding_max_from_ones (cur : float64) (s : series) :
  cur = NaN \/ feq cur (Fin 1) ->
  all_feq 1 s -> all_feq 1 (expanding_max_from cur s).
Proof.
  intros Hcur Hs. revert cur Hcur. unfold all_feq in *.
  induction Hs as [|a s Ha _ IH]; intros cur Hcur; simpl; [constructor|].
  apply feq_Fin_inv in Ha. destruct Ha as (y & -> & Hy). simpl.
  destruct Hcur as [->|Hcur].
  - simpl. constructor; [exact Hy|]. apply IH. right. exact Hy.
  - apply feq_Fin_inv in Hcur. destruct Hcur as (c & -> & Hc). simpl.
    unfold fmax2. simpl.
    destruct (Qlt_bool c y); (constructor; [|apply IH; right]); simpl; assumption.
Qed.

Lemma fold_fmin2_const (v : Q) (s : series) (x : float64) :
  feq x (Fin v) -> all_feq v s -> feq (fold_left fmin2 s x) (Fin v).
Proof.
  intros Hx Hs. revert x Hx. unfold all_feq in *.
  induction Hs as [|a s Ha _ IH]; intros x Hx; simpl; [exact Hx|].
  apply IH. unfold fmin2. destruct (flt a x); assumption.
Qed.

Lemma series_min_const (v : Q) (s : series) :
  s <> [] -> all_feq v s -> feq (series_min s) (Fin v).
Proof.
  intros Hne Hs. unfold series_min. rewrite (all_feq_dropna v s Hs).
  destruct s as [|x s]; [contradiction|].
  inversion Hs; subst. now apply fold_fmin2_const.
Qed.

(** ** Performance metrics *)

Section Metrics.

Context {L : Libm}.

Lemma series_std_short (s : series) :
  (series_count s <= 1)%nat -> series_std s = NaN.
Proof.
  intros H. unfold series_std, series_var. cbv zeta.
  fold (series_count s).
  replace (series_count s <=? 1)%nat with true
    by (symmetry; now apply Nat.leb_le).
  reflexivity.
Qed.

Lemma series_mean_zero (s : series) :
  s <> [] -> all_feq 0 s -> exists x, series_mean s = Fin x /\ x == 0.
Proof.
  intros Hne Hs. unfold series_mean, series_sum, series_count.
  rewrite (all_feq_dropna 0 s Hs).
  destruct (fold_fadd_zero 0 s (Qeq_refl 0) Hs) as (x & -> & Hx).
  destruct s as [|a s]; [contradiction|].
  unfold of_nat. cbn [List.length].
  rewrite fdiv_Fin by apply of_nat_nonzero.
  eexists; split; [reflexivity|]. rewrite Hx.
  field. apply of_nat_nonzero.
Qed.

Lemma series_std_zero (s : series) :
  (2 <= List.length s)%nat -> all_feq 0 s ->
  exists x, series_std s = Fin x /\ x == 0.
Proof.
  intros Hlen Hs. unfold series_std, series_var. cbv zeta.
  rewrite (all_feq_dropna 0 s Hs).
  replace (List.length s <=? 1)%nat with false
    by (symmetry; apply Nat.leb_gt; lia).
  destruct (series_mean_zero s) as (avg & -> & Havg);
    [intros ->; simpl in Hlen; lia | exact Hs |].
  assert (Hsq : all_feq 0 (map (fun x => fmul (fsub x (Fin avg)) (fsub x (Fin avg))) s)).
  { apply (all_feq_map _ 0 0 s); [|exact Hs].
    intros a Ha. apply feq_Fin_inv in Ha. destruct Ha as (y & -> & Hy).
    simpl. rewrite Hy, Havg. reflexivity. }
  destruct (fold_fadd_zero 0 _ (Qeq_refl 0) Hsq) as (t & -> & Ht).
  destruct (List.length s) as [|[|k]] eqn:Ek; try lia.
  unfold of_nat. replace (S (S k) - 1)%nat with (S k) by lia.
  rewrite fdiv_Fin by apply of_nat_nonzero.
  assert (Hv : t / inject_Z (Z.of_nat (S k)) == 0).
  { rewrite Ht. field. apply of_nat_nonzero. }
  unfold fsqrt.
  replace (Qlt_bool (t / inject_Z (Z.of_nat (S k))) 0) with false.
  - eexists; split; [reflexivity|]. now apply np_sqrt_zero.
  - symmetry. apply Qlt_bool_false_iff. rewrite Hv. apply Qle_refl.
Qed.

Lemma of_values_repeat (x : Q) (n : nat) : of_values (repeat x n) = repeat (Fin x) n.
Proof. unfold of_values. apply map_repeat. Qed.

Lemma filter_none {A : Type} (f : A -> bool) (l : list A) :
  Forall (fun a => f a = false) l -> filter f l = [].
Proof.
  induction 1 as [|a l Ha _ IH]; simpl; [reflexivity|]. now rewrite Ha.
Qed.

Lemma all_feq_zero_no_sign (s : series) :
  all_feq 0 s ->
  Forall (fun a => flt a (Fin 0) = false) s /\ Forall (fun a => fgt a (Fin 0) = false) s.
Proof.
  unfold all_feq. induction 1 as [|a s Ha _ [IH1 IH2]]; [split; constructor|].
  apply feq_Fin_inv in Ha. destruct Ha as (y & -> & Hy).
  split; constructor; auto; unfold fgt; simpl; apply Qlt_bool_false_iff;
    rewrite Hy; apply Qle_refl.
Qed.

Lemma drawdown_series_flat (s : series) :
  all_feq 0 s -> all_feq 0 (drawdown_series s).
Proof.
  intros Hs. unfold drawdown_series. cbv zeta.
  assert (H1 : all_feq 1 (map (fun r => fadd (Fin 1) r) s)).
  { apply (all_feq_map _ 0 1 s); [|exact Hs].
    intros a Ha. apply feq_Fin_inv in Ha. destruct Ha as (y & -> & Hy).
    simpl. rewrite Hy. reflexivity. }
  assert (Hc : all_feq 1 (cumprod (map (fun r => fadd (Fin 1) r) s)))
    by (apply cumprod_from_ones; [reflexivity|exact H1]).
  assert (Hm : all_feq 1 (expanding_max (cumprod (map (fun r => fadd (Fin 1) r) s))))
    by (apply expanding_max_from_ones; [now left|exact Hc]).
  apply (all_feq_map2 fdiv 0 1 0); [| |exact Hm].
  - intros a b Ha Hb. apply feq_Fin_inv in Ha, Hb.
    destruct Ha as (x & -> & Hx). destruct Hb as (y & -> & Hy).
    rewrite fdiv_Fin by (rewrite Hy; discriminate).
    simpl. rewrite Hx, Hy. reflexivity.
  - apply (all_feq_map2 fsub 1 1 0); [|exact Hc|exact Hm].
    intros a b Ha Hb. apply feq_Fin_inv in Ha, Hb.
    destruct Ha as (x & -> & Hx). destruct Hb as (y & -> & Hy).
    simpl. rewrite Hx, Hy. reflexivity.
Qed.

Lemma drawdown_series_length (s : series) :
  List.length (drawdown_series s) = List.length s.
Proof.
  unfold drawdown_series, expanding_max, cumprod. cbv zeta.
  assert (Hc : forall acc t, List.length (cumprod_from acc t) = List.length t).
  { intros acc t. revert acc. induction t as [|x t IH]; intros acc; simpl; auto.
    destruct (isnan x); simpl; now rewrite IH. }
  assert (He : forall cur t, List.length (expanding_max_from cur t) = List.length t).
  { intros cur t. revert cur. induction t as [|x t IH]; intros cur; simpl; auto. }
  rewrite !map2_length, He, !Hc, length_map. lia.
Qed.

(** With at most one negative return the downside deviation is the
    standard deviation of fewer than two values, NaN; [NaN != 0] holds, so
    the guard lets the division through and the Sortino ratio is NaN. *)
Lemma sortino_nan_without_downside (returns : list Q) (rf : Q) (m : portfolio_metrics) :
  calculate_portfolio_metrics returns rf = Some m ->
  (List.length (filter (fun r => flt r (Fin 0)) (of_values returns)) <= 1)%nat ->
  sortino_ratio m = NaN.
Proof.
  unfold calculate_portfolio_metrics. cbv zeta.
  destruct (List.length (of_values returns) =? 0)%nat; [discriminate|].
  intros H Hd. injection H as <-. cbn [sortino_ratio].
  rewrite series_std_short.
  - rewrite fmul_nan_l. cbn [fneb feqb negb]. apply fdiv_nan_r.
  - pose proof (series_count_le_length
                  (filter (fun r => flt r (Fin 0)) (of_values returns))). lia.
Qed.

(** C2.  [calculate_portfolio_metrics] returns on every series of length 1.
    On a flat series of zeros it returns max_drawdown 0, calmar 0 and
    win_rate 0, and sharpe 0 when there are at least two observations; but
    the Sortino ratio is NaN, not 0 (the downside set is empty, its standard
    deviation is NaN and the guard [downside_std != 0] lets NaN through),
    and with one observation the Sharpe ratio is NaN in the same way. *)
Theorem calculate_portfolio_metrics_flat_sortino_nan (n : nat) (r rf : Q) :
  (exists m, calculate_portfolio_metrics [r] rf = Some m)
  /\ (exists m, calculate_portfolio_metrics (repeat 0 (S n)) rf = Some m
                /\ sortino_ratio m = NaN
                /\ feq (max_drawdown m) (Fin 0)
                /\ calmar_ratio m = Fin 0
                /\ feq (win_rate m) (Fin 0))
  /\ (exists m, calculate_portfolio_metrics (repeat 0 (S (S n))) rf = Some m
                /\ sharpe_ratio m = Fin 0)
  /\ (exists m, calculate_portfolio_metrics [0] rf = Some m
                /\ sharpe_ratio m = NaN /\ sortino_ratio m = NaN).
Proof.
  split; [eexists; reflexivity|].
  assert (Hz : forall k, all_feq 0 (of_values (repeat 0 k)))
    by (intros k; rewrite of_values_repeat; apply all_feq_repeat; reflexivity).
  assert (Hlen : forall k, List.length (of_values (repeat 0 k)) = k)
    by (intros k; unfold of_values; now rewrite length_map, repeat_length).
  split; [|split].
  - specialize (Hz (S n)). specialize (Hlen (S n)).
    unfold calculate_portfolio_metrics. cbv zeta.
    remember (of_values (repeat 0 (S n))) as zs eqn:Ezs. clear Ezs.
    destruct (all_feq_zero_no_sign _ Hz) as [Hneg Hpos].
    rewrite Hlen. change (S n =? 0)%nat with false.
    eexists. split; [reflexivity|].
    cbn [sortino_ratio max_drawdown calmar_ratio win_rate].
    assert (Hdd : feq (series_min (drawdown_series zs)) (Fin 0)).
    { apply series_min_const; [|apply drawdown_series_flat, Hz].
      intros E. apply (f_equal (@List.length _)) in E.
      rewrite drawdown_series_length, Hlen in E. discriminate. }
    split.
    { rewrite (filter_none _ _ Hneg), series_std_short by (cbv; lia).
      rewrite fmul_nan_l. cbn [fneb feqb negb]. apply fdiv_nan_r. }
    split; [exact Hdd|].
    apply feq_Fin_inv in Hdd. destruct Hdd as (z & -> & Hzero).
    split.
    + now rewrite fneb_zero.
    + unfold count_where. rewrite (filter_none _ _ Hpos). unfold of_nat.
      rewrite fdiv_Fin by apply of_nat_nonzero. simpl. reflexivity.
  - specialize (Hz (S (S n))). specialize (Hlen (S (S n))).
    unfold calculate_portfolio_metrics. cbv zeta.
    remember (of_values (repeat 0 (S (S n)))) as zs eqn:Ezs. clear Ezs.
    rewrite Hlen. change (S (S n) =? 0)%nat with false.
    eexists. split; [reflexivity|].
    cbn [sharpe_ratio].
    destruct (series_std_zero zs) as (x & -> & Hx); [lia | exact Hz |].
    unfold sqrt_252. cbn [fmul].
    rewrite fneb_zero; [reflexivity|]. rewrite Hx. ring.
  - eexists. split; [reflexivity|].
    cbn [sharpe_ratio sortino_ratio].
    rewrite !series_std_short by (cbv; lia).
    rewrite fmul_nan_l. cbn [fneb feqb negb]. rewrite !fdiv_nan_r.
    split; reflexivity.
Qed.

End Metrics.

(** ** The order on doubles that are not NaN *)

Lemma fle_refl (a : float64) : isnan a = false -> fle a a = true.
Proof.
  destruct a; simpl; try reflexivity; try discriminate.
  intros _. apply Qle_bool_iff. apply Qle_refl.
Qed.

Lemma flt_fle (a b : float64) : flt a b = true -> fle a b = true.
Proof.
  destruct a, b; simpl; try reflexivity; try discriminate.
  rewrite Qlt_bool_iff, Qle_bool_iff. apply Qlt_le_weak.
Qed.

Lemma fle_trans (a b c : float64) :
  fle a b = true -> fle b c = true -> fle a c = true.
Proof.
  destruct a, b, c; simpl; try reflexivity; try discriminate.
  rewrite !Qle_bool_iff. apply Qle_trans.
Qed.

Lemma fmin2_notnan (a b : float64) :
  isnan a = false -> isnan b = false -> isnan (fmin2 a b) = false.
Proof. unfold fmin2. destruct (flt b a); auto. Qed.

Lemma fmin2_le_l (a b : float64) : isnan a = false -> fle (fmin2 a b) a = true.
Proof.
  intros Ha. unfold fmin2. destruct (flt b a) eqn:E.
  - now apply flt_fle.
  - now apply fle_refl.
Qed.

Lemma fold_fmin2_le (l : series) (x : float64) :
  isnan x = false -> Forall (fun a => isnan a = false) l ->
  fle (fold_left fmin2 l x) x = true.
Proof.
  intros Hx Hl. revert x Hx.
  induction Hl as [|a l Ha _ IH]; intros x Hx; simpl.
  - now apply fle_refl.
  - eapply fle_trans; [apply IH; now apply fmin2_notnan|].
    now apply fmin2_le_l.
Qed.

Lemma dropna_notnan (s : series) : Forall (fun a => isnan a = false) (dropna s).
Proof.
  apply Forall_forall. intros a Ha. unfold dropna in Ha.
  apply filter_In in Ha. destruct Ha as [_ Ha]. now apply negb_true_iff in Ha.
Qed.

(** The minimum of a series is at most its first entry, when that is a
    number. *)
Lemma series_min_le_head (a : float64) (s : series) :
  isnan a = false -> fle (series_min (a :: s)) a = true.
Proof.
  intros Ha. unfold series_min, dropna. cbn [filter]. rewrite Ha. cbn [negb].
  apply fold_fmin2_le; [exact Ha|]. apply dropna_notnan.
Qed.

(** ** Sums of finite values *)

Lemma fold_fadd_of_values (l : list Q) :
  fold_right fadd (Fin 0) (of_values l) = Fin (sumQ l).
Proof.
  unfold of_values, sumQ. induction l as [|x l IH]; simpl; [reflexivity|].
  now rewrite IH.
Qed.

Lemma series_sum_of_values (l : list Q) : series_sum (of_values l) = Fin (sumQ l).
Proof.
  unfold series_sum. rewrite dropna_of_values. apply fold_fadd_of_values.
Qed.

Lemma series_count_of_values (l : list Q) : series_count (of_values l) = List.length l.
Proof.
  unfold series_count. rewrite dropna_of_values. unfold of_values. apply length_map.
Qed.

Lemma series_mean_of_values (l : list Q) :
  l <> [] ->
  series_mean (of_values l) = Fin (sumQ l / inject_Z (Z.of_nat (List.length l))).
Proof.
  intros Hl. unfold series_mean.
  rewrite series_sum_of_values, series_count_of_values.
  destruct l as [|x l]; [contradiction|].
  unfold of_nat. cbn [List.length]. apply fdiv_Fin, of_nat_nonzero.
Qed.

Lemma Qsquare_nonneg (x : Q) : 0 <= x * x.
Proof.
  unfold Qle, Qmult. simpl. rewrite Z.mul_1_r. apply Z.square_nonneg.
Qed.

Lemma sumQ_nonneg (l : list Q) : Forall (fun x => 0 <= x) l -> 0 <= sumQ l.
Proof.
  unfold sumQ. induction 1 as [|x l Hx _ IH]; simpl; [apply Qle_refl|].
  lra.
Qed.

(** ** Signs of volatility and drawdown *)

Section MetricsSigns.

Context {L : Libm}.

Lemma annual_volatility_eq (returns : list Q) (rf : Q) (m : portfolio_metrics) :
  calculate_portfolio_metrics returns rf = Some m ->
  annual_volatility m = fmul (series_std (of_values returns)) sqrt_252.
Proof.
  unfold calculate_portfolio_metrics. cbv zeta.
  destruct (List.length (of_values returns) =? 0)%nat; [discriminate|].
  intros H. injection H as <-. reflexivity.
Qed.

Lemma max_drawdown_eq (returns : list Q) (rf : Q) (m : portfolio_metrics) :
  calculate_portfolio_metrics returns rf = Some m ->
  max_drawdown m = series_min (drawdown_series (of_values returns)).
Proof.
  unfold calculate_portfolio_metrics. cbv zeta.
  destruct (List.length (of_values returns) =? 0)%nat; [discriminate|].
  intros H. injection H as <-. reflexivity.
Qed.

Lemma series_var_of_values (l : list Q) :
  (2 <= List.length l)%nat ->
  exists v, series_var (of_values l) = Fin v /\ 0 <= v.
Proof.
  intros Hlen. unfold series_var. cbv zeta.
  rewrite dropna_of_values.
  assert (Hl : List.length (of_values l) = List.length l)
    by (unfold of_values; apply length_map).
  rewrite Hl.
  replace (List.length l <=? 1)%nat with false
    by (symmetry; apply Nat.leb_gt; lia).
  rewrite series_mean_of_values by (intros ->; simpl in Hlen; lia).
  set (avg := sumQ l / inject_Z (Z.of_nat (List.length l))).
  assert (Hmap : map (fun x => fmul (fsub x (Fin avg)) (fsub x (Fin avg))) (of_values l)
                 = of_values (map (fun x => (x + - avg) * (x + - avg)) l)).
  { unfold of_values. rewrite !map_map. reflexivity. }
  rewrite Hmap, fold_fadd_of_values.
  destruct (List.length l) as [|[|k]] eqn:Ek; try lia.
  replace (S (S k) - 1)%nat with (S k) by lia.
  unfold of_nat. rewrite fdiv_Fin by apply of_nat_nonzero.
  eexists; split; [reflexivity|].
  apply Qle_shift_div_l.
  - change 0 with (inject_Z 0). rewrite <- Zlt_Qlt. lia.
  - rewrite Qmult_0_l. apply sumQ_nonneg.
    apply Forall_forall. intros y Hy. apply in_map_iff in Hy.
    destruct Hy as (x & <- & _). apply Qsquare_nonneg.
Qed.

(** C3, as the code has it.  Whenever [calculate_portfolio_metrics]
    returns: with at least two observations the annualized volatility is a
    number and is not negative; and when the first return is not -100%,
    max_drawdown is at most 0. *)
Theorem volatility_nonneg_drawdown_nonpos
        (returns : list Q) (rf : Q) (m : portfolio_metrics) :
  calculate_portfolio_metrics returns rf = Some m ->
  ((2 <= List.length returns)%nat -> fle (Fin 0) (annual_volatility m) = true)
  /\ match returns with
     | [] => True
     | r0 :: _ => ~ 1 + r0 == 0 -> fle (max_drawdown m) (Fin 0) = true
     end.
Proof.
  intros Hm. split.
  - intros Hlen. rewrite (annual_volatility_eq _ _ _ Hm).
    destruct (series_var_of_values returns Hlen) as (v & Hv & Hpos).
    unfold series_std. rewrite Hv. unfold fsqrt.
    replace (Qlt_bool v 0) with false
      by (symmetry; now apply Qlt_bool_false_iff).
    unfold sqrt_252. simpl. apply Qle_bool_iff.
    apply Qmult_le_0_compat; apply np_sqrt_nonneg.
  - destruct returns as [|r0 rest]; [exact I|].
    intros Hr0. rewrite (max_drawdown_eq _ _ _ Hm).
    assert (Hc : ~ 1 * (1 + r0) == 0) by (intros E; apply Hr0; lra).
    unfold drawdown_series, cumprod, expanding_max, of_values. cbv zeta.
    cbn [map cumprod_from isnan fadd fmul expanding_max_from map2 fsub fopp].
    rewrite (fdiv_Fin (1 * (1 + r0) + - (1 * (1 + r0))) (1 * (1 + r0)) Hc).
    eapply fle_trans; [apply series_min_le_head; reflexivity|].
    simpl. apply Qle_bool_iff.
    assert (E : (1 * (1 + r0) + - (1 * (1 + r0))) / (1 * (1 + r0)) == 0)
      by (field; exact Hr0).
    rewrite E. apply Qle_refl.
Qed.

End MetricsSigns.

Lemma volatility_nonneg_drawdown_nonpos_witness :
  exists m, calculate_portfolio_metrics [1#10; -1#10; 1#20] (2#100) = Some m
            /\ fle (Fin 0) (annual_volatility m) = true
            /\ fle (max_drawdown m) (Fin 0) = true.
Proof.
  eexists. split; [reflexivity|].
  pose proof (volatility_nonneg_drawdown_nonpos
                [1#10; -1#10; 1#20] (2#100) _ eq_refl) as [Hvol Hdd].
  split.
  - apply Hvol. simpl. lia.
  - apply Hdd. vm_compute. discriminate.
Defined.

(** C3, as stated, fails: a single observation has no sample standard
    deviation, so the annualized volatility is NaN and [NaN >= 0] is false;
    and after a first return of -100% every drawdown is 0/0, so max_drawdown
    is NaN and [NaN <= 0] is false. *)
Lemma volatility_nan_single_observation :
  (exists m, calculate_portfolio_metrics [1#100] (2#100) = Some m
             /\ annual_volatility m = NaN
             /\ fle (Fin 0) (annual_volatility m) = false)
  /\ (exists m, calculate_portfolio_metrics [-1; 1#2] (2#100) = Some m
                /\ max_drawdown m = NaN
                /\ fle (max_drawdown m) (Fin 0) = false).
Proof.
  split; eexists; (split; [reflexivity|]); split; vm_compute; reflexivity.
Qed.

(** ** Sorting and order statistics *)

Section Sorting.

Lemma insert_by_perm {A : Type} (le : A -> A -> bool) (x : A) (l : list A) :
  Permutation (x :: l) (insert_by le x l).
Proof.
  induction l as [|y l IH]; simpl; [reflexivity|].
  destruct (le x y); [reflexivity|].
  rewrite perm_swap. now constructor.
Qed.

Lemma sort_by_perm {A : Type} (le : A -> A -> bool) (l : list A) :
  Permutation l (sort_by le l).
Proof.
  induction l as [|x l IH]; simpl; [reflexivity|].
  rewrite <- insert_by_perm. now constructor.
Qed.

Lemma insert_sorted (x : Q) (l : list Q) :
  StronglySorted Qle l -> StronglySorted Qle (insert_by Qle_bool x l).
Proof.
  induction 1 as [|y l Hs IH Hy]; simpl.
  - constructor; constructor.
  - destruct (Qle_bool x y) eqn:E.
    + apply Qle_bool_iff in E. constructor.
      * now constructor.
      * constructor; [exact E|].
        eapply Forall_impl; [|exact Hy]. intros z Hz. now apply Qle_trans with y.
    + apply Qle_bool_false_iff in E. constructor; [exact IH|].
      apply (Permutation_Forall (insert_by_perm Qle_bool x l)).
      constructor; [now apply Qlt_le_weak|exact Hy].
Qed.

Lemma sort_values_sorted (l : list Q) : StronglySorted Qle (sort_values l).
Proof.
  unfold sort_values. induction l as [|x l IH]; simpl; [constructor|].
  now apply insert_sorted.
Qed.

Lemma sort_values_perm (l : list Q) : Permutation l (sort_values l).
Proof. apply sort_by_perm. Qed.

Lemma sort_values_length (l : list Q) : List.length (sort_values l) = List.length l.
Proof. symmetry. apply Permutation_length, sort_values_perm. Qed.

(** In a sorted list the order statistics grow with the rank. *)
Lemma sorted_nth_le (l : list Q) (i j : nat) (d : Q) :
  StronglySorted Qle l -> (i <= j)%nat -> (j < List.length l)%nat ->
  nth i l d <= nth j l d.
Proof.
  intros Hs. revert i j.
  induction Hs as [|x l Hs IH Hx]; intros i j Hij Hj; simpl in Hj; [lia|].
  destruct i as [|i], j as [|j]; simpl; try lia.
  - apply Qle_refl.
  - rewrite Forall_forall in Hx. apply Hx. apply nth_In. lia.
  - apply IH; lia.
Qed.

Lemma filter_length_perm {A : Type} (f : A -> bool) (l l' : list A) :
  Permutation l l' -> List.length (filter f l) = List.length (filter f l').
Proof.
  induction 1 as [|x l l' _ IH|x y l|l l' l'' _ IH1 _ IH2]; simpl.
  - reflexivity.
  - destruct (f x); simpl; now rewrite IH.
  - destruct (f x), (f y); reflexivity.
  - now rewrite IH1.
Qed.

(** With [k] values at or below [v] in a sorted list, the first [k] order
    statistics are at or below [v]. *)
Lemma sorted_nth_le_bound (l : list Q) (v : Q) (j : nat) (d : Q) :
  StronglySorted Qle l ->
  (j < List.length (filter (fun x => Qle_bool x v) l))%nat ->
  nth j l d <= v.
Proof.
  intros Hs. revert j.
  induction Hs as [|x l Hs IH Hx]; intros j Hj; simpl in Hj; [lia|].
  destruct (Qle_bool x v) eqn:E.
  - apply Qle_bool_iff in E. destruct j as [|j]; simpl; [exact E|].
    apply IH. simpl in Hj. lia.
  - apply Qle_bool_false_iff in E.
    rewrite filter_none in Hj; [simpl in Hj; lia|].
    eapply Forall_impl; [|exact Hx]. intros y Hy. simpl in Hy.
    apply Qle_bool_false_iff. now apply Qlt_le_trans with x.
Qed.

End Sorting.

(** ** Quantiles *)

Section Quantiles.

Variable s : list Q.
Variable x0 : Q.
Hypothesis s_sorted : StronglySorted Qle s.
Hypothesis s_nonempty : (0 < List.length s)%nat.

Let last_rank : Q := inject_Z (Z.of_nat (List.length s - 1)).

Lemma floor_rank (pos : Q) :
  0 <= pos -> pos <= last_rank ->
  (Z.to_nat (Qfloor pos) <= List.length s - 1)%nat
  /\ inject_Z (Z.of_nat (Z.to_nat (Qfloor pos))) = inject_Z (Qfloor pos)
  /\ 0 <= pos - inject_Z (Qfloor pos)
  /\ pos - inject_Z (Qfloor pos) < 1.
Proof.
  intros H0 H1.
  assert (Hf0 : (0 <= Qfloor pos)%Z).
  { change 0%Z with (Qfloor 0). now apply Qfloor_resp_le. }
  assert (Hf1 : (Qfloor pos <= Z.of_nat (List.length s - 1))%Z).
  { rewrite <- (Qfloor_Z (Z.of_nat (List.length s - 1))). now apply Qfloor_resp_le. }
  pose proof (Qfloor_le pos) as Hle. pose proof (Qlt_floor pos) as Hlt.
  rewrite inject_Z_plus in Hlt. change (inject_Z 1) with 1 in Hlt.
  repeat split.
  - lia.
  - rewrite Z2Nat.id by exact Hf0. reflexivity.
  - lra.
  - lra.
Qed.

Lemma interpolate_bounds (pos : Q) :
  0 <= pos -> pos <= last_rank ->
  let lo := Z.to_nat (Qfloor pos) in
  nth lo s x0 <= interpolate s x0 pos
  /\ interpolate s x0 pos <= nth (lo + 1) s (nth lo s x0)
  /\ nth 0 s x0 <= interpolate s x0 pos.
Proof.
  intros H0 H1. cbv zeta.
  destruct (floor_rank pos H0 H1) as (Hlo & _ & Hf0 & Hf1).
  unfold interpolate. cbv zeta.
  set (lo := Z.to_nat (Qfloor pos)) in *.
  set (frac := pos - inject_Z (Qfloor pos)) in *.
  set (a := nth lo s x0).
  set (b := nth (lo + 1) s a).
  assert (Hab : a <= b).
  { unfold b. destruct (Nat.lt_ge_cases (lo + 1) (List.length s)) as [Hin|Hout].
    - rewrite (nth_indep s a x0 Hin). unfold a. apply sorted_nth_le; [exact s_sorted|lia|exact Hin].
    - rewrite nth_overflow by exact Hout. apply Qle_refl. }
  assert (Hprod0 : 0 <= (b - a) * frac) by (apply Qmult_le_0_compat; lra).
  assert (Hprod1 : 0 <= (b - a) * (1 - frac)) by (apply Qmult_le_0_compat; lra).
  assert (Ha : a <= a + (b - a) * frac) by lra.
  repeat split.
  - exact Ha.
  - lra.
  - eapply Qle_trans; [|exact Ha]. unfold a.
    apply sorted_nth_le; [exact s_sorted|lia|lia].
Qed.

Lemma interpolate_monotone (pos1 pos2 : Q) :
  0 <= pos1 -> pos1 <= pos2 -> pos2 <= last_rank ->
  interpolate s x0 pos1 <= interpolate s x0 pos2.
Proof.
  intros H0 H12 H2.
  assert (H1 : pos1 <= last_rank) by lra.
  assert (H0' : 0 <= pos2) by lra.
  destruct (floor_rank pos1 H0 H1) as (Hlo1 & Hz1 & Hf10 & Hf11).
  destruct (floor_rank pos2 H0' H2) as (Hlo2 & Hz2 & Hf20 & Hf21).
  pose proof (Qfloor_resp_le _ _ H12) as Hfl.
  assert (Hf0 : (0 <= Qfloor pos1)%Z).
  { change 0%Z with (Qfloor 0). now apply Qfloor_resp_le. }
  destruct (Z.eq_dec (Qfloor pos1) (Qfloor pos2)) as [Heq|Hne].
  - unfold interpolate. cbv zeta. rewrite <- Heq.
    set (lo := Z.to_nat (Qfloor pos1)) in *.
    set (a := nth lo s x0).
    set (b := nth (lo + 1) s a).
    assert (Hab : a <= b).
    { unfold b. destruct (Nat.lt_ge_cases (lo + 1) (List.length s)) as [Hin|Hout].
      - rewrite (nth_indep s a x0 Hin). unfold a.
        apply sorted_nth_le; [exact s_sorted|lia|exact Hin].
      - rewrite nth_overflow by exact Hout. apply Qle_refl. }
    assert (Hd : 0 <= (b - a) * ((pos2 - inject_Z (Qfloor pos1))
                                 - (pos1 - inject_Z (Qfloor pos1))))
      by (apply Qmult_le_0_compat; lra).
    lra.
  - destruct (interpolate_bounds pos1 H0 H1) as (_ & Hup & _).
    destruct (interpolate_bounds pos2 H0' H2) as (Hlow & _ & _).
    cbv zeta in Hup, Hlow.
    eapply Qle_trans; [exact Hup|]. eapply Qle_trans; [|exact Hlow].
    assert (Hlt : (Z.to_nat (Qfloor pos1) + 1 <= Z.to_nat (Qfloor pos2))%nat) by lia.
    rewrite (nth_indep s _ x0) by lia.
    apply sorted_nth_le; [exact s_sorted|exact Hlt|lia].
Qed.

End Quantiles.

(** ** Expected shortfall *)

Section ExpectedShortfall.

Lemma countQ_cons (x : Q) (l : list Q) : countQ (x :: l) == countQ l + 1.
Proof.
  unfold countQ. cbn [List.length]. rewrite Nat2Z.inj_succ. unfold Z.succ.
  rewrite inject_Z_plus. reflexivity.
Qed.

Lemma countQ_nonneg (l : list Q) : 0 <= countQ l.
Proof.
  unfold countQ. change 0 with (inject_Z 0). rewrite <- Zle_Qle. lia.
Qed.

Lemma countQ_pos (l : list Q) : l <> [] -> 0 < countQ l.
Proof.
  intros Hl. destruct l as [|x l]; [contradiction|].
  rewrite countQ_cons. pose proof (countQ_nonneg l). lra.
Qed.

Lemma sumQ_cons (x : Q) (l : list Q) : sumQ (x :: l) = x + sumQ l.
Proof. reflexivity. Qed.

(** The values at or below [v] sum to at most [v] times their number. *)
Lemma sum_at_most (v : Q) (l : list Q) :
  sumQ (at_most v l) <= v * countQ (at_most v l).
Proof.
  unfold at_most. induction l as [|x l IH]; cbn [filter].
  - change (0 <= v * 0). lra.
  - destruct (Qle_bool x v) eqn:E; [|exact IH].
    apply Qle_bool_iff in E. rewrite sumQ_cons, countQ_cons. lra.
Qed.

(** Between two thresholds [v1 <= v2]: what the higher one adds is above
    [v1]. *)
Lemma sum_between (v1 v2 : Q) (l : list Q) :
  v1 <= v2 ->
  v1 * (countQ (at_most v2 l) - countQ (at_most v1 l))
    <= sumQ (at_most v2 l) - sumQ (at_most v1 l)
  /\ countQ (at_most v1 l) <= countQ (at_most v2 l).
Proof.
  intros Hv. unfold at_most. induction l as [|x l [IH1 IH2]]; cbn [filter].
  - change (v1 * (0 - 0) <= 0 - 0 /\ 0 <= 0). split; lra.
  - destruct (Qle_bool x v1) eqn:E1.
    + apply Qle_bool_iff in E1.
      assert (E2 : Qle_bool x v2 = true) by (apply Qle_bool_iff; lra).
      rewrite E2, !sumQ_cons, !countQ_cons. split; lra.
    + apply Qle_bool_false_iff in E1.
      destruct (Qle_bool x v2) eqn:E2.
      * rewrite !sumQ_cons, !countQ_cons. split; lra.
      * split; assumption.
Qed.

(** The mean of the values at or below the lower threshold is at most the
    mean of the values at or below the higher one. *)
Lemma mean_at_most_monotone (v1 v2 : Q) (l : list Q) :
  v1 <= v2 -> at_most v1 l <> [] ->
  sumQ (at_most v1 l) / countQ (at_most v1 l)
    <= sumQ (at_most v2 l) / countQ (at_most v2 l).
Proof.
  intros Hv Hne.
  pose proof (countQ_pos _ Hne) as Hc1.
  destruct (sum_between v1 v2 l Hv) as [Hb Hc].
  pose proof (sum_at_most v1 l) as Hs.
  set (s1 := sumQ (at_most v1 l)) in *. set (s2 := sumQ (at_most v2 l)) in *.
  set (c1 := countQ (at_most v1 l)) in *. set (c2 := countQ (at_most v2 l)) in *.
  assert (Hc2 : 0 < c2) by lra.
  apply Qle_shift_div_l; [exact Hc2|].
  assert (E : s1 / c1 * c2 == (s1 * c2) / c1) by (field; lra).
  rewrite E. apply Qle_shift_div_r; [exact Hc1|].
  assert (P1 : 0 <= (v1 * c1 - s1) * (c2 - c1)) by (apply Qmult_le_0_compat; lra).
  assert (P2 : 0 <= ((s2 - s1) - v1 * (c2 - c1)) * c1) by (apply Qmult_le_0_compat; lra).
  lra.
Qed.

Lemma mean_at_most_le (v : Q) (l : list Q) :
  at_most v l <> [] -> sumQ (at_most v l) / countQ (at_most v l) <= v.
Proof.
  intros Hne. apply Qle_shift_div_r; [now apply countQ_pos|].
  apply sum_at_most.
Qed.

Lemma filter_fle_of_values (v : Q) (l : list Q) :
  filter (fun r => fle r (Fin v)) (of_values l) = of_values (at_most v l).
Proof.
  unfold of_values, at_most. induction l as [|x l IH]; simpl; [reflexivity|].
  destruct (Qle_bool x v); simpl; now rewrite IH.
Qed.

Lemma series_mean_at_most (v : Q) (l : list Q) :
  at_most v l <> [] ->
  series_mean (filter (fun r => fle r (Fin v)) (of_values l))
  = Fin (sumQ (at_most v l) / countQ (at_most v l)).
Proof.
  intros Hne. rewrite filter_fle_of_values. now apply series_mean_of_values.
Qed.

(** A threshold at or above the least value leaves something under it. *)
Lemma at_most_nonempty (v : Q) (l : list Q) (x : Q) :
  In x l -> x <= v -> at_most v l <> [].
Proof.
  intros Hin Hx E.
  assert (Hf : In x (at_most v l)).
  { unfold at_most. apply filter_In. split; [exact Hin|]. now apply Qle_bool_iff. }
  rewrite E in Hf. exact Hf.
Qed.

End ExpectedShortfall.

(** ** Forward risk: VaR and CVaR *)

Section ForwardRisk.

Context {L : Libm}.

(** The quantile of a non-empty series is a number between its least value
    and the order statistic above its rank, and grows with the level. *)
Lemma quantile_spec (l : list Q) (q1 q2 : Q) :
  l <> [] -> 0 <= q1 -> q1 <= q2 -> q2 <= 1 ->
  exists v1 v2 x0,
    quantile q1 l = Fin v1 /\ quantile q2 l = Fin v2
    /\ In x0 l /\ x0 <= v1 /\ v1 <= v2
    /\ v2 <= nth (Z.to_nat (Qfloor (q2 * inject_Z (Z.of_nat (List.length l - 1)))) + 1)
                 (sort_values l)
                 (nth (Z.to_nat (Qfloor (q2 * inject_Z (Z.of_nat (List.length l - 1)))))
                      (sort_values l) x0)
    /\ (Z.to_nat (Qfloor (q2 * inject_Z (Z.of_nat (List.length l - 1))))
        <= List.length l - 1)%nat.
Proof.
  intros Hl H0 H12 H1.
  pose proof (sort_values_sorted l) as Hs.
  pose proof (sort_values_perm l) as Hp.
  pose proof (sort_values_length l) as Hn.
  unfold quantile.
  destruct (sort_values l) as [|x0 t] eqn:Es.
  { destruct l; [contradiction|discriminate]. }
  rewrite Hn.
  set (s := x0 :: t) in *.
  set (r := inject_Z (Z.of_nat (List.length l - 1))).
  assert (Hr : 0 <= r).
  { unfold r. change 0 with (inject_Z 0). rewrite <- Zle_Qle. lia. }
  assert (Hpos : (0 < List.length s)%nat) by (simpl; lia).
  assert (Hr' : r = inject_Z (Z.of_nat (List.length s - 1)))
    by (unfold r; now rewrite Hn).
  assert (Hq1 : 0 <= q1 * r) by (apply Qmult_le_0_compat; lra).
  assert (Hq2 : q2 * r <= inject_Z (Z.of_nat (List.length s - 1))).
  { rewrite <- Hr'. assert (0 <= (1 - q2) * r) by (apply Qmult_le_0_compat; lra). lra. }
  assert (Hq12 : q1 * r <= q2 * r).
  { assert (0 <= (q2 - q1) * r) by (apply Qmult_le_0_compat; lra). lra. }
  assert (Hq2' : 0 <= q2 * r) by lra.
  exists (interpolate s x0 (q1 * r)), (interpolate s x0 (q2 * r)), x0.
  split; [reflexivity|]. split; [reflexivity|].
  split; [apply (Permutation_in _ (Permutation_sym Hp)); now left|].
  destruct (interpolate_bounds s x0 Hs Hpos (q1 * r) Hq1 ltac:(lra)) as (_ & _ & Hmin).
  destruct (interpolate_bounds s x0 Hs Hpos (q2 * r) Hq2' Hq2) as (_ & Hup & _).
  destruct (floor_rank s Hpos (q2 * r) Hq2' Hq2) as (Hlo & _).
  repeat split.
  - exact Hmin.
  - now apply interpolate_monotone.
  - exact Hup.
  - lia.
Qed.

(** C4, as the code has it.  For every non-empty return series the two
    VaR levels are finite with VaR(99%) <= VaR(95%); CVaR(95%) and
    CVaR(99%) are the means of the returns at or below VaR(95%) and
    VaR(99%); both tails are non-empty, the 99% tail lies within the 95%
    tail, the exact mean of the 95% tail is at most VaR(95%), and the exact
    mean of the 99% tail is at most that of the 95% tail.  (The program
    rounds the sum and the quotient of a mean, so its CVaR is the exact
    tail mean up to that rounding.)  VaR(95%) <= 0 holds when the order
    statistic above the quantile's rank is not positive: when at least
    [lower_rank n + 2] of the [n] returns are at or below 0, or when all of
    them are. *)
Theorem cvar_var_ordering (returns : list Q) (confidence_level : Q) :
  returns <> [] ->
  let m := calculate_forward_risk_metrics returns confidence_level in
  exists v95 v99,
    var_95 m = Fin v95 /\ var_99 m = Fin v99
    /\ v99 <= v95
    /\ at_most v99 returns <> []
    /\ incl (at_most v99 returns) (at_most v95 returns)
    /\ cvar_95 m = Fin (tail_mean v95 returns)
    /\ cvar_99 m = Fin (tail_mean v99 returns)
    /\ tail_mean v95 returns <= v95
    /\ tail_mean v99 returns <= tail_mean v95 returns
    /\ ((lower_rank (List.length returns) + 2
           <= List.length (filter (fun r => Qle_bool r 0) returns))%nat
        \/ Forall (fun r => r <= 0) returns ->
        v95 <= 0).
Proof.
  intros Hl. cbv zeta.
  unfold calculate_forward_risk_metrics. cbv zeta.
  cbn [cvar_95 cvar_99 var_95 var_99].
  destruct (quantile_spec returns (1 - (99 # 100)) (1 - (95 # 100)) Hl)
    as (v99 & v95 & x0 & E99 & E95 & Hin & Hmin & Hmono & Hup & Hlo); try lra.
  rewrite E99, E95.
  assert (Hne99 : at_most v99 returns <> []) by (eapply at_most_nonempty; eauto).
  assert (Hne95 : at_most v95 returns <> [])
    by (eapply at_most_nonempty; [exact Hin|lra]).
  rewrite !series_mean_at_most by assumption.
  exists v95, v99. unfold tail_mean.
  split; [reflexivity|]. split; [reflexivity|]. split; [exact Hmono|].
  split; [exact Hne99|].
  split.
  { intros x Hx. unfold at_most in *. apply filter_In in Hx. destruct Hx as (Hx & Hle).
    apply filter_In. split; [exact Hx|]. apply Qle_bool_iff in Hle.
    apply Qle_bool_iff. lra. }
  split; [reflexivity|]. split; [reflexivity|].
  split; [now apply mean_at_most_le|].
  split; [now apply mean_at_most_monotone|].
  fold (lower_rank (List.length returns)) in Hup, Hlo.
  set (lo := lower_rank (List.length returns)) in *.
  pose proof (sort_values_sorted returns) as Hs.
  pose proof (sort_values_perm returns) as Hp.
  intros [Hcount|Hall].
  - eapply Qle_trans; [exact Hup|].
    apply sorted_nth_le_bound; [exact Hs|].
    rewrite <- (filter_length_perm _ _ _ Hp). lia.
  - eapply Qle_trans; [exact Hup|].
    pose proof (Permutation_Forall Hp Hall) as Hall'.
    rewrite Forall_forall in Hall'.
    assert (Hlen : (lo < List.length (sort_values returns))%nat).
    { rewrite sort_values_length. destruct returns; [contradiction|simpl in *; lia]. }
    destruct (Nat.lt_ge_cases (lo + 1) (List.length (sort_values returns))) as [Hi|Ho].
    + apply Hall'. now apply nth_In.
    + rewrite nth_overflow by exact Ho. apply Hall'. now apply nth_In.
Qed.

End ForwardRisk.

Lemma cvar_var_ordering_witness :
  let returns := [3#100; -1#100; 2#100; -4#100; 1#100] in
  let m := calculate_forward_risk_metrics returns (95#100) in
  exists v95 v99,
    var_95 m = Fin v95 /\ var_99 m = Fin v99
    /\ v99 <= v95
    /\ cvar_95 m = Fin (tail_mean v95 returns)
    /\ cvar_99 m = Fin (tail_mean v99 returns)
    /\ tail_mean v95 returns <= v95
    /\ tail_mean v99 returns <= tail_mean v95 returns
    /\ v95 <= 0.
Proof.
  cbv zeta.
  destruct (cvar_var_ordering [3#100; -1#100; 2#100; -4#100; 1#100] (95#100)
              ltac:(discriminate))
    as (v95 & v99 & H1 & H2 & H3 & _ & _ & H4 & H5 & H6 & H7 & H8).
  exists v95, v99.
  split; [exact H1|]. split; [exact H2|]. split; [exact H3|].
  split; [exact H4|]. split; [exact H5|]. split; [exact H6|]. split; [exact H7|].
  apply H8. left. vm_compute. lia.
Defined.

(** C4, as stated, fails: one negative return among three does not bring
    the 5% quantile to 0 or below.  The sorted returns are -0.01, 1, 1; the
    quantile's rank is 0.05 * 2 = 0.1, and VaR(95%) = -0.01 + 0.1 * 1.01
    = 0.091. *)
Lemma var_95_positive_with_negative_return :
  let returns := [-1#100; 1; 1] in
  let m := calculate_forward_risk_metrics returns (95#100) in
  In (-1#100) returns /\ -1#100 < 0
  /\ feq (var_95 m) (Fin (91#1000))
  /\ fle (var_95 m) (Fin 0) = false.
Proof.
  cbv zeta. split; [now left|]. split; [reflexivity|].
  split; vm_compute; reflexivity.
Qed.

(** ** Portfolio returns *)

Section PortfolioReturns.

(** The percentage change of a row of finite closes over a row of finite,
    non-zero closes is a row of finite values. *)
Lemma pct_change_row (cur prev : list Q) :
  nonzero_row prev ->
  map2 (fun p q => fsub (fdiv p q) (Fin 1)) (map Fin cur) (map Fin prev)
  = map Fin (map2 (fun p q => p / q + - (1)) cur prev).
Proof.
  intros Hp. revert cur. induction Hp as [|q prev Hq _ IH]; intros [|p cur]; simpl;
    try reflexivity.
  rewrite IH. destruct (Qeq_bool q 0) eqn:E; [|reflexivity].
  apply Qeq_bool_iff in E. contradiction.
Qed.

Lemma pct_change_rows (A B : list (list Q)) :
  Forall nonzero_row B ->
  map2 (map2 (fun p q => fsub (fdiv p q) (Fin 1))) (of_rows A) (of_rows B)
  = of_rows (map2 (map2 (fun p q => p / q + - (1))) A B).
Proof.
  intros HB. revert A. unfold of_rows.
  induction HB as [|b B Hb _ IH]; intros [|a A]; simpl; try reflexivity.
  now rewrite IH, pct_change_row.
Qed.

Lemma existsb_isnan_finite (row : list Q) : existsb isnan (map Fin row) = false.
Proof. induction row as [|x row IH]; simpl; auto. Qed.

Lemma dropna_rows_finite (X : list (list Q)) : dropna_rows (of_rows X) = of_rows X.
Proof.
  unfold dropna_rows, of_rows. induction X as [|row X IH]; simpl; [reflexivity|].
  now rewrite existsb_isnan_finite, IH.
Qed.

Lemma weighted_row_sum (row weights : list Q) :
  series_sum (map2 fmul (map Fin row) (of_values weights))
  = Fin (sumQ (map2 Qmult row weights)).
Proof.
  assert (E : map2 fmul (map Fin row) (of_values weights)
              = of_values (map2 Qmult row weights)).
  { unfold of_values. revert weights.
    induction row as [|x row IH]; intros [|w weights]; simpl; try reflexivity.
    now rewrite IH. }
  rewrite E. apply series_sum_of_values.
Qed.

(** The code's [p / q - 1], weighted and summed along the row, is the
    weighted sum of the simple returns [(p - q) / q]. *)
Lemma weighted_sum_simple_returns (weights prev cur : list Q) :
  nonzero_row prev ->
  sumQ (map2 Qmult (map2 (fun p q => p / q + - (1)) cur prev) weights)
  == weighted_return weights prev cur.
Proof.
  intros Hp. unfold weighted_return. fold (sumQ (map2 Qmult weights (map2 simple_return prev cur))).
  revert cur weights.
  induction Hp as [|q prev Hq _ IH]; intros [|p cur] [|w weights]; cbn [map2];
    try reflexivity.
  rewrite !sumQ_cons, IH. unfold simple_return. field. exact Hq.
Qed.

(** C1.  On a price matrix of non-zero closes with one weight per column
    (and at least one column), [calculate_portfolio_returns] returns one
    value per date after the first, and the value at each date is the sum
    over the assets of the weight times the asset's simple daily return
    [(price[t] - price[t-1]) / price[t-1]] at that date.  In particular, two
    assets with daily returns 1%, -1%, 2%, -2% and 0%, 0%, 0%, 0%, weighted
    0.5 each, give 0.005, -0.005, 0.01, -0.01. *)
Theorem calculate_portfolio_returns_weighted_sum :
  (forall (prices : list (list Q)) (weights : list Q),
      weights <> [] ->
      Forall (fun row => List.length row = List.length weights) prices ->
      Forall nonzero_row prices ->
      exists out,
        calculate_portfolio_returns prices weights = Some out
        /\ List.length out = (List.length prices - 1)%nat
        /\ forall t, (t + 1 < List.length prices)%nat ->
             feq (nth t out NaN)
                 (Fin (weighted_return weights (nth t prices []) (nth (t + 1) prices []))))
  /\ exists out,
       calculate_portfolio_returns scenario_prices [1 # 2; 1 # 2] = Some out
       /\ Forall2 feq out [Fin (5 # 1000); Fin (-5 # 1000); Fin (1 # 100); Fin (-1 # 100)].
Proof.
  split.
  - intros prices weights Hw Hlen Hnz.
    unfold calculate_portfolio_returns. cbv zeta.
    replace (forallb (fun row => (List.length row =? List.length weights)%nat)
                     (of_rows prices)) with true.
    2:{ symmetry. apply forallb_forall. intros row Hrow.
        unfold of_rows in Hrow. apply in_map_iff in Hrow.
        destruct Hrow as (r & <- & Hr). rewrite length_map.
        rewrite Forall_forall in Hlen. apply Nat.eqb_eq. now apply Hlen. }
    eexists. split; [reflexivity|].
    destruct prices as [|r0 rest]; [split; [reflexivity|simpl; intros; lia]|].
    assert (Hr0 : existsb isnan (map (fun _ => NaN) (map Fin r0)) = true).
    { inversion Hlen as [|? ? Hl0 _]; subst.
      destruct r0 as [|p r0]; [|reflexivity].
      destruct weights; [contradiction|discriminate]. }
    change (of_rows (r0 :: rest)) with (map Fin r0 :: of_rows rest).
    unfold pct_change, dropna_rows. cbn [filter]. rewrite Hr0. cbn [negb].
    change (map Fin r0 :: of_rows rest) with (of_rows (r0 :: rest)).
    rewrite (pct_change_rows rest (r0 :: rest) Hnz).
    fold (dropna_rows (of_rows (map2 (map2 (fun p q => p / q + - (1))) rest (r0 :: rest)))).
    rewrite dropna_rows_finite.
    set (X := map2 (map2 (fun p q => p / q + - (1))) rest (r0 :: rest)).
    assert (HX : List.length X = List.length rest).
    { unfold X. rewrite map2_length. cbn [List.length]. lia. }
    unfold of_rows. rewrite map_map.
    split; [rewrite length_map, HX; cbn [List.length]; lia|].
    intros t Ht. cbn [List.length] in Ht.
    rewrite (nth_map_lt _ X t NaN []) by lia.
    rewrite weighted_row_sum. unfold X.
    rewrite (nth_map2 _ rest (r0 :: rest) t [] [] []) by (cbn [List.length]; lia).
    replace (nth (t + 1) (r0 :: rest) []) with (nth t rest [])
      by (replace (t + 1)%nat with (S t) by lia; reflexivity).
    cbn [feq]. apply weighted_sum_simple_returns.
    rewrite Forall_forall in Hnz. apply Hnz. apply nth_In. cbn [List.length]. lia.
  - eexists. split; [reflexivity|].
    repeat constructor; vm_compute; reflexivity.
Qed.

Lemma calculate_portfolio_returns_weighted_sum_witness :
  exists out,
    calculate_portfolio_returns [[100; 40]; [110; 30]; [99; 33]] [3 # 4; 1 # 4] = Some out
    /\ feq (nth 0 out NaN) (Fin (1 # 80))
    /\ feq (nth 1 out NaN) (Fin (-1 # 20)).
Proof.
  destruct (proj1 calculate_portfolio_returns_weighted_sum
              [[100; 40]; [110; 30]; [99; 33]] [3 # 4; 1 # 4])
    as (out & Hout & _ & Hnth).
  - discriminate.
  - repeat constructor.
  - repeat constructor; vm_compute; discriminate.
  - exists out. split; [exact Hout|].
    injection Hout as <-. split; vm_compute; reflexivity.
Defined.

End PortfolioReturns.

(** ** Optimizer *)

Lemma np_sum_repeat (c : Q) (n : nat) :
  exists e, np_sum (repeat (Fin c) n) = Fin e /\ e == inject_Z (Z.of_nat n) * c.
Proof.
  unfold np_sum. induction n as [|n (e & IH & He)].
  - exists 0. split; [reflexivity|]. simpl. ring.
  - cbn [repeat fold_right]. rewrite IH. eexists. split; [reflexivity|].
    rewrite He, Nat2Z.inj_succ. unfold Z.succ. rewrite inject_Z_plus.
    change (inject_Z 1) with 1. ring.
Qed.

(** The equal weights are feasible: each is [1/n], between 0 and 1, and
    they sum to 1. *)
Lemma equal_weights_feasible (n : nat) :
  (0 < n)%nat ->
  equal_weights n = repeat (Fin (1 / inject_Z (Z.of_nat n))) n
  /\ Forall (fun wi => fle (Fin 0) wi = true /\ fle wi (Fin 1) = true) (equal_weights n)
  /\ exists e, sum_to_one (equal_weights n) = Fin e /\ e == 0.
Proof.
  intros Hn. destruct n as [|n]; [lia|].
  assert (Hpos : 0 < inject_Z (Z.of_nat (S n))).
  { change 0 with (inject_Z 0). rewrite <- Zlt_Qlt. lia. }
  assert (Hone : 1 <= inject_Z (Z.of_nat (S n))).
  { change 1 with (inject_Z 1). rewrite <- Zle_Qle. lia. }
  assert (Heq : equal_weights (S n) = repeat (Fin (1 / inject_Z (Z.of_nat (S n)))) (S n)).
  { unfold equal_weights, of_nat. rewrite fdiv_Fin by apply of_nat_nonzero. reflexivity. }
  split; [exact Heq|]. rewrite Heq. split.
  - apply Forall_forall. intros w Hw. apply repeat_spec in Hw. subst w.
    cbn [fle]. rewrite !Qle_bool_iff. split.
    + apply Qle_shift_div_l; [exact Hpos|]. lra.
    + apply Qle_shift_div_r; [exact Hpos|]. lra.
  - unfold sum_to_one.
    destruct (np_sum_repeat (1 / inject_Z (Z.of_nat (S n))) (S n)) as (e & -> & He).
    eexists. split; [reflexivity|]. rewrite He. field. lra.
Qed.

Lemma within_bounds_unit (x : list float64) (n : nat) :
  within_bounds x (repeat (Fin 0, Fin 1) n) ->
  Forall (fun wi => fle (Fin 0) wi = true /\ fle wi (Fin 1) = true) x
  /\ List.length x = n.
Proof.
  unfold within_bounds. revert x. induction n as [|n IH]; intros x H; simpl in H.
  - inversion H; subst. split; [constructor|reflexivity].
  - inversion H as [|xi b x' bs Hxi Hrest]; subst.
    destruct (IH x' Hrest) as [HF HL]. split; [|simpl; now rewrite HL].
    constructor; [exact Hxi|exact HF].
Qed.

Section Optimizer.

Context {L : Libm}.

Variable minimize : solver.
Variable tol : Q.
Hypothesis minimize_contract : solver_contract minimize tol.
Hypothesis tol_nonneg : 0 <= tol.

(** C5.  Given a solver that keeps its contract (on success, bounds and
    constraint hold within the tolerance), whenever [optimize_portfolio]
    returns a weight vector it has one weight per asset, every weight is
    between 0 and 1 and the weights sum to 1 within the tolerance; when the
    solver reports failure the vector is the equal weights, [1/n] for each of
    the [n] assets, and nothing is raised.  The call raises only without a
    column or for a method other than 'max_sharpe'. *)
Theorem optimize_portfolio_feasible_or_equal (prices : list (list Q)) (method : string) :
  match optimize_portfolio minimize prices method with
  | Some w =>
      Forall (fun wi => fle (Fin 0) wi = true /\ fle wi (Fin 1) = true) w
      /\ within_tolerance tol (sum_to_one w)
      /\ List.length w = num_columns prices
      /\ (result_success (solve_max_sharpe minimize prices) = false ->
          w = repeat (Fin (1 / inject_Z (Z.of_nat (num_columns prices))))
                     (num_columns prices))
  | None => method <> "max_sharpe"%string \/ num_columns prices = 0%nat
  end.
Proof.
  unfold optimize_portfolio. cbv zeta.
  destruct (num_columns prices =? 0)%nat eqn:En.
  { right. now apply Nat.eqb_eq. }
  apply Nat.eqb_neq in En.
  destruct (String.eqb method "max_sharpe") eqn:Em.
  2:{ left. now apply String.eqb_neq. }
  destruct (equal_weights_feasible (num_columns prices) ltac:(lia))
    as (Heq & Hbounds & e & He & Hzero).
  destruct (result_success (solve_max_sharpe minimize prices)) eqn:Es.
  - pose proof (minimize_contract
                  (neg_sharpe
                     (mean_returns_of (dropna_rows (pct_change (of_rows prices)))
                                      (num_columns prices))
                     (cov_matrix_of (dropna_rows (pct_change (of_rows prices)))
                                    (num_columns prices)))
                  (equal_weights (num_columns prices))
                  (repeat (Fin 0, Fin 1) (num_columns prices))
                  sum_to_one) as Hc.
    cbv zeta in Hc. fold (solve_max_sharpe minimize prices) in Hc.
    destruct (Hc Es) as [Hb Ht].
    destruct (within_bounds_unit _ _ Hb) as [HF HL].
    repeat split; try assumption. discriminate.
  - split; [exact Hbounds|]. split.
    + exists e. split; [exact He|]. rewrite Hzero. exact tol_nonneg.
    + split; [rewrite Heq; apply repeat_length|]. intros _. exact Heq.
Qed.

End Optimizer.

Lemma forallb_combine_bounds (x : list float64) (bounds : list (float64 * float64)) :
  List.length x = List.length bounds ->
  forallb (fun xb => fle (fst (snd xb)) (fst xb) && fle (fst xb) (snd (snd xb)))
          (combine x bounds) = true ->
  within_bounds x bounds.
Proof.
  unfold within_bounds. revert bounds.
  induction x as [|xi x IH]; intros [|b bounds] Hlen H; simpl in *; try discriminate.
  - constructor.
  - apply andb_true_iff in H. destruct H as [H1 H2].
    apply andb_true_iff in H1. constructor; [exact H1|].
    apply IH; [now injection Hlen|exact H2].
Qed.

Lemma start_only_solver_contract (tol : Q) : solver_contract (start_only_solver tol) tol.
Proof.
  intros f x0 bounds g. cbv zeta. unfold start_only_solver. cbn [result_success result_x].
  unfold feasible_b. intros H.
  apply andb_true_iff in H. destruct H as [H Hg].
  apply andb_true_iff in H. destruct H as [Hlen Hb].
  split.
  - apply forallb_combine_bounds; [now apply Nat.eqb_eq|exact Hb].
  - destruct (g x0) as [e| | |]; try discriminate.
    exists e. split; [reflexivity|]. now apply Qle_bool_iff.
Qed.

Lemma optimize_portfolio_feasible_or_equal_witness :
  exists w,
    optimize_portfolio (start_only_solver (1 # 1000000)) scenario_prices "max_sharpe" = Some w
    /\ Forall (fun wi => fle (Fin 0) wi = true /\ fle wi (Fin 1) = true) w
    /\ within_tolerance (1 # 1000000) (sum_to_one w)
    /\ List.length w = 2%nat.
Proof.
  pose proof (optimize_portfolio_feasible_or_equal
                (start_only_solver (1 # 1000000)) (1 # 1000000)
                (start_only_solver_contract (1 # 1000000)) ltac:(discriminate)
                scenario_prices "max_sharpe") as H.
  destruct (optimize_portfolio (start_only_solver (1 # 1000000)) scenario_prices "max_sharpe")
    as [w|] eqn:E.
  - exists w. split; [reflexivity|].
    destruct H as (H1 & H2 & H3 & _). repeat split; assumption.
  - vm_compute in E. discriminate.
Defined.

(** ** Economic regime *)

Lemma fgt_excludes_flt (x : float64) (a b : Q) :
  b <= a -> fgt x (Fin a) = true -> flt x (Fin b) = false.
Proof.
  intros Hab. unfold fgt. destruct x as [q| | |]; simpl; try discriminate; try reflexivity.
  rewrite Qlt_bool_iff, Qlt_bool_false_iff. lra.
Qed.

Lemma flt_excludes_fgt (x : float64) (a b : Q) :
  a <= b -> flt x (Fin a) = true -> fgt x (Fin b) = false.
Proof.
  intros Hab. unfold fgt. destruct x as [q| | |]; simpl; try discriminate; try reflexivity.
  rewrite Qlt_bool_iff, Qlt_bool_false_iff. lra.
Qed.

(** X1.  [interpret_economic_regime] on a dictionary: the label is decided
    by the first matching rule, and the rules before Recession and
    Overheating exclude one another, so that Goldilocks and Stagflation are
    characterised by their own condition alone, Recession by its condition
    without Stagflation's, Overheating by its condition with unemployment
    not above 5.5; every label is one of the five. *)
Theorem interpret_economic_regime_first_match (econ_data : list (string * float64)) :
  let gdp := get_default econ_data "gdp_growth" (Fin 0) in
  let inflation := get_default econ_data "inflation_cpi" (Fin 0) in
  let unemployment := get_default econ_data "unemployment" (Fin 0) in
  let label := fst (interpret_economic_regime (Some econ_data)) in
  (label = "Goldilocks"
   <-> fgt gdp (fq 20 10) && flt inflation (fq 35 10) && flt unemployment (fq 45 10) = true)
  /\ (label = "Stagflation" <-> flt gdp (fq 15 10) && fgt inflation (fq 40 10) = true)
  /\ (label = "Recession"
      <-> (flt gdp (fq 5 10) || fgt unemployment (fq 55 10))
          && negb (flt gdp (fq 15 10) && fgt inflation (fq 40 10)) = true)
  /\ (label = "Overheating"
      <-> fgt gdp (fq 30 10) && fgt inflation (fq 35 10)
          && negb (fgt unemployment (fq 55 10)) = true)
  /\ In label ["Goldilocks"; "Stagflation"; "Recession"; "Overheating"; "Moderate Growth"].
Proof.
  unfold interpret_economic_regime. cbv zeta.
  generalize (get_default econ_data "gdp_growth" (Fin 0)) as g.
  generalize (get_default econ_data "inflation_cpi" (Fin 0)) as i.
  generalize (get_default econ_data "unemployment" (Fin 0)) as u.
  intros u i g.
  pose proof (fgt_excludes_flt g (20 # 10) (15 # 10) ltac:(lra)) as H1.
  pose proof (fgt_excludes_flt g (20 # 10) (5 # 10) ltac:(lra)) as H2.
  pose proof (flt_excludes_fgt i (35 # 10) (40 # 10) ltac:(lra)) as H3.
  pose proof (flt_excludes_fgt i (35 # 10) (35 # 10) ltac:(lra)) as H4.
  pose proof (flt_excludes_fgt u (45 # 10) (55 # 10) ltac:(lra)) as H5.
  pose proof (fgt_excludes_flt g (30 # 10) (15 # 10) ltac:(lra)) as H6.
  pose proof (fgt_excludes_flt g (30 # 10) (5 # 10) ltac:(lra)) as H7.
  unfold fq in *. revert H1 H2 H3 H4 H5 H6 H7.
  destruct (fgt g (Fin (20 # 10))), (flt i (Fin (35 # 10))), (flt u (Fin (45 # 10))),
    (flt g (Fin (15 # 10))), (fgt i (Fin (40 # 10))), (flt g (Fin (5 # 10))),
    (fgt u (Fin (55 # 10))), (fgt g (Fin (30 # 10))), (fgt i (Fin (35 # 10)));
    intros H1 H2 H3 H4 H5 H6 H7; cbn [andb orb negb fst In];
    try (specialize (H1 eq_refl); discriminate H1);
    try (specialize (H2 eq_refl); discriminate H2);
    try (specialize (H3 eq_refl); discriminate H3);
    try (specialize (H4 eq_refl); discriminate H4);
    try (specialize (H5 eq_refl); discriminate H5);
    try (specialize (H6 eq_refl); discriminate H6);
    try (specialize (H7 eq_refl); discriminate H7);
    clear; repeat split; intros; try discriminate; try reflexivity; auto 6.
Qed.

(** X2.  A dictionary without the GDP entry reads GDP as 0: the label is
    Stagflation when inflation is above 4, Recession otherwise, whatever
    the other indicators say; in particular the empty dictionary is a
    Recession. *)
Theorem interpret_economic_regime_missing_gdp (econ_data : list (string * float64)) :
  dict_get "gdp_growth" econ_data = None ->
  fst (interpret_economic_regime (Some econ_data))
  = if fgt (get_default econ_data "inflation_cpi" (Fin 0)) (fq 40 10)
    then "Stagflation" else "Recession".
Proof.
  intros Hmiss. unfold interpret_economic_regime. cbv zeta.
  assert (Hg : get_default econ_data "gdp_growth" (Fin 0) = Fin 0)
    by (unfold get_default; now rewrite Hmiss).
  rewrite !Hg.
  change (fgt (Fin 0) (fq 20 10)) with false.
  change (flt (Fin 0) (fq 15 10)) with true.
  change (flt (Fin 0) (fq 5 10)) with true.
  cbn [andb orb].
  destruct (fgt (get_default econ_data "inflation_cpi" (Fin 0)) (fq 40 10)); reflexivity.
Qed.

Lemma interpret_economic_regime_missing_gdp_witness :
  fst (interpret_economic_regime
         (Some [("unemployment", fq 38 10); ("inflation_cpi", fq 28 10)]))
  = "Recession"
  /\ fst (interpret_economic_regime (Some [])) = "Recession".
Proof.
  split.
  - exact (interpret_economic_regime_missing_gdp
             [("unemployment", fq 38 10); ("inflation_cpi", fq 28 10)] eq_refl).
  - exact (interpret_economic_regime_missing_gdp [] eq_refl).
Defined.

(** ** Benchmark selection *)

Lemma existsb_perm {A : Type} (f : A -> bool) (l l' : list A) :
  Permutation l l' -> existsb f l = existsb f l'.
Proof.
  induction 1; simpl.
  - reflexivity.
  - now rewrite IHPermutation.
  - now rewrite !orb_assoc, (orb_comm (f y) (f x)).
  - congruence.
Qed.

(** X3.  [get_smart_benchmarks] returns SPY, then QQQ, IWM, VT and AGG in
    this order, each exactly when a held ticker belongs to its group; the
    symbols are distinct and there are between one and five of them. *)
Theorem get_smart_benchmarks_selection (tickers : list string) (weights : list float64) :
  let symbols := map fst (get_smart_benchmarks tickers weights) in
  symbols
  = (["SPY"]
       ++ (if holds_any tech_etfs tickers then ["QQQ"] else [])
       ++ (if holds_any small_cap_etfs tickers then ["IWM"] else [])
       ++ (if holds_any intl_etfs tickers then ["VT"] else [])
       ++ (if holds_any bond_etfs tickers then ["AGG"] else []))%list
  /\ NoDup symbols
  /\ (1 <= List.length symbols <= 5)%nat.
Proof.
  unfold get_smart_benchmarks, add_benchmark, holds_any. cbv zeta.
  destruct (existsb (fun ticker => str_in ticker tech_etfs) tickers),
    (existsb (fun ticker => str_in ticker small_cap_etfs) tickers),
    (existsb (fun ticker => str_in ticker intl_etfs) tickers),
    (existsb (fun ticker => str_in ticker bond_etfs) tickers);
    cbn; (split; [reflexivity|]); (split; [|lia]);
    repeat (constructor; [cbn; intuition discriminate|]); constructor.
Qed.

(** X4.  The selection depends on the set of held tickers only: neither
    their order nor the weights change it. *)
Theorem get_smart_benchmarks_order_irrelevant
        (tickers tickers' : list string) (weights weights' : list float64) :
  Permutation tickers tickers' ->
  get_smart_benchmarks tickers weights = get_smart_benchmarks tickers' weights'.
Proof.
  intros Hp. unfold get_smart_benchmarks, add_benchmark. cbv zeta.
  rewrite !(existsb_perm _ _ _ Hp). reflexivity.
Qed.

Lemma get_smart_benchmarks_order_irrelevant_witness :
  get_smart_benchmarks ["BND"; "QQQ"] [fq 4 10; fq 6 10]
  = get_smart_benchmarks ["QQQ"; "BND"] [fq 1 2; fq 1 2].
Proof.
  apply get_smart_benchmarks_order_irrelevant. apply perm_swap.
Defined.

(** ** Metric cards *)

Ltac case_key key :=
  repeat match goal with
         | |- context [String.eqb key ?k] =>
             let E := fresh "E" in
             destruct (String.eqb key k) eqn:E;
             [apply String.eqb_eq in E; subst key|]
         end.

(** X5.  A NaN value gets the class 'metric-poor' under each of the nine
    keys of [METRIC_EXPLANATIONS] (no comparison with NaN holds), and any
    value gets the neutral 'metric-card' under every other key. *)
Theorem get_metric_color_class_nan_poor (metric_key : string) (value : float64) :
  get_metric_color_class metric_key NaN
  = (if str_in metric_key (map fst METRIC_EXPLANATIONS) then "metric-poor" else "metric-card")
  /\ (str_in metric_key (map fst METRIC_EXPLANATIONS) = false ->
      get_metric_color_class metric_key value = "metric-card").
Proof.
  unfold get_metric_color_class, METRIC_EXPLANATIONS, str_in.
  cbn [map fst dict_get existsb].
  case_key metric_key; try (split; [reflexivity | intros H; discriminate H]).
  split; [reflexivity | intros _; reflexivity].
Qed.

Ltac fle_cases :=
  repeat match goal with
         | |- context [fle ?a ?b] =>
             let E := fresh "E" in destruct (fle a b) eqn:E
         end.

Ltac fle_contradiction H :=
  match goal with
  | E1 : fle ?t ?v = true, E2 : fle ?t ?v' = false |- _ =>
      rewrite (fle_trans _ _ _ E1 H) in E2; discriminate E2
  | E1 : fle ?v' ?t = true, E2 : fle ?v ?t = false |- _ =>
      rewrite (fle_trans _ _ _ H E1) in E2; discriminate E2
  end.

(** X6.  The class never gets worse when the value grows, for the six
    higher-is-better keys and for max_drawdown; for volatility it never
    gets better. *)
Theorem get_metric_color_class_monotone (metric_key : string) (v v' : float64) :
  fle v v' = true ->
  (str_in metric_key ["annual_return"; "sharpe_ratio"; "sortino_ratio"; "calmar_ratio";
                      "alpha"; "win_rate"; "max_drawdown"] = true ->
   (class_rank (get_metric_color_class metric_key v)
    <= class_rank (get_metric_color_class metric_key v'))%nat)
  /\ (metric_key = "volatility" ->
      (class_rank (get_metric_color_class metric_key v')
       <= class_rank (get_metric_color_class metric_key v))%nat).
Proof.
  intros Hle. split.
  - unfold str_in. cbn [existsb].
    case_key metric_key; intros Hin; try discriminate Hin;
      cbv -[fle]; fle_cases; cbv; try lia; fle_contradiction Hle.
  - intros ->. cbv -[fle]. fle_cases; cbv; try lia; fle_contradiction Hle.
Qed.

Lemma get_metric_color_class_monotone_witness :
  (class_rank (get_metric_color_class "sharpe_ratio" (fq 7 10))
   <= class_rank (get_metric_color_class "sharpe_ratio" (fq 12 10)))%nat
  /\ (class_rank (get_metric_color_class "volatility" (fq 18 1))
      <= class_rank (get_metric_color_class "volatility" (fq 12 1)))%nat.
Proof.
  split.
  - apply (get_metric_color_class_monotone "sharpe_ratio" (fq 7 10) (fq 12 10));
      reflexivity.
  - apply (get_metric_color_class_monotone "volatility" (fq 12 1) (fq 18 1));
      reflexivity.
Defined.

(** ** Overall grade *)

Lemma Qle_bool_Qeq (c x y : Q) : x == y -> Qle_bool c x = Qle_bool c y.
Proof.
  intros H. destruct (Qle_bool c y) eqn:E.
  - apply Qle_bool_iff. apply Qle_bool_iff in E. lra.
  - apply Qle_bool_false_iff. apply Qle_bool_false_iff in E. lra.
Qed.

Section OverallGrade.

Variables points weights : list (string * Q).
Variables default_points default_weight : Q.

Hypothesis points_range : forall g, 0 <= get_default points g default_points <= 4.
Hypothesis weights_pos : forall m, 0 < get_default weights m default_weight.

Let step (acc : Q * Q) (item : string * string) : Q * Q :=
  let weight := get_default weights (fst item) default_weight in
  (fst acc + get_default points (snd item) default_points * weight, snd acc + weight).

Lemma weighted_sum_bounds (grades : list (string * string)) (acc : Q * Q) :
  0 <= fst acc <= 4 * snd acc -> 0 <= snd acc ->
  let r := fold_left step grades acc in
  0 <= fst r <= 4 * snd r /\ snd acc <= snd r /\ (grades <> [] -> 0 < snd r).
Proof.
  revert acc. induction grades as [|item grades IH]; intros acc H1 H2; cbn [fold_left].
  - repeat split; try lra. intros H. now contradiction H.
  - pose proof (points_range (snd item)) as Hp.
    pose proof (weights_pos (fst item)) as Hw.
    set (p := get_default points (snd item) default_points) in *.
    set (w := get_default weights (fst item) default_weight) in *.
    assert (Hpw : 0 <= p * w) by (apply Qmult_le_0_compat; lra).
    assert (Hpw' : p * w <= 4 * w) by (apply Qmult_le_compat_r; lra).
    destruct (IH (step acc item)) as (I1 & I2 & _).
    + unfold step. cbv zeta. cbn [fst snd]. fold p w. lra.
    + unfold step. cbv zeta. cbn [fst snd]. fold w. lra.
    + split; [exact I1|]. unfold step in I2 at 1. cbv zeta in I2. cbn [fst snd] in I2.
      fold w in I2. split; [lra|]. intros _. lra.
Qed.

Lemma weighted_sum_uniform (g : string) (grades : list (string * string)) (acc : Q * Q) :
  Forall (fun item => snd item = g) grades ->
  fst acc == get_default points g default_points * snd acc ->
  let r := fold_left step grades acc in
  fst r == get_default points g default_points * snd r.
Proof.
  revert acc. induction grades as [|item grades IH]; intros acc Hall Hacc; cbn [fold_left].
  - exact Hacc.
  - inversion Hall as [|? ? Hg Hrest]; subst. apply IH; [exact Hrest|].
    unfold step. cbv zeta. cbn [fst snd]. rewrite Hacc. ring.
Qed.

End OverallGrade.

Lemma grade_points_range (g : string) :
  0 <= get_default [("A", 4); ("B", 3); ("C", 2); ("D", 1); ("F", 0); ("N/A", 2)] g 2 <= 4.
Proof.
  unfold get_default. cbn [dict_get]. case_key g; lra.
Qed.

Lemma grade_weights_pos (metric : string) :
  0 < get_default [ ("Sharpe Ratio", 25 # 100); ("Alpha", 20 # 100);
                    ("Max Drawdown", 15 # 100); ("Annual Return", 15 # 100);
                    ("Sortino Ratio", 10 # 100); ("Calmar Ratio", 5 # 100);
                    ("Volatility", 5 # 100); ("Win Rate", 3 # 100); ("Beta", 2 # 100) ]
                  metric (5 # 1000).
Proof.
  unfold get_default. cbn [dict_get]. case_key metric; lra.
Qed.

Lemma calculate_overall_grade_gpa (grades : list (string * string)) :
  exists sums : Q * Q,
    sums = fold_left
             (fun (acc : Q * Q) (item : string * string) =>
                let weight :=
                  get_default [ ("Sharpe Ratio", 25 # 100); ("Alpha", 20 # 100);
                                ("Max Drawdown", 15 # 100); ("Annual Return", 15 # 100);
                                ("Sortino Ratio", 10 # 100); ("Calmar Ratio", 5 # 100);
                                ("Volatility", 5 # 100); ("Win Rate", 3 # 100);
                                ("Beta", 2 # 100) ] (fst item) (5 # 1000) in
                (fst acc
                 + get_default [("A", 4); ("B", 3); ("C", 2); ("D", 1); ("F", 0); ("N/A", 2)]
                               (snd item) 2 * weight,
                 snd acc + weight))
             grades (0, 0)
    /\ let gpa := if Qlt_bool 0 (snd sums) then fst sums / snd sums else 2 in
       calculate_overall_grade grades
       = (if Qle_bool (35 # 10) gpa then "A"
          else if Qle_bool (25 # 10) gpa then "B"
          else if Qle_bool (15 # 10) gpa then "C"
          else if Qle_bool (5 # 10) gpa then "D"
          else "F",
          gpa).
Proof.
  eexists. split; [reflexivity|]. cbv zeta. unfold calculate_overall_grade. cbv zeta.
  repeat match goal with
         | |- context [if Qle_bool ?a ?b then _ else _] => destruct (Qle_bool a b)
         end; reflexivity.
Qed.

(** X7.  [calculate_overall_grade]: the empty dictionary gives ('C', 2.0),
    and for every dictionary the GPA lies between 0 and 4 (every metric,
    listed or not, has a positive weight). *)
Theorem calculate_overall_grade_gpa_bounds (grades : list (string * string)) :
  calculate_overall_grade [] = ("C", 2)
  /\ 0 <= snd (calculate_overall_grade grades) <= 4.
Proof.
  split; [reflexivity|].
  destruct (calculate_overall_grade_gpa grades) as (sums & Hs & Hg).
  cbv zeta in Hg. rewrite Hg. cbn [snd].
  destruct (Qlt_bool 0 (snd sums)) eqn:E; [|lra].
  apply Qlt_bool_iff in E.
  pose proof (weighted_sum_bounds _ _ _ _ grade_points_range grade_weights_pos
                                  grades (0, 0)) as Hb.
  cbv zeta in Hb, Hs. rewrite <- Hs in Hb.
  destruct Hb as ((B1 & B2) & _); cbn [fst snd]; try lra.
  split.
  - apply Qle_shift_div_l; [exact E|]. lra.
  - apply Qle_shift_div_r; [exact E|]. lra.
Qed.

(** X8.  A portfolio graded with the same letter on every metric gets
    that letter overall: A, B, C, D and F are fixed points of the weighted
    average, and any other uniform grade (such as 'N/A') counts as a C. *)
Theorem calculate_overall_grade_uniform (g : string) (grades : list (string * string)) :
  grades <> [] ->
  Forall (fun item => snd item = g) grades ->
  fst (calculate_overall_grade grades)
  = if str_in g ["A"; "B"; "D"; "F"] then g else "C".
Proof.
  intros Hne Hall.
  destruct (calculate_overall_grade_gpa grades) as (sums & Hs & Hg).
  cbv zeta in Hg. rewrite Hg. cbn [fst].
  pose proof (weighted_sum_bounds _ _ _ _ grade_points_range grade_weights_pos
                                  grades (0, 0)) as Hb.
  cbv zeta in Hb, Hs. rewrite <- Hs in Hb.
  destruct Hb as (_ & _ & Hpos); cbn [fst snd]; try lra.
  specialize (Hpos Hne).
  pose proof (weighted_sum_uniform
                [("A", 4); ("B", 3); ("C", 2); ("D", 1); ("F", 0); ("N/A", 2)]
                [ ("Sharpe Ratio", 25 # 100); ("Alpha", 20 # 100);
                  ("Max Drawdown", 15 # 100); ("Annual Return", 15 # 100);
                  ("Sortino Ratio", 10 # 100); ("Calmar Ratio", 5 # 100);
                  ("Volatility", 5 # 100); ("Win Rate", 3 # 100); ("Beta", 2 # 100) ]
                2 (5 # 1000) g grades (0, 0) Hall) as Hu.
  cbv zeta in Hu. rewrite <- Hs in Hu.
  assert (Hgpa : fst sums / snd sums
                 == get_default [("A", 4); ("B", 3); ("C", 2); ("D", 1); ("F", 0); ("N/A", 2)]
                                g 2).
  { rewrite Hu; [|cbn [fst snd]; ring]. field. lra. }
  apply Qlt_bool_iff in Hpos. rewrite Hpos.
  rewrite !(Qle_bool_Qeq _ _ _ Hgpa).
  unfold get_default, str_in. cbn [dict_get existsb]. clear.
  case_key g; reflexivity.
Qed.

Lemma calculate_overall_grade_uniform_witness :
  fst (calculate_overall_grade [("Sharpe Ratio", "B"); ("Alpha", "B"); ("Recovery", "B")])
  = "B".
Proof.
  apply (calculate_overall_grade_uniform
           "B" [("Sharpe Ratio", "B"); ("Alpha", "B"); ("Recovery", "B")]).
  - discriminate.
  - repeat constructor.
Defined.

(** ** Cheaper funds *)

Lemma fold_left_growth (a x : Q) (l : list nat) :
  feq (fold_left (fun acc i => fadd acc (fmul (Fin a) (growth_factor i))) l (Fin x))
      (Fin (x + a * sumQ (map (fun i => Qpower (1 + (8 # 100)) (20 - Z.of_nat i)) l))).
Proof.
  revert x. induction l as [|i l IH]; intros x; cbn [fold_left map].
  - cbn. ring.
  - unfold growth_factor at 1. cbn [fadd fmul].
    specialize (IH (x + a * Qpower (1 + (8 # 100)) (20 - Z.of_nat i))).
    destruct (fold_left _ l _) as [y| | |]; unfold feq in IH |- *; try contradiction.
    rewrite IH, sumQ_cons. ring.
Qed.

Lemma annuity_factor_sum :
  sumQ (map (fun i => Qpower (1 + (8 # 100)) (20 - Z.of_nat i)) (seq 0 20)) == annuity_factor.
Proof. apply Qeq_bool_iff. vm_compute. reflexivity. Qed.

Lemma annuity_factor_bounds : 49 < annuity_factor < 50.
Proof. split; apply Qlt_bool_iff; vm_compute; reflexivity. Qed.

Lemma expense_savings_values (current_ratio new_ratio portfolio_value : Q) :
  let r := calculate_expense_ratio_savings
             (Fin current_ratio) (Fin new_ratio) (Fin portfolio_value) in
  feq (annual_savings r) (Fin (portfolio_value * (current_ratio - new_ratio)))
  /\ feq (savings_20y r)
         (Fin (portfolio_value * (current_ratio - new_ratio) * annuity_factor)).
Proof.
  cbv zeta. unfold calculate_expense_ratio_savings. cbv zeta.
  cbn [annual_savings savings_20y fmul fsub fadd fopp].
  split; [cbn; ring|].
  pose proof (fold_left_growth
                (portfolio_value * current_ratio + - (portfolio_value * new_ratio))
                0 (seq 0 20)) as H.
  destruct (fold_left _ (seq 0 20) (Fin 0)) as [y| | |]; unfold feq in H |- *;
    try contradiction.
  rewrite H, annuity_factor_sum. ring.
Qed.

(** X9.  [calculate_expense_ratio_savings] on finite inputs: the annual
    savings are the position times the difference of the two ratios, and
    the 20-year figure is the annual savings times the constant
    [1.08 * (1.08^20 - 1) / 0.08], which lies between 49 and 50; a
    current ratio that is not positive gives 0 percent. *)
Theorem calculate_expense_ratio_savings_closed_form (current_ratio new_ratio portfolio_value : Q) :
  let r := calculate_expense_ratio_savings
             (Fin current_ratio) (Fin new_ratio) (Fin portfolio_value) in
  feq (annual_savings r) (Fin (portfolio_value * (current_ratio - new_ratio)))
  /\ feq (savings_20y r)
         (Fin (portfolio_value * (current_ratio - new_ratio) * annuity_factor))
  /\ 49 < annuity_factor < 50
  /\ (if Qle_bool current_ratio 0 then percent_cheaper r = Fin 0
      else feq (percent_cheaper r)
               (Fin ((current_ratio - new_ratio) / current_ratio * 100))).
Proof.
  cbv zeta.
  destruct (expense_savings_values current_ratio new_ratio portfolio_value) as (Ha & Hs).
  split; [exact Ha|]. split; [exact Hs|]. split; [exact annuity_factor_bounds|].
  unfold calculate_expense_ratio_savings. cbv zeta. cbn [percent_cheaper].
  unfold fgt. cbn [flt]. unfold Qlt_bool.
  destruct (Qle_bool current_ratio 0) eqn:E; cbn [negb]; [reflexivity|].
  apply Qle_bool_false_iff in E.
  cbn [fsub fopp fadd]. rewrite fdiv_Fin by lra. cbn [fmul feq].
  unfold Qminus. reflexivity.
Qed.

(** X10.  When the new ratio is not above the current one, the current
    ratio is positive and the new ratio and the position are not negative,
    the savings are not negative, the 20-year figure is at least the annual
    one, and the percentage lies between 0 and 100. *)
Theorem calculate_expense_ratio_savings_cheaper (current_ratio new_ratio portfolio_value : Q) :
  0 <= new_ratio -> new_ratio <= current_ratio -> 0 < current_ratio ->
  0 <= portfolio_value ->
  let r := calculate_expense_ratio_savings
             (Fin current_ratio) (Fin new_ratio) (Fin portfolio_value) in
  fle (Fin 0) (annual_savings r) = true
  /\ fle (annual_savings r) (savings_20y r) = true
  /\ fle (Fin 0) (percent_cheaper r) = true
  /\ fle (percent_cheaper r) (Fin 100) = true.
Proof.
  intros Hn Hle Hc Hpv.
  destruct (expense_savings_values current_ratio new_ratio portfolio_value) as (Ha & Hs).
  destruct annuity_factor_bounds as (Hk1 & Hk2).
  cbv zeta in *.
  set (r := calculate_expense_ratio_savings _ _ _) in *.
  assert (Hnn : 0 <= portfolio_value * (current_ratio - new_ratio))
    by (apply Qmult_le_0_compat; lra).
  destruct (feq_Fin_inv _ _ Ha) as (a & Ea & Eqa).
  destruct (feq_Fin_inv _ _ Hs) as (s & Es & Eqs).
  rewrite Ea, Es. cbn [fle].
  split; [apply Qle_bool_iff; lra|].
  split.
  { apply Qle_bool_iff. rewrite Eqa, Eqs.
    set (x := portfolio_value * (current_ratio - new_ratio)) in *.
    assert (1 * x <= annuity_factor * x) by (apply Qmult_le_compat_r; lra).
    lra. }
  subst r. unfold calculate_expense_ratio_savings. cbv zeta. cbn [percent_cheaper].
  assert (Hg : fgt (Fin current_ratio) (Fin 0) = true)
    by (unfold fgt; cbn; now apply Qlt_bool_iff).
  rewrite Hg. cbn [fsub fopp fadd].
  rewrite fdiv_Fin by lra. cbn [fmul fle].
  assert (Hq : 0 <= (current_ratio + - new_ratio) / current_ratio <= 1).
  { split.
    - apply Qle_shift_div_l; [exact Hc|]. lra.
    - apply Qle_shift_div_r; [exact Hc|]. lra. }
  split; apply Qle_bool_iff; lra.
Qed.

Lemma calculate_expense_ratio_savings_cheaper_witness :
  let r := calculate_expense_ratio_savings (fq 9 10000) (fq 3 10000) (fq 100000 1) in
  fle (Fin 0) (annual_savings r) = true
  /\ fle (annual_savings r) (savings_20y r) = true
  /\ fle (Fin 0) (percent_cheaper r) = true
  /\ fle (percent_cheaper r) (Fin 100) = true.
Proof.
  apply (calculate_expense_ratio_savings_cheaper (9 # 10000) (3 # 10000) (100000 # 1));
    unfold Qle, Qlt; simpl; lia.
Defined.




(** ** Metric cards over the computed metrics *)

Lemma inject_nat_le (a b : nat) :
  (a <= b)%nat -> inject_Z (Z.of_nat a) <= inject_Z (Z.of_nat b).
Proof. intros H. unfold Qle. simpl. lia. Qed.

Lemma inject_nat_pos (n : nat) : (0 < n)%nat -> 0 < inject_Z (Z.of_nat n).
Proof. intros H. unfold Qlt. simpl. lia. Qed.

Lemma filter_length_le {A : Type} (f : A -> bool) (l : list A) :
  (List.length (filter f l) <= List.length l)%nat.
Proof.
  induction l as [|x l IH]; simpl; [lia|]. destruct (f x); simpl; lia.
Qed.

(** A count of observations over their number is a fraction. *)
Lemma count_fraction (cond : float64 -> bool) (s : series) :
  s <> [] ->
  exists w, fdiv (count_where cond s) (of_nat (List.length s)) = Fin w /\ 0 <= w <= 1.
Proof.
  intros Hne. unfold count_where, of_nat.
  assert (Hn : (0 < List.length s)%nat) by (destruct s; [contradiction|simpl; lia]).
  pose proof (inject_nat_pos _ Hn) as Hpos.
  pose proof (inject_nat_le _ _ (filter_length_le cond s)) as Hle.
  assert (H0 : 0 <= inject_Z (Z.of_nat (List.length (filter cond s))))
    by (unfold Qle; simpl; lia).
  rewrite fdiv_Fin by lra.
  eexists. split; [reflexivity|]. split.
  - apply Qle_shift_div_l; [exact Hpos|]. lra.
  - apply Qle_shift_div_r; [exact Hpos|]. lra.
Qed.

Lemma series_min_In (s : series) :
  dropna s <> [] -> In (series_min s) (dropna s).
Proof.
  unfold series_min. destruct (dropna s) as [|x rest]; [intros H; now contradiction H|].
  intros _. revert x. induction rest as [|y rest IH]; intros x; cbn [fold_left].
  - now left.
  - destruct (IH (fmin2 x y)) as [H|H].
    + rewrite <- H. unfold fmin2. destruct (flt y x); [right; left|left]; reflexivity.
    + right. right. exact H.
Qed.

Lemma drawdown_range (l : list Q) (acc : Q) (cur : float64) :
  0 < acc ->
  cur = NaN \/ (exists c, cur = Fin c /\ 0 < c) ->
  Forall (fun r => -1 < r) l ->
  let cum := cumprod_from (Fin acc) (map (fun r => fadd (Fin 1) r) (of_values l)) in
  let running_max := expanding_max_from cur cum in
  Forall (fun a => exists x, a = Fin x /\ -1 < x /\ x <= 0)
         (map2 fdiv (map2 fsub cum running_max) running_max).
Proof.
  revert acc cur. induction l as [|r l IH]; intros acc cur Hacc Hcur Hall; cbv zeta.
  - constructor.
  - inversion Hall as [|? ? Hr Hrest]; subst.
    cbn [of_values map cumprod_from fadd isnan fmul expanding_max_from].
    assert (Hcum : 0 < acc * (1 + r)) by (apply Qmult_lt_0_compat; lra).
    set (cum := acc * (1 + r)) in *.
    assert (Hmax : exists c, (if isnan cur then Fin cum else fmax2 cur (Fin cum)) = Fin c
                             /\ cum <= c).
    { destruct Hcur as [->|(c & -> & Hc)]; cbn [isnan].
      - exists cum. split; [reflexivity|lra].
      - unfold fmax2. cbn [flt]. destruct (Qlt_bool c cum) eqn:E.
        + exists cum. split; [reflexivity|lra].
        + exists c. split; [reflexivity|]. now apply Qlt_bool_false_iff. }
    destruct Hmax as (c & Ec & Hc).
    rewrite !Ec. cbn [map2 fsub fopp fadd]. constructor.
    + rewrite fdiv_Fin by lra. eexists. split; [reflexivity|]. split.
      * apply Qlt_shift_div_l; lra.
      * apply Qle_shift_div_r; lra.
    + apply (IH cum (Fin c)); [exact Hcum| |exact Hrest].
      right. exists c. split; [reflexivity|lra].
Qed.

Section MetricCards.

Context {L : Libm}.

Lemma win_rate_eq (returns : list Q) (rf : Q) (m : portfolio_metrics) :
  calculate_portfolio_metrics returns rf = Some m ->
  win_rate m = fdiv (count_where (fun r => fgt r (Fin 0)) (of_values returns))
                    (of_nat (List.length (of_values returns))).
Proof.
  unfold calculate_portfolio_metrics. cbv zeta.
  destruct (List.length (of_values returns) =? 0)%nat; [discriminate|].
  intros H. injection H as <-. reflexivity.
Qed.

Lemma metrics_nonempty (returns : list Q) (rf : Q) (m : portfolio_metrics) :
  calculate_portfolio_metrics returns rf = Some m -> of_values returns <> [].
Proof.
  unfold calculate_portfolio_metrics. cbv zeta.
  destruct returns; [discriminate|]. intros _. discriminate.
Qed.

(** X12.  The Win Rate of [calculate_portfolio_metrics] is a fraction
    between 0 and 1, while the card thresholds of 'win_rate' are 65, 55 and
    50: the card of every computed Win Rate has the class 'metric-poor'. *)
Theorem win_rate_card_always_poor (returns : list Q) (rf : Q) (m : portfolio_metrics) :
  calculate_portfolio_metrics returns rf = Some m ->
  (exists w, win_rate m = Fin w /\ 0 <= w <= 1)
  /\ get_metric_color_class "win_rate" (win_rate m) = "metric-poor".
Proof.
  intros Hm. rewrite (win_rate_eq _ _ _ Hm).
  destruct (count_fraction (fun r => fgt r (Fin 0)) _ (metrics_nonempty _ _ _ Hm))
    as (w & -> & Hw).
  split; [now exists w|].
  cbv -[Qle_bool].
  assert (E1 : Qle_bool (65 # 1) w = false) by (apply Qle_bool_false_iff; lra).
  assert (E2 : Qle_bool (55 # 1) w = false) by (apply Qle_bool_false_iff; lra).
  assert (E3 : Qle_bool (50 # 1) w = false) by (apply Qle_bool_false_iff; lra).
  rewrite E1, E2, E3. reflexivity.
Qed.

(** X13.  When every return is above -100%, the Max Drawdown of
    [calculate_portfolio_metrics] is a fraction between -1 and 0; the card
    thresholds of 'max_drawdown' are -10, -20 and -30, so its card has the
    class 'metric-excellent' whatever the drawdown. *)
Theorem max_drawdown_card_always_excellent
        (returns : list Q) (rf : Q) (m : portfolio_metrics) :
  calculate_portfolio_metrics returns rf = Some m ->
  Forall (fun r => -1 < r) returns ->
  (exists d, max_drawdown m = Fin d /\ -1 <= d /\ d <= 0)
  /\ get_metric_color_class "max_drawdown" (max_drawdown m) = "metric-excellent".
Proof.
  intros Hm Hall. rewrite (max_drawdown_eq _ _ _ Hm).
  pose proof (drawdown_range returns 1 NaN ltac:(lra) (or_introl eq_refl) Hall) as Hr.
  cbv zeta in Hr. fold (cumprod (map (fun r => fadd (Fin 1) r) (of_values returns))) in Hr.
  fold (expanding_max (cumprod (map (fun r => fadd (Fin 1) r) (of_values returns)))) in Hr.
  fold (drawdown_series (of_values returns)) in Hr.
  assert (Hdrop : dropna (drawdown_series (of_values returns))
                  = drawdown_series (of_values returns)).
  { unfold dropna. apply forallb_filter_id. apply forallb_forall.
    intros a Ha. rewrite Forall_forall in Hr. destruct (Hr a Ha) as (x & -> & _).
    reflexivity. }
  assert (Hne : dropna (drawdown_series (of_values returns)) <> []).
  { rewrite Hdrop. intros E. apply (f_equal (@List.length _)) in E.
    rewrite drawdown_series_length in E. apply (metrics_nonempty _ _ _ Hm).
    now apply length_zero_iff_nil. }
  pose proof (series_min_In _ Hne) as Hin. rewrite Hdrop in Hin.
  rewrite Forall_forall in Hr. destruct (Hr _ Hin) as (d & -> & Hd1 & Hd2).
  split; [exists d; split; [reflexivity|split; lra]|].
  cbv -[Qle_bool].
  assert (E1 : Qle_bool (-10 # 1) d = true) by (apply Qle_bool_iff; lra).
  rewrite E1. reflexivity.
Qed.

End MetricCards.

Lemma win_rate_card_always_poor_witness :
  exists m, calculate_portfolio_metrics [1 # 100; 2 # 100; 1 # 100] (2 # 100) = Some m
            /\ win_rate m = Fin (3 / 3)
            /\ get_metric_color_class "win_rate" (win_rate m) = "metric-poor".
Proof.
  destruct (calculate_portfolio_metrics [1 # 100; 2 # 100; 1 # 100] (2 # 100))
    as [m|] eqn:E; [|discriminate E].
  exists m. split; [reflexivity|]. split.
  - rewrite (win_rate_eq _ _ _ E). reflexivity.
  - exact (proj2 (win_rate_card_always_poor _ _ _ E)).
Defined.

Lemma max_drawdown_card_always_excellent_witness :
  exists m, calculate_portfolio_metrics [1 # 10; -1 # 2; -1 # 2] (2 # 100) = Some m
            /\ feq (max_drawdown m) (Fin (-3 # 4))
            /\ get_metric_color_class "max_drawdown" (max_drawdown m) = "metric-excellent".
Proof.
  destruct (calculate_portfolio_metrics [1 # 10; -1 # 2; -1 # 2] (2 # 100))
    as [m|] eqn:E; [|discriminate E].
  exists m. split; [reflexivity|]. split.
  - rewrite (max_drawdown_eq _ _ _ E). vm_compute. reflexivity.
  - refine (proj2 (max_drawdown_card_always_excellent _ _ _ E _)).
    repeat constructor.
Defined.

(** ** The last entry of derived series *)

Lemma iloc_last_nth_error (s : series) :
  iloc_neg 1 s = if (List.length s =? 0)%nat then None
                 else nth_error s (List.length s - 1).
Proof.
  unfold iloc_neg. cbn [Nat.eqb orb].
  destruct s as [|x s]; [reflexivity|]. cbn [List.length Nat.eqb].
  replace (S (List.length s) <? 1)%nat with false
    by (symmetry; apply Nat.ltb_ge; lia).
  reflexivity.
Qed.

Lemma nth_error_map2 {A B C : Type} (f : A -> B -> C) (l1 : list A) (l2 : list B) (i : nat) :
  nth_error (map2 f l1 l2) i
  = match nth_error l1 i, nth_error l2 i with
    | Some a, Some b => Some (f a b)
    | _, _ => None
    end.
Proof.
  revert l2 i. induction l1 as [|a l1 IH]; intros l2 i.
  - destruct i; reflexivity.
  - destruct l2 as [|b l2].
    + cbn [map2]. destruct (nth_error (a :: l1) i); destruct i; reflexivity.
    + destruct i; cbn [map2 nth_error]; [reflexivity|apply IH].
Qed.

Lemma iloc_last_map (f : float64 -> float64) (s : series) :
  iloc_neg 1 (map f s) = option_map f (iloc_neg 1 s).
Proof.
  rewrite !iloc_last_nth_error, length_map.
  destruct (List.length s =? 0)%nat; [reflexivity|].
  apply nth_error_map.
Qed.

Lemma iloc_last_map2 (f : float64 -> float64 -> float64) (a b : series) :
  List.length a = List.length b ->
  iloc_neg 1 (map2 f a b)
  = match iloc_neg 1 a, iloc_neg 1 b with
    | Some x, Some y => Some (f x y)
    | _, _ => None
    end.
Proof.
  intros Hlen. rewrite !iloc_last_nth_error, map2_length, <- Hlen, Nat.min_id.
  destruct (List.length a =? 0)%nat; [reflexivity|].
  apply nth_error_map2.
Qed.

Lemma iloc_last_of_values (l : list Q) :
  l <> [] -> iloc_neg 1 (of_values l) = Some (Fin (nth (List.length l - 1) l 0)).
Proof.
  intros Hne. rewrite iloc_last_nth_error. unfold of_values. rewrite length_map.
  destruct l as [|x l]; [contradiction|]. cbn [List.length Nat.eqb].
  rewrite nth_error_map.
  rewrite (nth_error_nth' (x :: l) 0) by (cbn [List.length]; lia).
  reflexivity.
Qed.

(** The rolling statistic at the last date is the statistic of the last
    [w] values, and NaN when there are fewer. *)
Lemma rolling_last (stat : series -> float64) (w : nat) (l : list Q) :
  (1 <= w)%nat -> (w <= List.length l)%nat ->
  iloc_neg 1 (rolling stat w (of_values l))
  = Some (stat (of_values (skipn (List.length l - w) l))).
Proof.
  intros H1 Hw. rewrite iloc_last_nth_error, rolling_length.
  unfold of_values at 1 2. rewrite length_map.
  replace (List.length l =? 0)%nat with false by (symmetry; apply Nat.eqb_neq; lia).
  unfold rolling. rewrite nth_error_map.
  unfold of_values at 1. rewrite length_map.
  rewrite (nth_error_nth' (seq 0 (List.length l)) 0%nat) by (rewrite length_seq; lia).
  rewrite seq_nth by lia. cbn [option_map Nat.add]. cbv zeta.
  unfold window.
  replace (List.length l - 1 + 1)%nat with (List.length l) by lia.
  rewrite firstn_all2 by (unfold of_values; rewrite length_map; lia).
  unfold of_values. rewrite skipn_map. fold (of_values (skipn (List.length l - w) l)).
  rewrite series_count_of_values, length_skipn.
  replace (List.length l - (List.length l - w) <? w)%nat with false
    by (symmetry; apply Nat.ltb_ge; lia).
  reflexivity.
Qed.

Lemma rolling_last_short (stat : series -> float64) (w : nat) (s : series) :
  s <> [] -> (List.length s < w)%nat ->
  iloc_neg 1 (rolling stat w s) = Some NaN.
Proof.
  intros Hne Hw. rewrite iloc_last_nth_error, rolling_length.
  assert (Hn : (0 < List.length s)%nat) by (destruct s; [contradiction|simpl; lia]).
  replace (List.length s =? 0)%nat with false by (symmetry; apply Nat.eqb_neq; lia).
  rewrite (nth_error_nth' _ NaN) by (rewrite rolling_length; lia).
  rewrite rolling_insufficient_history by lia. reflexivity.
Qed.

(** The least and the greatest of finite values. *)
Lemma fold_fmin2_of_values (l : list Q) (x : Q) :
  exists m, fold_left fmin2 (of_values l) (Fin x) = Fin m
            /\ m <= x /\ Forall (fun y => m <= y) l /\ In m (x :: l).
Proof.
  revert x. induction l as [|y l IH]; intros x; cbn [of_values map fold_left].
  - exists x. split; [reflexivity|]. split; [lra|]. split; [constructor|now left].
  - unfold fmin2 at 2. cbn [flt]. destruct (Qlt_bool y x) eqn:E.
    + apply Qlt_bool_iff in E. destruct (IH y) as (m & Hm & H1 & H2 & H3).
      exists m. split; [exact Hm|]. split; [lra|]. split; [constructor; assumption|].
      right. exact H3.
    + apply Qlt_bool_false_iff in E. destruct (IH x) as (m & Hm & H1 & H2 & H3).
      exists m. split; [exact Hm|]. split; [lra|]. split; [constructor; [lra|assumption]|].
      destruct H3 as [H3|H3]; [now left|right; now right].
Qed.

Lemma fold_fmax2_of_values (l : list Q) (x : Q) :
  exists m, fold_left fmax2 (of_values l) (Fin x) = Fin m
            /\ x <= m /\ Forall (fun y => y <= m) l /\ In m (x :: l).
Proof.
  revert x. induction l as [|y l IH]; intros x; cbn [of_values map fold_left].
  - exists x. split; [reflexivity|]. split; [lra|]. split; [constructor|now left].
  - unfold fmax2 at 2. cbn [flt]. destruct (Qlt_bool x y) eqn:E.
    + apply Qlt_bool_iff in E. destruct (IH y) as (m & Hm & H1 & H2 & H3).
      exists m. split; [exact Hm|]. split; [lra|]. split; [constructor; assumption|].
      right. exact H3.
    + apply Qlt_bool_false_iff in E. destruct (IH x) as (m & Hm & H1 & H2 & H3).
      exists m. split; [exact Hm|]. split; [lra|]. split; [constructor; [lra|assumption]|].
      destruct H3 as [H3|H3]; [now left|right; now right].
Qed.

Lemma series_extrema (l : list Q) :
  l <> [] ->
  exists lo hi, series_min (of_values l) = Fin lo /\ series_max (of_values l) = Fin hi
                /\ Forall (fun y => lo <= y <= hi) l /\ In lo l /\ In hi l.
Proof.
  intros Hne. unfold series_min, series_max. rewrite dropna_of_values.
  destruct l as [|x l]; [contradiction|]. cbn [of_values map].
  destruct (fold_fmin2_of_values l x) as (lo & Hlo & L1 & L2 & L3).
  destruct (fold_fmax2_of_values l x) as (hi & Hhi & H1 & H2 & H3).
  exists lo, hi. unfold of_values in Hlo, Hhi. rewrite Hlo, Hhi.
  split; [reflexivity|]. split; [reflexivity|].
  split; [|split; assumption].
  constructor; [lra|]. rewrite Forall_forall in *. intros y Hy.
  specialize (L2 y Hy). specialize (H2 y Hy). lra.
Qed.

(** ** Support and resistance *)

Ltac series_lengths :=
  repeat rewrite ?map2_length, ?length_map, ?rolling_length; lia.

Ltac last_entries :=
  repeat first [ rewrite iloc_last_map
               | rewrite iloc_last_map2 by series_lengths ].

Lemma In_skipn_In {A : Type} (l : list A) (k : nat) (x : A) :
  In x (skipn k l) -> In x l.
Proof.
  revert l. induction k as [|k IH]; intros [|y l] Hx; cbn [skipn] in Hx;
    try exact Hx. right. now apply IH.
Qed.

Lemma In_skipn_more {A : Type} (l : list A) (a b : nat) (x : A) :
  (b <= a)%nat -> In x (skipn a l) -> In x (skipn b l).
Proof.
  intros Hab Hx. replace a with ((a - b) + b)%nat in Hx by lia.
  rewrite <- skipn_skipn in Hx. exact (In_skipn_In _ _ _ Hx).
Qed.

(** X14.  With at least three finite prices the five pivot levels are
    finite, the pivot lies between support 2 and resistance 2, and
    support 1 is not above resistance 1; when the window is between 1 and
    the number of prices, the recent low is not above the recent high. *)
Theorem calculate_support_resistance_levels_ordered (prices : list Q) (window : nat) :
  (3 <= List.length prices)%nat ->
  exists r,
    calculate_support_resistance (of_values prices) window = Some r
    /\ fle (support_2 r) (pivot r) = true
    /\ fle (pivot r) (resistance_2 r) = true
    /\ fle (support_1 r) (resistance_1 r) = true
    /\ ((1 <= window <= List.length prices)%nat ->
        fle (recent_low r) (recent_high r) = true).
Proof.
  intros Hn. unfold calculate_support_resistance. cbv zeta.
  assert (Hne : prices <> []) by (intros ->; simpl in Hn; lia).
  assert (Hlen : List.length (of_values prices) = List.length prices)
    by (unfold of_values; apply length_map).
  pose proof (rolling_last series_max 3 prices ltac:(lia) Hn) as Hh.
  pose proof (rolling_last series_min 3 prices ltac:(lia) Hn) as Hl.
  pose proof (iloc_last_of_values prices Hne) as Hc.
  set (last3 := skipn (List.length prices - 3) prices) in *.
  assert (H3 : List.length last3 = 3%nat) by (unfold last3; rewrite length_skipn; lia).
  destruct (series_extrema last3) as (lo & hi & Elo & Ehi & Hall & Hlo_in & _).
  { intros E. rewrite E in H3. discriminate H3. }
  set (c := nth (List.length prices - 1) prices 0) in *.
  rewrite Forall_forall in Hall. pose proof (Hall lo Hlo_in) as Hlohi.
  rewrite Elo in Hl. rewrite Ehi in Hh.
  destruct (iloc_neg_last_length (rolling series_max window (of_values prices))
              ltac:(rewrite rolling_length; lia)) as (rh & Erh).
  destruct (iloc_neg_last_length (rolling series_min window (of_values prices))
              ltac:(rewrite rolling_length; lia)) as (rl & Erl).
  last_entries.
  rewrite Hh, Hl, Hc, Erh, Erl.
  cbn [option_map fadd fsub fopp fmul].
  rewrite !fdiv_Fin by lra.
  cbn [fadd fsub fopp fmul].
  eexists. split; [reflexivity|].
  cbn [support_2 support_1 pivot resistance_1 resistance_2 recent_low recent_high fle].
  set (p := (hi + lo + c) / 3).
  repeat (split; [apply Qle_bool_iff; lra|]).
  intros (Hw1 & Hw2).
  rewrite (rolling_last series_max window prices Hw1 Hw2) in Erh.
  rewrite (rolling_last series_min window prices Hw1 Hw2) in Erl.
  set (lastw := skipn (List.length prices - window) prices) in *.
  assert (Hwne : lastw <> []).
  { intros E. apply (f_equal (@List.length _)) in E. unfold lastw in E.
    rewrite length_skipn in E. simpl in E. lia. }
  destruct (series_extrema lastw Hwne) as (wlo & whi & Ewlo & Ewhi & Hwall & Hwlo_in & _).
  rewrite Ewhi in Erh. rewrite Ewlo in Erl.
  injection Erh as <-. injection Erl as <-.
  rewrite Forall_forall in Hwall. pose proof (Hwall wlo Hwlo_in) as B.
  cbn [fle]. apply Qle_bool_iff. lra.
Qed.

Lemma calculate_support_resistance_levels_ordered_witness :
  exists r,
    calculate_support_resistance (of_values [10; 12; 11; 13]) 4 = Some r
    /\ fle (support_2 r) (pivot r) = true
    /\ fle (pivot r) (resistance_2 r) = true
    /\ fle (support_1 r) (resistance_1 r) = true
    /\ fle (recent_low r) (recent_high r) = true.
Proof.
  destruct (calculate_support_resistance_levels_ordered [10; 12; 11; 13] 4)
    as (r & E & H1 & H2 & H3 & H4); [simpl; lia|].
  exists r. split; [exact E|].
  split; [exact H1|]. split; [exact H2|]. split; [exact H3|].
  apply H4. simpl. lia.
Defined.

(** X15.  [calculate_support_resistance] raises exactly on the empty
    series; with one or two prices the five pivot levels are NaN, and with
    fewer prices than the window the recent high and low are NaN. *)
Theorem calculate_support_resistance_short_history (prices : series) (window : nat) :
  match calculate_support_resistance prices window with
  | None => prices = []
  | Some r =>
      prices <> []
      /\ ((List.length prices < 3)%nat ->
          pivot r = NaN /\ resistance_1 r = NaN /\ resistance_2 r = NaN
          /\ support_1 r = NaN /\ support_2 r = NaN)
      /\ ((List.length prices < window)%nat -> recent_high r = NaN /\ recent_low r = NaN)
  end.
Proof.
  destruct prices as [|x prices]; [reflexivity|].
  assert (Hne : x :: prices <> []) by discriminate.
  set (ps := x :: prices) in *.
  assert (Hpos : (0 < List.length ps)%nat) by (unfold ps; simpl; lia).
  unfold calculate_support_resistance. cbv zeta.
  destruct (iloc_neg_last_length (rolling series_max window ps)
              ltac:(rewrite rolling_length; lia)) as (rh & Erh).
  destruct (iloc_neg_last_length (rolling series_min window ps)
              ltac:(rewrite rolling_length; lia)) as (rl & Erl).
  destruct (iloc_neg_last_length (rolling series_max 3 ps)
              ltac:(rewrite rolling_length; lia)) as (h & Eh).
  destruct (iloc_neg_last_length (rolling series_min 3 ps)
              ltac:(rewrite rolling_length; lia)) as (l & El).
  destruct (iloc_neg_last_length ps Hpos) as (c & Ec).
  last_entries.
  rewrite Eh, El, Ec, Erh, Erl. cbn [option_map].
  split; [exact Hne|].
  cbn [support_2 support_1 pivot resistance_1 resistance_2 recent_low recent_high].
  split.
  - intros Hshort.
    rewrite (rolling_last_short series_max 3 ps Hne Hshort) in Eh.
    rewrite (rolling_last_short series_min 3 ps Hne Hshort) in El.
    injection Eh as <-. injection El as <-.
    repeat split; reflexivity.
  - intros Hshort.
    rewrite (rolling_last_short series_max window ps Hne Hshort) in Erh.
    rewrite (rolling_last_short series_min window ps Hne Hshort) in Erl.
    injection Erh as <-. injection Erl as <-.
    split; reflexivity.
Qed.

(** ** Percentile ranking: range *)

(** X16.  The percentile ranking is at least 0 and always below 100: the
    portfolio's own Sharpe ratio is in the list it is ranked against and
    never exceeds itself; a NaN Sharpe ratio ranks at 0. *)
Theorem percentile_ranking_below_100 (p : float64) (bs : list float64) :
  0 <= percentile_ranking p bs
  /\ percentile_ranking p bs < 100
  /\ percentile_ranking NaN bs == 0.
Proof.
  assert (Hgen : forall q, 0 <= percentile_ranking q bs /\ percentile_ranking q bs < 100).
  { intros q. unfold percentile_ranking. cbv zeta.
    rewrite better_than_count_self. unfold better_count. cbn [List.length].
    pose proof (inject_nat_le _ _ (filter_length_le (fun s => fgt q s) bs)) as Hle.
    assert (H0 : 0 <= inject_Z (Z.of_nat (List.length (filter (fun s => fgt q s) bs))))
      by (unfold Qle; simpl; lia).
    assert (Hn : inject_Z (Z.of_nat (S (List.length bs)))
                 == inject_Z (Z.of_nat (List.length bs)) + 1).
    { rewrite Nat2Z.inj_succ. unfold Z.succ. rewrite inject_Z_plus. reflexivity. }
    assert (Hpos : 0 < inject_Z (Z.of_nat (S (List.length bs))))
      by (apply inject_nat_pos; lia).
    set (k := inject_Z (Z.of_nat (List.length (filter (fun s => fgt q s) bs)))) in *.
    set (n := inject_Z (Z.of_nat (S (List.length bs)))) in *.
    assert (Hq0 : 0 <= k / n) by (apply Qle_shift_div_l; [exact Hpos|lra]).
    assert (Hq1 : k / n < 1) by (apply Qlt_shift_div_r; [exact Hpos|lra]).
    split; lra. }
  destruct (Hgen p) as (H1 & H2). split; [exact H1|]. split; [exact H2|].
  unfold percentile_ranking. cbv zeta. rewrite better_than_count_self.
  unfold better_count.
  replace (filter (fun s => fgt NaN s) bs) with (@nil float64).
  - cbn [List.length]. unfold Qdiv. change (inject_Z (Z.of_nat 0)) with 0. ring.
  - symmetry. apply filter_none. apply Forall_forall. intros s _.
    unfold fgt. now destruct s.
Qed.

(** ** Grading a NaN *)

(** X17.  [grade_metric] grades a NaN value 'F' under each of the twelve
    metric names of its table (no band holds a NaN), and 'N/A' under any
    other name. *)
Theorem grade_metric_nan_fails (metric_name : string) :
  fst (grade_metric metric_name NaN)
  = if str_in metric_name (map fst grading_criteria) then "F" else "N/A".
Proof.
  unfold grade_metric, grading_criteria, str_in.
  cbn [map fst dict_get existsb].
  case_key metric_name; reflexivity.
Qed.

Section DerivedMetrics.

Context {L : Libm}.

Lemma filter_negative_of_values (l : list Q) :
  filter (fun r => flt r (Fin 0)) (of_values l)
  = of_values (filter (fun r => Qlt_bool r 0) l).
Proof.
  induction l as [|x l IH]; [reflexivity|].
  cbn [of_values map filter flt]. fold (of_values l).
  destruct (Qlt_bool x 0); cbn [map]; now rewrite IH.
Qed.

(** X18.  A return series with at most one losing day has a NaN Sortino
    Ratio (the standard deviation of fewer than two losses is NaN and the
    guard [downside_std != 0] lets it through); [grade_metric] grades it
    'F' and its card has the class 'metric-poor'. *)
Theorem sortino_without_losses_graded_F
        (returns : list Q) (rf : Q) (m : portfolio_metrics) :
  calculate_portfolio_metrics returns rf = Some m ->
  (List.length (filter (fun r => Qlt_bool r 0) returns) <= 1)%nat ->
  sortino_ratio m = NaN
  /\ fst (grade_metric "Sortino Ratio" (sortino_ratio m)) = "F"
  /\ get_metric_color_class "sortino_ratio" (sortino_ratio m) = "metric-poor".
Proof.
  intros Hm Hfew.
  assert (Hs : sortino_ratio m = NaN).
  { apply (sortino_nan_without_downside returns rf m Hm).
    rewrite filter_negative_of_values. unfold of_values. now rewrite length_map. }
  rewrite Hs. repeat split; reflexivity.
Qed.

(** X19.  For a non-empty return series, VaR (99%) is not above VaR
    (95%) and not below the worst return, the probability of a daily loss
    is a fraction between 0 and 1, and the estimated maximum drawdown and
    the expected volatility are the Max Drawdown and the Annual Volatility
    that [calculate_portfolio_metrics] computes on the same series. *)
Theorem forward_risk_var_levels_ordered (returns : list Q) (confidence_level : Q) :
  returns <> [] ->
  let f := calculate_forward_risk_metrics returns confidence_level in
  fle (var_99 f) (var_95 f) = true
  /\ (exists worst, In worst returns /\ fle (Fin worst) (var_99 f) = true)
  /\ (exists p, probability_of_daily_loss f = Fin p /\ 0 <= p <= 1)
  /\ (forall rf m, calculate_portfolio_metrics returns rf = Some m ->
                   estimated_max_drawdown f = max_drawdown m
                   /\ expected_volatility f = annual_volatility m).
Proof.
  intros Hne. cbv zeta. unfold calculate_forward_risk_metrics. cbv zeta.
  cbn [var_99 var_95 probability_of_daily_loss estimated_max_drawdown expected_volatility].
  destruct (quantile_spec returns (1 - (99 # 100)) (1 - (95 # 100)) Hne
                          ltac:(lra) ltac:(lra) ltac:(lra))
    as (v1 & v2 & x0 & E1 & E2 & Hin & Hx0 & Hv & _).
  rewrite E1, E2. cbn [fle].
  split; [now apply Qle_bool_iff|].
  split; [exists x0; split; [exact Hin | now apply Qle_bool_iff]|].
  split.
  - apply count_fraction. destruct returns; [contradiction|discriminate].
  - intros rf m Hm.
    rewrite (max_drawdown_eq _ _ _ Hm), (annual_volatility_eq _ _ _ Hm).
    split; reflexivity.
Qed.

End DerivedMetrics.

Lemma sortino_without_losses_graded_F_witness :
  exists m, calculate_portfolio_metrics [1 # 100; 2 # 100; -1 # 100; 3 # 100] (2 # 100) = Some m
            /\ sortino_ratio m = NaN
            /\ fst (grade_metric "Sortino Ratio" (sortino_ratio m)) = "F"
            /\ get_metric_color_class "sortino_ratio" (sortino_ratio m) = "metric-poor".
Proof.
  destruct (calculate_portfolio_metrics [1 # 100; 2 # 100; -1 # 100; 3 # 100] (2 # 100))
    as [m|] eqn:E; [|discriminate E].
  exists m. split; [reflexivity|].
  apply (sortino_without_losses_graded_F _ _ _ E). simpl. lia.
Defined.

Lemma forward_risk_var_levels_ordered_witness :
  let f := calculate_forward_risk_metrics [3 # 100; -1 # 100; 2 # 100; -4 # 100] (95 # 100) in
  fle (var_99 f) (var_95 f) = true
  /\ fle (Fin (-4 # 100)) (var_99 f) = true.
Proof.
  destruct (forward_risk_var_levels_ordered [3 # 100; -1 # 100; 2 # 100; -4 # 100] (95 # 100))
    as (H1 & _); [discriminate|].
  split; [exact H1|]. vm_compute. reflexivity.
Defined.

(** ** Signal scoring: the range of the score *)

Section SignalRange.

Context {L : Libm}.

Local Open Scope Z_scope.

Lemma rsi_rule_within (current_rsi : float64) : rule_within 2 (rsi_rule current_rsi).
Proof.
  unfold rsi_rule.
  repeat match goal with |- context [if ?b then _ else _] => destruct b end;
    cbn; lia || exact I.
Qed.

Lemma macd_rule_within (a b c d : float64) :
  rule_within 2 (macd_rule a b c d) /\ macd_rule a b c d <> None.
Proof.
  unfold macd_rule.
  repeat match goal with |- context [if ?b then _ else _] => destruct b end;
    (split; [cbn; lia|discriminate]).
Qed.

Lemma trend_rule_within (p s50 s200 : float64) :
  rule_within 2 (trend_rule p s50 s200)
  /\ (isnan s200 = true -> trend_rule p s50 s200 = None).
Proof.
  unfold trend_rule. split.
  - repeat match goal with |- context [if ?b then _ else _] => destruct b end;
      cbn; lia || exact I.
  - intros ->. now rewrite andb_false_r.
Qed.

Lemma bollinger_rule_within (p lower upper : float64) :
  rule_within 1 (bollinger_rule p lower upper).
Proof.
  unfold bollinger_rule.
  repeat match goal with |- context [if ?b then _ else _] => destruct b end;
    cbn; lia || exact I.
Qed.

Lemma score_chain (r1 r2 r3 r4 : rule) :
  rule_within 2 r1 -> rule_within 2 r2 -> r2 <> None ->
  rule_within 2 r3 -> rule_within 1 r4 ->
  let st := apply_rule r4 (apply_rule r3 (apply_rule r2 (apply_rule r1 (0, [])))) in
  -7 <= fst st <= 7
  /\ (1 <= List.length (snd st) <= 4)%nat
  /\ (r3 = None -> -5 <= fst st <= 5).
Proof.
  destruct r1 as [[n1 l1]|], r2 as [[n2 l2]|], r3 as [[n3 l3]|], r4 as [[n4 l4]|];
    cbn -[Z.add]; intros H1 H2 Hn H3 H4; try (now contradiction Hn);
    repeat rewrite ?length_app; cbn [List.length];
    (split; [lia|]); (split; [lia|]); intros E; try discriminate E; lia.
Qed.

(** X20.  Whenever [generate_trading_signal] returns, the score lies
    between -7 and 7, between one and four signals are listed (the MACD
    rule always contributes one), and the confidence lies between 0 and
    100.  With fewer than 200 prices the 200-day average is NaN: the trend
    rule stays silent, the distance to the 200-day average is absent, and
    the score lies between -5 and 5. *)
Theorem generate_trading_signal_score_range (prices : list Q) :
  match generate_trading_signal prices with
  | None => True
  | Some r =>
      -7 <= score r <= 7
      /\ (1 <= List.length (signals r) <= 4)%nat
      /\ 0 <= confidence r <= 100
      /\ ((List.length prices < 200)%nat ->
          price_vs_sma200 r = None /\ -5 <= score r <= 5)
  end.
Proof.
  unfold generate_trading_signal.
  pose proof (calculate_macd_length (of_values prices) 12 26 9) as Hm.
  pose proof (calculate_bollinger_bands_length (of_values prices) 20 2) as Hb.
  pose proof (calculate_rsi_length (of_values prices) 14) as Hr.
  destruct (calculate_macd (of_values prices) 12 26 9) as [[m s] h].
  destruct (calculate_bollinger_bands (of_values prices) 20 2) as [[u mid] l].
  destruct Hm as (Hm1 & Hm2 & Hm3). destruct Hb as (Hb1 & Hb2).
  destruct prices as [|p prices]; [exact I|].
  assert (Hpos : (0 < List.length (of_values (p :: prices)))%nat)
    by (unfold of_values; rewrite length_map; simpl; lia).
  assert (Hlen : List.length (of_values (p :: prices)) = List.length (p :: prices))
    by (unfold of_values; apply length_map).
  set (ps := of_values (p :: prices)) in *.
  destruct (iloc_neg_last_length ps Hpos) as (x1 & ->).
  destruct (iloc_neg_last_length (calculate_rsi ps 14) ltac:(lia)) as (x2 & ->).
  destruct (iloc_neg_last_length m ltac:(lia)) as (x3 & ->).
  destruct (iloc_neg_last_length s ltac:(lia)) as (x4 & ->).
  destruct (iloc_neg_last_length h ltac:(lia)) as (x5 & ->).
  destruct (iloc_neg_last_length (calculate_sma ps 50)
              ltac:(unfold calculate_sma; rewrite rolling_length; lia)) as (x6 & ->).
  destruct (iloc_neg_last_length (calculate_sma ps 200)
              ltac:(unfold calculate_sma; rewrite rolling_length; lia)) as (x7 & E7).
  rewrite E7.
  destruct (iloc_neg_last_length l ltac:(lia)) as (x8 & ->).
  destruct (iloc_neg_last_length u ltac:(lia)) as (x9 & ->).
  cbv zeta.
  match goal with
  | |- context [classify_score ?sc] => destruct (classify_score sc) as [sg ac]
  end.
  cbn [score signals confidence price_vs_sma200].
  match goal with
  | |- context [apply_rule ?r4 (apply_rule ?r3 (apply_rule ?r2 (apply_rule ?r1 (0, []))))] =>
      pose proof (score_chain r1 r2 r3 r4 (rsi_rule_within _)
                              (proj1 (macd_rule_within _ _ _ _))
                              (proj2 (macd_rule_within _ _ _ _))
                              (proj1 (trend_rule_within _ _ _))
                              (bollinger_rule_within _ _ _)) as Hc
  end.
  cbv zeta in Hc. destruct Hc as (Hs & Hl & H5).
  split; [exact Hs|]. split; [exact Hl|]. split; [lia|].
  intros Hshort.
  assert (Hx7 : x7 = NaN).
  { unfold calculate_sma in E7.
    rewrite (rolling_last_short series_mean 200 ps) in E7.
    - now injection E7.
    - intros E. rewrite E in Hpos. simpl in Hpos. lia.
    - lia. }
  subst x7. split; [reflexivity|].
  apply H5. apply (proj2 (trend_rule_within _ _ _)). reflexivity.
Qed.

End SignalRange.

(** ** Indicators: ranges *)

Lemma Forall_map2 {A B C : Type} (P : A -> Prop) (Q' : B -> Prop) (R : C -> Prop)
      (f : A -> B -> C) (l1 : list A) (l2 : list B) :
  (forall a b, P a -> Q' b -> R (f a b)) ->
  Forall P l1 -> Forall Q' l2 -> Forall R (map2 f l1 l2).
Proof.
  intros Hf H1. revert l2. induction H1 as [|a l1 Ha H1 IH]; intros l2 H2; cbn [map2].
  - constructor.
  - destruct H2 as [|b l2 Hb H2]; constructor; [now apply Hf|now apply IH].
Qed.









Section IndicatorRanges.

Context {L : Libm}.


End IndicatorRanges.

(** ** Performance by regime *)

Lemma str_in_In (x : string) (l : list string) : str_in x l = true <-> In x l.
Proof.
  unfold str_in. rewrite existsb_exists. split.
  - intros (y & Hy & E). apply String.eqb_eq in E. now subst.
  - intros H. exists x. split; [exact H|apply String.eqb_refl].
Qed.

Lemma str_in_false (x : string) (l : list string) : str_in x l = false <-> ~ In x l.
Proof.
  rewrite <- str_in_In. destruct (str_in x l); split; intros H; congruence.
Qed.

Lemma unique_from_In (seen l : list string) (x : string) :
  In x (unique_from seen l) <-> In x l /\ ~ In x seen.
Proof.
  revert seen. induction l as [|y l IH]; intros seen; cbn [unique_from].
  - cbn. tauto.
  - destruct (str_in y seen) eqn:E.
    + apply str_in_In in E. rewrite IH. cbn [In]. split.
      * intros (H1 & H2). tauto.
      * intros ([->|H1] & H2); [contradiction|tauto].
    + apply str_in_false in E. cbn [In]. rewrite IH. cbn [In]. split.
      * intros [->|(H1 & H2)]; [tauto|]. split; [tauto|]. intros H. apply H2. now right.
      * intros ([->|H1] & H2); [now left|].
        destruct (string_dec y x) as [->|Hne]; [now left|right].
        split; [exact H1|]. intros [H|H]; [contradiction|contradiction].
Qed.

Lemma unique_from_NoDup (seen l : list string) : NoDup (unique_from seen l).
Proof.
  revert seen. induction l as [|y l IH]; intros seen; cbn [unique_from].
  - constructor.
  - destruct (str_in y seen); [apply IH|].
    constructor; [|apply IH]. rewrite unique_from_In. intros (_ & H). apply H. now left.
Qed.

(** The rows of one label, and the rows whose label was not seen. *)
Lemma rows_split (df : list (float64 * string)) (seen : list string) (s : string) :
  ~ In s seen ->
  (List.length (filter (fun row => String.eqb (snd row) s) df)
   + List.length (filter (fun row => negb (str_in (snd row) (s :: seen))) df))%nat
  = List.length (filter (fun row => negb (str_in (snd row) seen)) df).
Proof.
  intros Hs. induction df as [|row df IH]; [reflexivity|].
  cbn [filter]. unfold str_in at 1. cbn [existsb]. fold (str_in (snd row) seen).
  destruct (String.eqb (snd row) s) eqn:E.
  - apply String.eqb_eq in E. rewrite E.
    apply str_in_false in Hs. rewrite Hs. cbn [orb negb List.length]. lia.
  - cbn [orb]. destruct (str_in (snd row) seen); cbn [negb List.length]; lia.
Qed.

Lemma occurrences_sum (df : list (float64 * string)) (seen : list string) :
  fold_right Nat.add 0%nat
    (map (fun r => List.length (filter (fun row => String.eqb (snd row) r) df))
         (unique_from seen (map snd df)))
  = List.length (filter (fun row => negb (str_in (snd row) seen)) df).
Proof.
  revert seen. induction df as [|row df IH]; intros seen; [reflexivity|].
  cbn [map unique_from filter].
  assert (Hsame : forall seen' : list string,
             In (snd row) seen' ->
             map (fun r => List.length
                             (if String.eqb (snd row) r
                              then row :: filter (fun row0 => String.eqb (snd row0) r) df
                              else filter (fun row0 => String.eqb (snd row0) r) df))
                 (unique_from seen' (map snd df))
             = map (fun r => List.length (filter (fun row0 => String.eqb (snd row0) r) df))
                   (unique_from seen' (map snd df))).
  { intros seen' Hin. apply map_ext_in. intros r Hr.
    apply unique_from_In in Hr. destruct Hr as (_ & Hr).
    destruct (String.eqb (snd row) r) eqn:E; [|reflexivity].
    apply String.eqb_eq in E. subst r. contradiction. }
  destruct (str_in (snd row) seen) eqn:E.
  - cbn [negb]. rewrite Hsame by (now apply str_in_In). apply IH.
  - cbn [negb map fold_right List.length]. rewrite String.eqb_refl. cbn [List.length].
    rewrite Hsame by (now left). rewrite IH.
    pose proof (rows_split df seen (snd row) ltac:(now apply str_in_false)). lia.
Qed.

Lemma flat_map_singletons {A B : Type} (g : A -> list B) (h : A -> B) (l : list A) :
  (forall a, In a l -> g a = [h a]) -> flat_map g l = map h l.
Proof.
  induction l as [|a l IH]; intros H; [reflexivity|].
  cbn [flat_map map]. rewrite (H a) by now left.
  rewrite IH by (intros b Hb; apply H; now right). reflexivity.
Qed.

Lemma label_occurs (df : list (float64 * string)) (r : string) :
  In r (map snd df) ->
  (0 < List.length (filter (fun row => String.eqb (snd row) r) df))%nat.
Proof.
  intros H. apply in_map_iff in H. destruct H as (row & <- & Hin).
  assert (Hf : In row (filter (fun row0 => String.eqb (snd row0) (snd row)) df))
    by (apply filter_In; split; [exact Hin|apply String.eqb_refl]).
  destruct (filter _ df); [contradiction|simpl; lia].
Qed.

Lemma map_snd_combine {A B : Type} (l1 : list A) (l2 : list B) :
  List.length l2 = List.length l1 -> map snd (combine l1 l2) = l2.
Proof.
  revert l2. induction l1 as [|a l1 IH]; intros [|b l2] H; try discriminate H;
    [reflexivity|]. cbn [combine map snd]. f_equal. apply IH. now injection H.
Qed.

Section RegimePerformance.

Context {L : Libm}.

Lemma analyze_regime_performance_rows (returns : series) (regimes : list string) :
  let df := combine returns regimes in
  analyze_regime_performance returns regimes
  = map (fun regime =>
           let regime_returns := regime_returns_of df regime in
           {| Regime := regime;
              Occurrences := List.length regime_returns;
              avg_daily_return := series_mean regime_returns;
              regime_volatility := fmul (series_std regime_returns) sqrt_252;
              best_day := series_max regime_returns;
              worst_day := series_min regime_returns;
              regime_win_rate :=
                fdiv (count_where (fun r => fgt r (Fin 0)) regime_returns)
                     (of_nat (List.length regime_returns)) |})
        (unique (map snd df)).
Proof.
  cbv zeta. unfold analyze_regime_performance. cbv zeta.
  apply flat_map_singletons. intros r Hr.
  apply unique_from_In in Hr. destruct Hr as (Hr & _).
  pose proof (label_occurs _ _ Hr) as Hpos.
  unfold regime_returns_of. rewrite length_map.
  replace (0 <? List.length (filter (fun row => String.eqb (snd row) r)
                                    (combine returns regimes)))%nat
    with true by (symmetry; now apply Nat.ltb_lt).
  reflexivity.
Qed.

Lemma regime_rows_names (returns : series) (regimes : list string) :
  List.length regimes = List.length returns ->
  map Regime (analyze_regime_performance returns regimes) = unique regimes.
Proof.
  intros Hlen. rewrite analyze_regime_performance_rows. cbv zeta.
  rewrite (map_snd_combine returns regimes Hlen).
  rewrite map_map. cbn [Regime]. apply map_id.
Qed.

Lemma regime_rows_occurrences (returns : series) (regimes : list string) :
  List.length regimes = List.length returns ->
  fold_right Nat.add 0%nat (map Occurrences (analyze_regime_performance returns regimes))
  = List.length returns.
Proof.
  intros Hlen. rewrite analyze_regime_performance_rows. cbv zeta.
  rewrite map_map. cbn [Occurrences]. unfold regime_returns_of.
  rewrite (map_ext _ (fun r => List.length
                                 (filter (fun row => String.eqb (snd row) r)
                                         (combine returns regimes))))
    by (intros r; apply length_map).
  pose proof (occurrences_sum (combine returns regimes) []) as Hsum.
  unfold unique. rewrite Hsum.
  rewrite forallb_filter_id by (apply forallb_forall; reflexivity).
  rewrite length_combine. lia.
Qed.

(** X22.  [analyze_regime_performance] on returns and labels of the same
    length partitions the dates: there is one row per label that occurs,
    in the order of first appearance and without repetition, the
    occurrences of the rows add up to the number of dates, each row has at
    least one occurrence and a win rate between 0 and 1. *)
Theorem analyze_regime_performance_partitions (returns : series) (regimes : list string) :
  List.length regimes = List.length returns ->
  let stats := analyze_regime_performance returns regimes in
  map Regime stats = unique regimes
  /\ NoDup (map Regime stats)
  /\ (forall r, In r (map Regime stats) <-> In r regimes)
  /\ fold_right Nat.add 0%nat (map Occurrences stats) = List.length returns
  /\ Forall (fun row => (1 <= Occurrences row)%nat
                        /\ exists w, regime_win_rate row = Fin w /\ 0 <= w <= 1) stats.
Proof.
  intros Hlen. cbv zeta.
  rewrite (regime_rows_names _ _ Hlen).
  split; [reflexivity|]. split; [apply unique_from_NoDup|]. split.
  { intros r. unfold unique. rewrite unique_from_In. cbn [In]. tauto. }
  split; [exact (regime_rows_occurrences _ _ Hlen)|].
  rewrite analyze_regime_performance_rows. cbv zeta.
  apply Forall_forall. intros row Hrow. apply in_map_iff in Hrow.
  destruct Hrow as (r & <- & Hr). cbn [Occurrences regime_win_rate].
  apply unique_from_In in Hr. destruct Hr as (Hr & _).
  pose proof (label_occurs _ _ Hr) as Hpos.
  unfold regime_returns_of. rewrite length_map. split; [lia|].
  rewrite <- (length_map fst).
  apply count_fraction. intros E. apply (f_equal (@List.length _)) in E.
  rewrite length_map in E. cbn [List.length] in E. lia.
Qed.

Lemma detect_market_regimes_labels (returns : list Q) (lookback : nat) :
  List.length (detect_market_regimes returns lookback) = List.length returns
  /\ Forall (fun label => In label regime_labels) (detect_market_regimes returns lookback).
Proof.
  unfold detect_market_regimes. cbv zeta.
  set (rs := of_values returns).
  assert (Hlen : List.length rs = List.length returns)
    by (unfold rs, of_values; apply length_map).
  set (rr := map (fun x => fmul x (Fin 252)) (rolling series_mean lookback rs)).
  set (rv := map (fun x => fmul x sqrt_252) (rolling series_std lookback rs)).
  assert (Hrr : List.length rr = List.length returns)
    by (unfold rr; now rewrite length_map, rolling_length).
  assert (Hrv : List.length rv = List.length returns)
    by (unfold rv; now rewrite length_map, rolling_length).
  rewrite (masked_assignments_pointwise (series_median rv) rr rv rs) by congruence.
  split; [rewrite map2_length; lia|].
  apply (Forall_map2 (fun _ => True) (fun _ => True)).
  - intros a b _ _. unfold regime_label, regime_labels.
    repeat match goal with |- context [if ?c then _ else _] => destruct c end;
      simpl; tauto.
  - apply Forall_forall. intros; exact I.
  - apply Forall_forall. intros; exact I.
Qed.

(** X23.  The regime table of a return series, as the application
    builds it ([analyze_regime_performance] on the labels of
    [detect_market_regimes]), has at most five rows, each for one of the
    five regime labels, and the occurrences add up to the number of
    returns. *)
Theorem regime_table_at_most_five_rows (returns : list Q) (lookback : nat) :
  let stats := analyze_regime_performance (of_values returns)
                                          (detect_market_regimes returns lookback) in
  (List.length stats <= 5)%nat
  /\ Forall (fun row => In (Regime row) regime_labels) stats
  /\ fold_right Nat.add 0%nat (map Occurrences stats) = List.length returns.
Proof.
  cbv zeta.
  destruct (detect_market_regimes_labels returns lookback) as (Hlen & Hlab).
  assert (Hlen' : List.length (detect_market_regimes returns lookback)
                  = List.length (of_values returns))
    by (unfold of_values; rewrite length_map; exact Hlen).
  pose proof (regime_rows_names _ _ Hlen') as Hnames.
  pose proof (regime_rows_occurrences _ _ Hlen') as Hsum.
  assert (Hnd : NoDup (map Regime (analyze_regime_performance
                                     (of_values returns)
                                     (detect_market_regimes returns lookback))))
    by (rewrite Hnames; apply unique_from_NoDup).
  assert (Hincl : incl (map Regime (analyze_regime_performance
                                      (of_values returns)
                                      (detect_market_regimes returns lookback)))
                       regime_labels).
  { intros r Hr. rewrite Hnames in Hr. apply unique_from_In in Hr.
    rewrite Forall_forall in Hlab. now apply Hlab. }
  split.
  - rewrite <- (length_map Regime).
    apply (NoDup_incl_length Hnd Hincl).
  - split.
    + apply Forall_forall. intros row Hrow. apply Hincl. now apply in_map.
    + rewrite Hsum. unfold of_values. apply length_map.
Qed.

End RegimePerformance.

Lemma analyze_regime_performance_partitions_witness :
  let stats := analyze_regime_performance
                 (of_values [1 # 100; -1 # 100; 2 # 100; 0; 3 # 100])
                 ["Bull"; "Bear"; "Bull"; "Side"; "Bull"] in
  map Regime stats = ["Bull"; "Bear"; "Side"]
  /\ map Occurrences stats = [3; 1; 1]%nat
  /\ fold_right Nat.add 0%nat (map Occurrences stats) = 5%nat.
Proof.
  destruct (analyze_regime_performance_partitions
              (of_values [1 # 100; -1 # 100; 2 # 100; 0; 3 # 100])
              ["Bull"; "Bear"; "Bull"; "Side"; "Bull"] eq_refl)
    as (H1 & _ & _ & H4 & _).
  split; [exact H1|]. split; [reflexivity|exact H4].
Defined.

(** ** Bollinger bands *)

Lemma rolling_nth (stat : series -> float64) (w i : nat) (s : series) :
  (i < List.length s)%nat ->
  nth i (rolling stat w s) NaN
  = if (series_count (window w i s) <? w)%nat then NaN else stat (window w i s).
Proof.
  intros Hi. unfold rolling.
  rewrite (nth_map_lt _ _ i NaN 0%nat) by (now rewrite length_seq).
  rewrite seq_nth by exact Hi. reflexivity.
Qed.

Lemma window_of_values (w i : nat) (l : list Q) :
  window w i (of_values l) = of_values (skipn (i + 1 - w) (firstn (i + 1) l)).
Proof.
  unfold window, of_values. now rewrite firstn_map, skipn_map.
Qed.

Lemma window_length_le_period (w i : nat) (s : series) :
  (List.length (window w i s) <= w)%nat.
Proof.
  unfold window. rewrite length_skipn, length_firstn. lia.
Qed.

Lemma fadd_nan_r (a : float64) : fadd a NaN = NaN.
Proof. now destruct a. Qed.

Section BollingerBands.

Context {L : Libm}.

(** X24.  For finite prices and a band width that is not negative, at
    each date the Bollinger bands are either undefined (upper and lower
    NaN) or finite with lower <= middle <= upper; they are undefined until
    the window is full, and at every date when the period is 1 (the
    standard deviation of one value is NaN). *)
Theorem calculate_bollinger_bands_ordered (prices : list Q) (period : nat) (std_dev : Q) :
  0 <= std_dev ->
  let '(upper, middle, lower) :=
    calculate_bollinger_bands (of_values prices) period std_dev in
  forall i, (i < List.length prices)%nat ->
    ((nth i upper NaN = NaN /\ nth i lower NaN = NaN)
     \/ exists lo mid up,
          nth i lower NaN = Fin lo /\ nth i middle NaN = Fin mid /\ nth i upper NaN = Fin up
          /\ lo <= mid /\ mid <= up)
    /\ ((i + 1 < period)%nat \/ period = 1%nat ->
        nth i upper NaN = NaN /\ nth i lower NaN = NaN).
Proof.
  intros Hk. unfold calculate_bollinger_bands. cbv zeta. intros i Hi.
  assert (Hlen : List.length (of_values prices) = List.length prices)
    by (unfold of_values; apply length_map).
  rewrite (nth_map2 fadd _ _ i NaN NaN NaN) by series_lengths.
  rewrite (nth_map2 fsub _ _ i NaN NaN NaN) by series_lengths.
  rewrite (nth_map_lt _ _ i NaN NaN) by series_lengths.
  rewrite !rolling_nth by lia.
  rewrite window_of_values.
  set (wl := skipn (i + 1 - period) (firstn (i + 1) prices)).
  pose proof (window_length_le_period period i (of_values prices)) as Hwle.
  rewrite window_of_values in Hwle. fold wl in Hwle.
  rewrite series_count_of_values.
  unfold of_values in Hwle. rewrite length_map in Hwle.
  assert (Hwi : (List.length wl <= i + 1)%nat)
    by (unfold wl; rewrite length_skipn, length_firstn; lia).
  destruct (List.length wl <? period)%nat eqn:Ecount.
  { split; [left|intros _]; split; reflexivity. }
  apply Nat.ltb_ge in Ecount.
  destruct (le_lt_dec (List.length wl) 1) as [Hshort|Hlong].
  { rewrite series_std_short by (rewrite series_count_of_values; exact Hshort).
    unfold fsub. cbn [fmul fopp]. rewrite !fadd_nan_r.
    split; [left|intros _]; split; reflexivity. }
  assert (Hne : wl <> []) by (intros E; rewrite E in Hlong; simpl in Hlong; lia).
  rewrite (series_mean_of_values wl Hne).
  destruct (series_var_of_values wl ltac:(lia)) as (v & Hv & Hpos).
  unfold series_std. rewrite Hv. unfold fsqrt.
  replace (Qlt_bool v 0) with false by (symmetry; now apply Qlt_bool_false_iff).
  cbn [fmul fadd fsub fopp].
  assert (Hs : 0 <= np_sqrt v * std_dev)
    by (apply Qmult_le_0_compat; [apply np_sqrt_nonneg|exact Hk]).
  split.
  - right. do 3 eexists. split; [reflexivity|]. split; [reflexivity|].
    split; [reflexivity|]. split; lra.
  - intros [H|H]; lia.
Qed.

End BollingerBands.

Lemma calculate_bollinger_bands_ordered_witness :
  let '(upper, middle, lower) := calculate_bollinger_bands (of_values [10; 12; 11; 13]) 3 2 in
  nth 1 upper NaN = NaN
  /\ fle (nth 3 lower NaN) (nth 3 middle NaN) = true
  /\ fle (nth 3 middle NaN) (nth 3 upper NaN) = true.
Proof.
  assert (Hk : 0 <= 2) by (unfold Qle; simpl; lia).
  pose proof (calculate_bollinger_bands_ordered [10; 12; 11; 13] 3 2 Hk) as H.
  destruct (calculate_bollinger_bands (of_values [10; 12; 11; 13]) 3 2)
    as [[upper middle] lower] eqn:E.
  split.
  - destruct (H 1%nat ltac:(simpl; lia)) as (_ & Hn).
    destruct Hn as (Hn1 & _); [left; lia|exact Hn1].
  - destruct (H 3%nat ltac:(simpl; lia)) as ([(Hu & _)|(lo & mid & up & E1 & E2 & E3 & H1 & H2)] & _).
    + injection E as <- _ _. vm_compute in Hu. discriminate Hu.
    + rewrite E1, E2, E3. cbn [fle]. split; now apply Qle_bool_iff.
Defined.

(** ** Random portfolios *)

Lemma sumQ_map_div (l : list Q) (d : Q) :
  ~ d == 0 -> sumQ (map (fun w => w / d) l) == sumQ l / d.
Proof.
  intros Hd. induction l as [|x l IH]; cbn [map].
  - unfold sumQ. cbn [fold_right]. field. exact Hd.
  - rewrite !sumQ_cons, IH. field. exact Hd.
Qed.

Lemma In_le_sumQ (l : list Q) (w : Q) :
  Forall (fun x => 0 <= x) l -> In w l -> w <= sumQ l.
Proof.
  induction 1 as [|x l Hx Hl IH]; intros Hin; [contradiction|].
  rewrite sumQ_cons. pose proof (sumQ_nonneg l Hl).
  destruct Hin as [->|Hin]; [lra|]. specialize (IH Hin). lra.
Qed.

Section EfficientFrontier.

Context {L : Libm}.

Lemma normalize_of_values (draws : list Q) :
  ~ sumQ draws == 0 ->
  normalize (of_values draws) = of_values (map (fun w => w / sumQ draws) draws).
Proof.
  intros Hs. unfold normalize, np_sum. rewrite fold_fadd_of_values.
  unfold of_values. rewrite !map_map. apply map_ext. intros w.
  now apply fdiv_Fin.
Qed.

(** X25.  [calculate_efficient_frontier] returns one weight vector and
    one (return, deviation, Sharpe) column per portfolio, the Sharpe ratio
    being the return over the deviation; and whenever a random draw is
    finite, not negative and not all zero, the weights made of it are
    between 0 and 1 and add up to 1. *)
Theorem calculate_efficient_frontier_weights_normalized
        (random : nat -> list float64) (prices : list (list Q)) (num_portfolios : nat) :
  let '(results, weights_array) :=
    calculate_efficient_frontier random prices num_portfolios in
  let '(portfolio_returns, portfolio_stds, sharpes) := results in
  List.length weights_array = num_portfolios
  /\ List.length portfolio_returns = num_portfolios
  /\ List.length portfolio_stds = num_portfolios
  /\ List.length sharpes = num_portfolios
  /\ forall i, (i < num_portfolios)%nat ->
       nth i sharpes NaN = fdiv (nth i portfolio_returns NaN) (nth i portfolio_stds NaN)
       /\ forall draws,
            random i = of_values draws ->
            Forall (fun x => 0 <= x) draws -> 0 < sumQ draws ->
            exists weights,
              nth i weights_array [] = of_values weights
              /\ List.length weights = List.length draws
              /\ Forall (fun w => 0 <= w /\ w <= 1) weights
              /\ sumQ weights == 1.
Proof.
  unfold calculate_efficient_frontier. cbv zeta.
  repeat rewrite length_map. rewrite length_seq.
  repeat (split; [reflexivity|]).
  intros i Hi.
  assert (Hnth : forall (B : Type) (f : nat -> B) (d : B),
             nth i (map f (seq 0 num_portfolios)) d = f i).
  { intros B f d. rewrite (nth_map_lt _ _ i d 0%nat) by (now rewrite length_seq).
    now rewrite seq_nth. }
  split.
  - rewrite !map_map. rewrite !Hnth. reflexivity.
  - intros draws Hdraw Hnonneg Hpos. rewrite Hnth, Hdraw.
    rewrite normalize_of_values by lra.
    eexists. split; [reflexivity|]. split; [apply length_map|]. split.
    + apply Forall_forall. intros w Hw. apply in_map_iff in Hw.
      destruct Hw as (x & <- & Hx).
      pose proof (In_le_sumQ draws x Hnonneg Hx) as Hle.
      rewrite Forall_forall in Hnonneg. specialize (Hnonneg x Hx). split.
      * apply Qle_shift_div_l; lra.
      * apply Qle_shift_div_r; lra.
    + rewrite sumQ_map_div by lra. field. lra.
Qed.

End EfficientFrontier.

(** ** Economic calendar *)

Lemma flat_map_filter {A B : Type} (c : A -> bool) (f : A -> B) (l : list A) :
  flat_map (fun x => if c x then [f x] else []) l = map f (filter c l).
Proof.
  induction l as [|x l IH]; [reflexivity|].
  cbn [flat_map filter]. destruct (c x); cbn [map app]; now rewrite IH.
Qed.

Lemma sort_by_sorted {A : Type} (le : A -> A -> bool) (l : list A) :
  StronglySorted (fun a b => le a b = true) l -> sort_by le l = l.
Proof.
  induction 1 as [|x l Hl IH Hx]; [reflexivity|].
  cbn [sort_by]. rewrite IH. destruct l as [|y l]; [reflexivity|].
  cbn [insert_by]. inversion Hx as [|? ? Hxy _]; subst. now rewrite Hxy.
Qed.

Lemma StronglySorted_filter {A : Type} (R : A -> A -> Prop) (c : A -> bool) (l : list A) :
  StronglySorted R l -> StronglySorted R (filter c l).
Proof.
  induction 1 as [|x l Hl IH Hx]; cbn [filter]; [constructor|].
  destruct (c x); [|exact IH]. constructor; [exact IH|].
  rewrite Forall_forall in *. intros y Hy. apply Hx.
  apply filter_In in Hy. tauto.
Qed.

Lemma StronglySorted_map {A B : Type} (R : B -> B -> Prop) (f : A -> B) (l : list A) :
  StronglySorted (fun a b => R (f a) (f b)) l -> StronglySorted R (map f l).
Proof.
  induction 1 as [|x l Hl IH Hx]; cbn [map]; constructor; [exact IH|].
  rewrite Forall_forall in *. intros y Hy. apply in_map_iff in Hy.
  destruct Hy as (a & <- & Ha). now apply Hx.
Qed.

Lemma StronglySorted_weaken {A : Type} (R R' : A -> A -> Prop) (l : list A) :
  (forall a b, R a b -> R' a b) -> StronglySorted R l -> StronglySorted R' l.
Proof.
  intros HR. induction 1 as [|x l Hl IH Hx]; constructor; [exact IH|].
  rewrite Forall_forall in *. intros y Hy. apply HR. now apply Hx.
Qed.

Ltac meeting_timestamps :=
  repeat match goal with
         | |- context [timestamp (Build_datetime ?y ?m ?d)] =>
             let v := eval vm_compute in (timestamp (Build_datetime y m d)) in
             change (timestamp (Build_datetime y m d)) with v
         end.

Ltac meeting_cases :=
  repeat match goal with
         | |- context [Qlt_bool ?a ?b] =>
             let E := fresh "E" in
             destruct (Qlt_bool a b) eqn:E;
             [apply Qlt_bool_iff in E | apply Qlt_bool_false_iff in E];
             try (exfalso; lra)
         end.

Lemma fed_meetings_sorted :
  StronglySorted (fun a b => timestamp a < timestamp b) fed_meetings.
Proof.
  unfold fed_meetings.
  repeat (constructor; [|repeat (constructor; [meeting_timestamps; lra|]); constructor]).
  constructor.
Qed.

(** No four meetings fall within 90 days. *)
Lemma upcoming_meetings_at_most_three (today : Q) :
  (List.length
     (filter (fun meeting => Qlt_bool today (timestamp meeting)
                             && Qlt_bool (timestamp meeting) (today + 90))
             fed_meetings) <= 3)%nat.
Proof.
  unfold fed_meetings. cbn [filter]. meeting_timestamps.
  meeting_cases; cbn [andb List.length]; lia.
Qed.

(** X26.  [get_upcoming_economic_events] lists at most three events (the
    slice to five never cuts): each is a Fed meeting of the fixed list that
    falls strictly within the next 90 days, in increasing order of date;
    from 17 December 2026 on, and until 90 days before 29 January 2026, the
    list is empty. *)
Theorem get_upcoming_economic_events_at_most_three (today : Q) :
  let events := get_upcoming_economic_events today in
  (List.length events <= 3)%nat
  /\ Forall (fun e => In (event_date e) fed_meetings
                      /\ today < timestamp (event_date e)
                      /\ timestamp (event_date e) < today + 90
                      /\ event_name e = "Fed Meeting"
                      /\ event_impact e = "HIGH") events
  /\ StronglySorted (fun a b => timestamp (event_date a) < timestamp (event_date b)) events
  /\ (timestamp {| dt_year := 2026; dt_month := 12; dt_day := 17 |} <= today -> events = [])
  /\ (today + 90 <= timestamp {| dt_year := 2026; dt_month := 1; dt_day := 29 |} ->
      events = []).
Proof.
  cbv zeta. unfold get_upcoming_economic_events. cbv zeta.
  rewrite (flat_map_filter
             (fun meeting => Qlt_bool today (timestamp meeting)
                             && Qlt_bool (timestamp meeting) (today + 90))).
  set (upcoming := filter _ fed_meetings).
  set (ev := fun meeting : datetime => _).
  assert (Hsorted : StronglySorted (fun a b => timestamp a < timestamp b) upcoming)
    by (apply StronglySorted_filter, fed_meetings_sorted).
  assert (Hlen : (List.length upcoming <= 3)%nat)
    by apply upcoming_meetings_at_most_three.
  rewrite sort_by_sorted.
  2:{ apply StronglySorted_map. cbn [event_date ev].
      apply (StronglySorted_weaken (fun a b => timestamp a < timestamp b));
        [|exact Hsorted].
      intros a b Hab. apply Qle_bool_iff. lra. }
  rewrite firstn_all2 by (rewrite length_map; lia).
  split; [rewrite length_map; exact Hlen|].
  split.
  { apply Forall_forall. intros e He. apply in_map_iff in He.
    destruct He as (m & <- & Hm). unfold upcoming in Hm. apply filter_In in Hm.
    destruct Hm as (Hin & Hc). apply andb_true_iff in Hc. destruct Hc as (H1 & H2).
    apply Qlt_bool_iff in H1. apply Qlt_bool_iff in H2.
    cbn [ev event_date event_name event_impact]. repeat split; assumption. }
  split.
  { apply StronglySorted_map. cbn [ev event_date]. exact Hsorted. }
  assert (Hnone : (forall m, In m fed_meetings ->
                             Qlt_bool today (timestamp m)
                             && Qlt_bool (timestamp m) (today + 90) = false) ->
                  map ev upcoming = []).
  { intros H. unfold upcoming. rewrite filter_none; [reflexivity|].
    apply Forall_forall. exact H. }
  split; intros H; apply Hnone; intros m Hm; unfold fed_meetings in Hm; cbn [In] in Hm;
    revert H; meeting_timestamps; intros H;
    repeat (destruct Hm as [<-|Hm];
            [meeting_timestamps; apply andb_false_iff;
             first [ left; apply Qlt_bool_false_iff; lra
                   | right; apply Qlt_bool_false_iff; lra ] |]);
    contradiction.
Qed.
